(** * uMap data layers: versioned save, lazy loading and the feature index

    A shallow embedding of [DataLayer] (umap/static/umap/js/modules) and of
    the parts of its collaborators that the layer reads or writes: the
    owning map's layer registry, Leaflet's [stamp] counter and layer
    visibility, the transport ([server.get], [server.post], [request.get])
    and the format parser.

    One [World] holds the fields of one layer ([this]) together with the
    state of its collaborators and a log of what the layer asked of them.
    Methods are computations in a state+exception monad [M].  An [await]
    on the transport reads the reply from the environment [Env] at the
    current position of the request log; no other method of the layer runs
    between a request and its reply, and a call that is not awaited runs
    to its end where it is made.  Rendering, DOM and the sync engine
    leave the modelled state alone and are not represented. *)

From stdpp Require Import gmap strings list sorting pretty.
From Stdlib Require Import ZArith Lia.

Set Warnings "-register-all,-clear-no-such-hyp".

(** ** JavaScript values *)

Inductive JsVal : Type :=
| JUndefined
| JNull
| JBool (b : bool)
| JNum (z : Z)
| JStr (s : string)
| JArr (l : list JsVal)
| JObj (m : gmap string JsVal).

(** [Boolean(v)].  Numbers are integers here: the code only looks at
    whether a number is zero. *)
Definition truthy (v : JsVal) : bool :=
  match v with
  | JUndefined | JNull => false
  | JBool b => b
  | JNum z => negb (z =? 0)%Z
  | JStr s => negb (String.eqb s "")
  | JArr _ | JObj _ => true
  end.

(** [typeof v] *)
Definition typeof (v : JsVal) : string :=
  match v with
  | JUndefined => "undefined"
  | JNull => "object"
  | JBool _ => "boolean"
  | JNum _ => "number"
  | JStr _ => "string"
  | JArr _ | JObj _ => "object"
  end.

(** [o[k]] on an object held as a map: a missing key reads [undefined]. *)
Definition prop (o : gmap string JsVal) (k : string) : JsVal :=
  default JUndefined (o !! k).

(** [v?.k]: [undefined] when [v] is not an object. *)
Definition field (v : JsVal) (k : string) : JsVal :=
  match v with
  | JObj m => prop m k
  | _ => JUndefined
  end.

(** [a && b] and [a || b] on values. *)
Definition js_and (a b : JsVal) : JsVal := if truthy a then b else a.
Definition js_or (a b : JsVal) : JsVal := if truthy a then a else b.

(** [o[k] = v] and [Object.assign(target, source)]. *)
Definition assign_prop (k : string) (v : JsVal) (o : gmap string JsVal) :
  gmap string JsVal := <[k := v]> o.
Definition Object_assign (target source : gmap string JsVal) :
  gmap string JsVal := source ∪ target.

(** ** GeoJSON payloads and features *)

(** One element of a collection: a GeoJSON Feature or a bare Geometry.
    [geometry_type] is [(geojson.geometry || geojson).type]. *)
Record GeoElem : Type := {
  geometry_type : JsVal;
  ge_properties : list (string * JsVal)
}.

(** The shapes [makeFeatures] tells apart. *)
Inductive Collection : Type :=
| CFeature (e : GeoElem)
    (* geojson.type === 'Feature' || geojson.coordinates *)
| CArray (l : list GeoElem)
    (* Array.isArray(geojson) *)
| CObject (features : option (list GeoElem)).
    (* geojson.features || geojson.geometries; None when both are missing *)

(** A GeoJSON document as it travels: the server's file for a layer, the
    output of a parser, a backup. *)
Record GeoJSON : Type := {
  payload : Collection;
  _umap_options : option (gmap string JsVal);
  _storage : option (gmap string JsVal)
}.

(** What [this._geojson] refers to: a document received from outside, or
    the object built by [umapGeoJSON], whose [_umap_options] is the layer's
    own [options] object and shows its later changes. *)
Inductive LayerDoc : Type :=
| Doc (geojson : GeoJSON)
| OwnDoc (features : list GeoElem).

Inductive Kind : Type := Point | LineString | Polygon.

(** A materialised feature.  [leaflet_id] is the id Leaflet's [stamp]
    gives the object. *)
Record Feature : Type := {
  leaflet_id : positive;
  kind : Kind;
  f_geometry_type : JsVal;
  properties : list (string * JsVal)
}.

Definition stamp (f : Feature) : positive := leaflet_id f.

(** ** Transport *)

Inductive Url : Type :=
| datalayer_save (map_id pk : JsVal) (created : bool)
| datalayer_delete (pk map_id : JsVal)
| datalayer_view (pk map_id : JsVal) (nocache : bool).

(** The multipart body of a save: [JSON.stringify] has already been
    applied, so the body holds values, not references. *)
Record FormData : Type := {
  fd_name : JsVal;
  fd_display_on_load : bool;
  fd_rank : Z;
  fd_settings : gmap string JsVal;
  fd_geojson : GeoJSON
}.

Definition Headers : Type := list (string * string).

Inductive Request : Type :=
| ServerGet (url : Url)
| ServerPost (url : Url) (headers : option Headers) (body : option FormData)
| RequestGet (url : string).

Record HttpResponse : Type := {
  status : Z;
  headers : gmap string string
}.

(** [response.headers.get(name)]: [null] when the header is missing. *)
Definition headers_get (r : HttpResponse) (name : string) : option string :=
  headers r !! name.

(** [[data, response, error]] of [server.get] and [server.post]: [error] is
    falsy exactly for [ReplyOk]; a failed request may have no response. *)
Inductive ServerReply (A : Type) : Type :=
| ReplyOk (data : A) (response : HttpResponse)
| ReplyError (response : option HttpResponse).
Arguments ReplyOk {A} data response.
Arguments ReplyError {A} response.

(** [data] of a successful save: the layer's settings as the server stored
    them, and [geojson] when the server merged a conflict. *)
Record SaveData : Type := {
  d_geojson : option GeoJSON;
  d_fields : gmap string JsVal
}.

(** What [request.get] resolves to, when it resolves to anything. *)
Record FetchResponse : Type := {
  ok : bool;
  text : string
}.

(** The action [AlertConflict.error] is given: the variables the arrow
    function closes over. *)
Record Retry : Type := {
  retry_url : Url;
  retry_formData : FormData
}.

(** The collaborators.  The [nat] is the number of requests issued before
    the one being answered, so a server may answer the same request
    differently at different times.  [sortElems] and [sortFeatures] are
    [Utils.sortFeatures] with the map's sort key, on raw elements and on
    features.  [LAYER_TYPES] holds the [TYPE] of each rendering class of
    the table of that name, [DefaultLayer_TYPE] the one of
    [DefaultLayer]: the classes are defined in other modules. *)
Record Env : Type := {
  server_get : nat → Url → ServerReply GeoJSON;
  server_post : nat → Url → option Headers → option FormData →
                ServerReply SaveData;
  request_get : nat → string → option FetchResponse;
  formatter_parse : string → JsVal → option GeoJSON;
  renderUrl : JsVal → string;
  proxyUrl : string → JsVal → string;
  sortElems : list GeoElem → list GeoElem;
  sortFeatures : list Feature → list Feature;
  LAYER_TYPES : list string;
  DefaultLayer_TYPE : string
}.

(** ** The state *)

Record World : Type := {
  (* the layer: stamp(this) and the fields of [this] *)
  self_id : positive;
  _index : list positive;
  _features : gmap positive Feature;
  _propertiesIndex : list string;
  _geojson : option LayerDoc;
  _geojson_bk : option GeoJSON;
  options : gmap string JsVal;
  _backupOptions : gmap string JsVal;
  _referenceVersion : option string;
  _loaded : bool;
  _dataloaded : bool;
  _loading : bool;
  _isDeleted : bool;
  (* ServerStored: is the layer waiting to be saved *)
  isDirty : bool;
  (* Leaflet: _leafletMap.hasLayer(this.layer), and this.layer.getType() *)
  visible : bool;
  layer_type : string;
  (* the owning map *)
  umap_id : JsVal;
  hasEditMode : bool;
  datalayers : gset positive;
  datalayersIndex : list positive;
  (* Leaflet's id counter behind stamp() *)
  lastId : positive;
  (* what the layer asked of its collaborators *)
  requests : list Request;
  conflicts : list Retry;
  alerts : list JsVal;
  saveAllCalls : nat
}.

(** Field updates. [null], [undefined] and a deleted field are [None] or
    [false]. *)

Definition set_index (v : list positive) (w : World) : World :=
  {| self_id := self_id w; _index := v; _features := _features w;
  _propertiesIndex := _propertiesIndex w; _geojson := _geojson w; _geojson_bk
  := _geojson_bk w; options := options w; _backupOptions := _backupOptions w;
  _referenceVersion := _referenceVersion w; _loaded := _loaded w; _dataloaded
  := _dataloaded w; _loading := _loading w; _isDeleted := _isDeleted w;
  isDirty := isDirty w; visible := visible w; layer_type := layer_type w;
  umap_id := umap_id w; hasEditMode := hasEditMode w; datalayers := datalayers
  w; datalayersIndex := datalayersIndex w; lastId := lastId w; requests :=
  requests w; conflicts := conflicts w; alerts := alerts w; saveAllCalls :=
  saveAllCalls w |}.

Definition set_features (v : gmap positive Feature) (w : World) : World :=
  {| self_id := self_id w; _index := _index w; _features := v;
  _propertiesIndex := _propertiesIndex w; _geojson := _geojson w; _geojson_bk
  := _geojson_bk w; options := options w; _backupOptions := _backupOptions w;
  _referenceVersion := _referenceVersion w; _loaded := _loaded w; _dataloaded
  := _dataloaded w; _loading := _loading w; _isDeleted := _isDeleted w;
  isDirty := isDirty w; visible := visible w; layer_type := layer_type w;
  umap_id := umap_id w; hasEditMode := hasEditMode w; datalayers := datalayers
  w; datalayersIndex := datalayersIndex w; lastId := lastId w; requests :=
  requests w; conflicts := conflicts w; alerts := alerts w; saveAllCalls :=
  saveAllCalls w |}.

Definition set_propertiesIndex (v : list string) (w : World) : World :=
  {| self_id := self_id w; _index := _index w; _features := _features w;
  _propertiesIndex := v; _geojson := _geojson w; _geojson_bk := _geojson_bk w;
  options := options w; _backupOptions := _backupOptions w; _referenceVersion
  := _referenceVersion w; _loaded := _loaded w; _dataloaded := _dataloaded w;
  _loading := _loading w; _isDeleted := _isDeleted w; isDirty := isDirty w;
  visible := visible w; layer_type := layer_type w; umap_id := umap_id w;
  hasEditMode := hasEditMode w; datalayers := datalayers w; datalayersIndex :=
  datalayersIndex w; lastId := lastId w; requests := requests w; conflicts :=
  conflicts w; alerts := alerts w; saveAllCalls := saveAllCalls w |}.

Definition set_geojson (v : option LayerDoc) (w : World) : World :=
  {| self_id := self_id w; _index := _index w; _features := _features w;
  _propertiesIndex := _propertiesIndex w; _geojson := v; _geojson_bk :=
  _geojson_bk w; options := options w; _backupOptions := _backupOptions w;
  _referenceVersion := _referenceVersion w; _loaded := _loaded w; _dataloaded
  := _dataloaded w; _loading := _loading w; _isDeleted := _isDeleted w;
  isDirty := isDirty w; visible := visible w; layer_type := layer_type w;
  umap_id := umap_id w; hasEditMode := hasEditMode w; datalayers := datalayers
  w; datalayersIndex := datalayersIndex w; lastId := lastId w; requests :=
  requests w; conflicts := conflicts w; alerts := alerts w; saveAllCalls :=
  saveAllCalls w |}.

Definition set_geojson_bk (v : option GeoJSON) (w : World) : World :=
  {| self_id := self_id w; _index := _index w; _features := _features w;
  _propertiesIndex := _propertiesIndex w; _geojson := _geojson w; _geojson_bk
  := v; options := options w; _backupOptions := _backupOptions w;
  _referenceVersion := _referenceVersion w; _loaded := _loaded w; _dataloaded
  := _dataloaded w; _loading := _loading w; _isDeleted := _isDeleted w;
  isDirty := isDirty w; visible := visible w; layer_type := layer_type w;
  umap_id := umap_id w; hasEditMode := hasEditMode w; datalayers := datalayers
  w; datalayersIndex := datalayersIndex w; lastId := lastId w; requests :=
  requests w; conflicts := conflicts w; alerts := alerts w; saveAllCalls :=
  saveAllCalls w |}.

Definition set_options (v : gmap string JsVal) (w : World) : World :=
  {| self_id := self_id w; _index := _index w; _features := _features w;
  _propertiesIndex := _propertiesIndex w; _geojson := _geojson w; _geojson_bk
  := _geojson_bk w; options := v; _backupOptions := _backupOptions w;
  _referenceVersion := _referenceVersion w; _loaded := _loaded w; _dataloaded
  := _dataloaded w; _loading := _loading w; _isDeleted := _isDeleted w;
  isDirty := isDirty w; visible := visible w; layer_type := layer_type w;
  umap_id := umap_id w; hasEditMode := hasEditMode w; datalayers := datalayers
  w; datalayersIndex := datalayersIndex w; lastId := lastId w; requests :=
  requests w; conflicts := conflicts w; alerts := alerts w; saveAllCalls :=
  saveAllCalls w |}.

Definition set_backupOptions (v : gmap string JsVal) (w : World) : World :=
  {| self_id := self_id w; _index := _index w; _features := _features w;
  _propertiesIndex := _propertiesIndex w; _geojson := _geojson w; _geojson_bk
  := _geojson_bk w; options := options w; _backupOptions := v;
  _referenceVersion := _referenceVersion w; _loaded := _loaded w; _dataloaded
  := _dataloaded w; _loading := _loading w; _isDeleted := _isDeleted w;
  isDirty := isDirty w; visible := visible w; layer_type := layer_type w;
  umap_id := umap_id w; hasEditMode := hasEditMode w; datalayers := datalayers
  w; datalayersIndex := datalayersIndex w; lastId := lastId w; requests :=
  requests w; conflicts := conflicts w; alerts := alerts w; saveAllCalls :=
  saveAllCalls w |}.

Definition set_referenceVersion (v : option string) (w : World) : World :=
  {| self_id := self_id w; _index := _index w; _features := _features w;
  _propertiesIndex := _propertiesIndex w; _geojson := _geojson w; _geojson_bk
  := _geojson_bk w; options := options w; _backupOptions := _backupOptions w;
  _referenceVersion := v; _loaded := _loaded w; _dataloaded := _dataloaded w;
  _loading := _loading w; _isDeleted := _isDeleted w; isDirty := isDirty w;
  visible := visible w; layer_type := layer_type w; umap_id := umap_id w;
  hasEditMode := hasEditMode w; datalayers := datalayers w; datalayersIndex :=
  datalayersIndex w; lastId := lastId w; requests := requests w; conflicts :=
  conflicts w; alerts := alerts w; saveAllCalls := saveAllCalls w |}.

Definition set_loaded (v : bool) (w : World) : World :=
  {| self_id := self_id w; _index := _index w; _features := _features w;
  _propertiesIndex := _propertiesIndex w; _geojson := _geojson w; _geojson_bk
  := _geojson_bk w; options := options w; _backupOptions := _backupOptions w;
  _referenceVersion := _referenceVersion w; _loaded := v; _dataloaded :=
  _dataloaded w; _loading := _loading w; _isDeleted := _isDeleted w; isDirty
  := isDirty w; visible := visible w; layer_type := layer_type w; umap_id :=
  umap_id w; hasEditMode := hasEditMode w; datalayers := datalayers w;
  datalayersIndex := datalayersIndex w; lastId := lastId w; requests :=
  requests w; conflicts := conflicts w; alerts := alerts w; saveAllCalls :=
  saveAllCalls w |}.

Definition set_dataloaded (v : bool) (w : World) : World :=
  {| self_id := self_id w; _index := _index w; _features := _features w;
  _propertiesIndex := _propertiesIndex w; _geojson := _geojson w; _geojson_bk
  := _geojson_bk w; options := options w; _backupOptions := _backupOptions w;
  _referenceVersion := _referenceVersion w; _loaded := _loaded w; _dataloaded
  := v; _loading := _loading w; _isDeleted := _isDeleted w; isDirty := isDirty
  w; visible := visible w; layer_type := layer_type w; umap_id := umap_id w;
  hasEditMode := hasEditMode w; datalayers := datalayers w; datalayersIndex :=
  datalayersIndex w; lastId := lastId w; requests := requests w; conflicts :=
  conflicts w; alerts := alerts w; saveAllCalls := saveAllCalls w |}.

Definition set_loading (v : bool) (w : World) : World :=
  {| self_id := self_id w; _index := _index w; _features := _features w;
  _propertiesIndex := _propertiesIndex w; _geojson := _geojson w; _geojson_bk
  := _geojson_bk w; options := options w; _backupOptions := _backupOptions w;
  _referenceVersion := _referenceVersion w; _loaded := _loaded w; _dataloaded
  := _dataloaded w; _loading := v; _isDeleted := _isDeleted w; isDirty :=
  isDirty w; visible := visible w; layer_type := layer_type w; umap_id :=
  umap_id w; hasEditMode := hasEditMode w; datalayers := datalayers w;
  datalayersIndex := datalayersIndex w; lastId := lastId w; requests :=
  requests w; conflicts := conflicts w; alerts := alerts w; saveAllCalls :=
  saveAllCalls w |}.

Definition set_isDeleted (v : bool) (w : World) : World :=
  {| self_id := self_id w; _index := _index w; _features := _features w;
  _propertiesIndex := _propertiesIndex w; _geojson := _geojson w; _geojson_bk
  := _geojson_bk w; options := options w; _backupOptions := _backupOptions w;
  _referenceVersion := _referenceVersion w; _loaded := _loaded w; _dataloaded
  := _dataloaded w; _loading := _loading w; _isDeleted := v; isDirty :=
  isDirty w; visible := visible w; layer_type := layer_type w; umap_id :=
  umap_id w; hasEditMode := hasEditMode w; datalayers := datalayers w;
  datalayersIndex := datalayersIndex w; lastId := lastId w; requests :=
  requests w; conflicts := conflicts w; alerts := alerts w; saveAllCalls :=
  saveAllCalls w |}.

Definition set_isDirty (v : bool) (w : World) : World :=
  {| self_id := self_id w; _index := _index w; _features := _features w;
  _propertiesIndex := _propertiesIndex w; _geojson := _geojson w; _geojson_bk
  := _geojson_bk w; options := options w; _backupOptions := _backupOptions w;
  _referenceVersion := _referenceVersion w; _loaded := _loaded w; _dataloaded
  := _dataloaded w; _loading := _loading w; _isDeleted := _isDeleted w;
  isDirty := v; visible := visible w; layer_type := layer_type w; umap_id :=
  umap_id w; hasEditMode := hasEditMode w; datalayers := datalayers w;
  datalayersIndex := datalayersIndex w; lastId := lastId w; requests :=
  requests w; conflicts := conflicts w; alerts := alerts w; saveAllCalls :=
  saveAllCalls w |}.

Definition set_visible (v : bool) (w : World) : World :=
  {| self_id := self_id w; _index := _index w; _features := _features w;
  _propertiesIndex := _propertiesIndex w; _geojson := _geojson w; _geojson_bk
  := _geojson_bk w; options := options w; _backupOptions := _backupOptions w;
  _referenceVersion := _referenceVersion w; _loaded := _loaded w; _dataloaded
  := _dataloaded w; _loading := _loading w; _isDeleted := _isDeleted w;
  isDirty := isDirty w; visible := v; layer_type := layer_type w; umap_id :=
  umap_id w; hasEditMode := hasEditMode w; datalayers := datalayers w;
  datalayersIndex := datalayersIndex w; lastId := lastId w; requests :=
  requests w; conflicts := conflicts w; alerts := alerts w; saveAllCalls :=
  saveAllCalls w |}.

Definition set_layer_type (v : string) (w : World) : World :=
  {| self_id := self_id w; _index := _index w; _features := _features w;
  _propertiesIndex := _propertiesIndex w; _geojson := _geojson w; _geojson_bk
  := _geojson_bk w; options := options w; _backupOptions := _backupOptions w;
  _referenceVersion := _referenceVersion w; _loaded := _loaded w; _dataloaded
  := _dataloaded w; _loading := _loading w; _isDeleted := _isDeleted w;
  isDirty := isDirty w; visible := visible w; layer_type := v; umap_id :=
  umap_id w; hasEditMode := hasEditMode w; datalayers := datalayers w;
  datalayersIndex := datalayersIndex w; lastId := lastId w; requests :=
  requests w; conflicts := conflicts w; alerts := alerts w; saveAllCalls :=
  saveAllCalls w |}.

Definition set_datalayers (v : gset positive) (w : World) : World :=
  {| self_id := self_id w; _index := _index w; _features := _features w;
  _propertiesIndex := _propertiesIndex w; _geojson := _geojson w; _geojson_bk
  := _geojson_bk w; options := options w; _backupOptions := _backupOptions w;
  _referenceVersion := _referenceVersion w; _loaded := _loaded w; _dataloaded
  := _dataloaded w; _loading := _loading w; _isDeleted := _isDeleted w;
  isDirty := isDirty w; visible := visible w; layer_type := layer_type w;
  umap_id := umap_id w; hasEditMode := hasEditMode w; datalayers := v;
  datalayersIndex := datalayersIndex w; lastId := lastId w; requests :=
  requests w; conflicts := conflicts w; alerts := alerts w; saveAllCalls :=
  saveAllCalls w |}.

Definition set_datalayersIndex (v : list positive) (w : World) : World :=
  {| self_id := self_id w; _index := _index w; _features := _features w;
  _propertiesIndex := _propertiesIndex w; _geojson := _geojson w; _geojson_bk
  := _geojson_bk w; options := options w; _backupOptions := _backupOptions w;
  _referenceVersion := _referenceVersion w; _loaded := _loaded w; _dataloaded
  := _dataloaded w; _loading := _loading w; _isDeleted := _isDeleted w;
  isDirty := isDirty w; visible := visible w; layer_type := layer_type w;
  umap_id := umap_id w; hasEditMode := hasEditMode w; datalayers := datalayers
  w; datalayersIndex := v; lastId := lastId w; requests := requests w;
  conflicts := conflicts w; alerts := alerts w; saveAllCalls := saveAllCalls w
  |}.

Definition set_lastId (v : positive) (w : World) : World :=
  {| self_id := self_id w; _index := _index w; _features := _features w;
  _propertiesIndex := _propertiesIndex w; _geojson := _geojson w; _geojson_bk
  := _geojson_bk w; options := options w; _backupOptions := _backupOptions w;
  _referenceVersion := _referenceVersion w; _loaded := _loaded w; _dataloaded
  := _dataloaded w; _loading := _loading w; _isDeleted := _isDeleted w;
  isDirty := isDirty w; visible := visible w; layer_type := layer_type w;
  umap_id := umap_id w; hasEditMode := hasEditMode w; datalayers := datalayers
  w; datalayersIndex := datalayersIndex w; lastId := v; requests := requests
  w; conflicts := conflicts w; alerts := alerts w; saveAllCalls :=
  saveAllCalls w |}.

Definition set_requests (v : list Request) (w : World) : World :=
  {| self_id := self_id w; _index := _index w; _features := _features w;
  _propertiesIndex := _propertiesIndex w; _geojson := _geojson w; _geojson_bk
  := _geojson_bk w; options := options w; _backupOptions := _backupOptions w;
  _referenceVersion := _referenceVersion w; _loaded := _loaded w; _dataloaded
  := _dataloaded w; _loading := _loading w; _isDeleted := _isDeleted w;
  isDirty := isDirty w; visible := visible w; layer_type := layer_type w;
  umap_id := umap_id w; hasEditMode := hasEditMode w; datalayers := datalayers
  w; datalayersIndex := datalayersIndex w; lastId := lastId w; requests := v;
  conflicts := conflicts w; alerts := alerts w; saveAllCalls := saveAllCalls w
  |}.

Definition set_conflicts (v : list Retry) (w : World) : World :=
  {| self_id := self_id w; _index := _index w; _features := _features w;
  _propertiesIndex := _propertiesIndex w; _geojson := _geojson w; _geojson_bk
  := _geojson_bk w; options := options w; _backupOptions := _backupOptions w;
  _referenceVersion := _referenceVersion w; _loaded := _loaded w; _dataloaded
  := _dataloaded w; _loading := _loading w; _isDeleted := _isDeleted w;
  isDirty := isDirty w; visible := visible w; layer_type := layer_type w;
  umap_id := umap_id w; hasEditMode := hasEditMode w; datalayers := datalayers
  w; datalayersIndex := datalayersIndex w; lastId := lastId w; requests :=
  requests w; conflicts := v; alerts := alerts w; saveAllCalls := saveAllCalls
  w |}.

Definition set_alerts (v : list JsVal) (w : World) : World :=
  {| self_id := self_id w; _index := _index w; _features := _features w;
  _propertiesIndex := _propertiesIndex w; _geojson := _geojson w; _geojson_bk
  := _geojson_bk w; options := options w; _backupOptions := _backupOptions w;
  _referenceVersion := _referenceVersion w; _loaded := _loaded w; _dataloaded
  := _dataloaded w; _loading := _loading w; _isDeleted := _isDeleted w;
  isDirty := isDirty w; visible := visible w; layer_type := layer_type w;
  umap_id := umap_id w; hasEditMode := hasEditMode w; datalayers := datalayers
  w; datalayersIndex := datalayersIndex w; lastId := lastId w; requests :=
  requests w; conflicts := conflicts w; alerts := v; saveAllCalls :=
  saveAllCalls w |}.

Definition set_saveAllCalls (v : nat) (w : World) : World :=
  {| self_id := self_id w; _index := _index w; _features := _features w;
  _propertiesIndex := _propertiesIndex w; _geojson := _geojson w; _geojson_bk
  := _geojson_bk w; options := options w; _backupOptions := _backupOptions w;
  _referenceVersion := _referenceVersion w; _loaded := _loaded w; _dataloaded
  := _dataloaded w; _loading := _loading w; _isDeleted := _isDeleted w;
  isDirty := isDirty w; visible := visible w; layer_type := layer_type w;
  umap_id := umap_id w; hasEditMode := hasEditMode w; datalayers := datalayers
  w; datalayersIndex := datalayersIndex w; lastId := lastId w; requests :=
  requests w; conflicts := conflicts w; alerts := alerts w; saveAllCalls := v
  |}.

(** ** Computations *)

Inductive JsError : Type :=
| TypeError (msg : string).

(** How a call ends: a value, or an exception (a rejected promise for an
    [async] method). *)
Inductive Completion (A : Type) : Type :=
| Normal (a : A)
| Throw (e : JsError).
Arguments Normal {A} a.
Arguments Throw {A} e.

Definition M (A : Type) : Type := World → Completion A * World.

Definition ret {A} (a : A) : M A := λ w, (Normal a, w).

Definition bind {A B} (m : M A) (k : A → M B) : M B :=
  λ w, match m w with
       | (Normal a, w') => k a w'
       | (Throw e, w') => (Throw e, w')
       end.

Definition throw {A} (e : JsError) : M A := λ w, (Throw e, w).

Definition get {A} (f : World → A) : M A := λ w, (Normal (f w), w).

Definition put (f : World → World) : M unit := λ w, (Normal tt, f w).

(** A call whose promise nobody awaits: its effects happen, its rejection
    is lost. *)
Definition detached {A} (m : M A) : M unit :=
  λ w, (Normal tt, (m w).2).

Notation "x <- m ;; k" := (bind m (λ x, k))
  (at level 100, m at next level, right associativity).
Notation "m ;; k" := (bind m (λ _, k))
  (at level 100, right associativity).

Fixpoint for_each {A} (l : list A) (body : A → M unit) : M unit :=
  match l with
  | [] => ret tt
  | x :: l' => body x ;; for_each l' body
  end.

(** ** Arrays *)

(** [arr.indexOf(x)] *)
Fixpoint indexOf_from `{EqDecision A} (i : Z) (x : A) (arr : list A) : Z :=
  match arr with
  | [] => -1
  | y :: arr' => if decide (x = y) then i else indexOf_from (i + 1) x arr'
  end.
Definition indexOf `{EqDecision A} (arr : list A) (x : A) : Z :=
  indexOf_from 0 x arr.

(** [arr.includes(x)] *)
Definition includes `{EqDecision A} (arr : list A) (x : A) : bool :=
  bool_decide (x ∈ arr).

(** [arr.splice(start, deleteCount)]: a negative [start] counts from the
    end of the array. *)
Definition splice {A} (start : Z) (deleteCount : nat) (arr : list A) : list A :=
  let len := Z.of_nat (length arr) in
  let from := if (start <? 0)%Z then Z.max (len + start) 0
              else Z.min start len in
  take (Z.to_nat from) arr ++ drop (Z.to_nat from + deleteCount) arr.

(** [arr[i]]: [undefined] outside of [0 .. length-1]. *)
Definition array_get {A} (arr : list A) (i : Z) : option A :=
  if (i <? 0)%Z then None else arr !! Z.to_nat i.

(** [arr.sort()] on strings: ascending by code units. *)
Definition str_le (a b : string) : Prop := String.leb a b = true.
Global Instance str_le_dec a b : Decision (str_le a b).
Proof. unfold str_le. apply _. Defined.
Definition Array_sort (arr : list string) : list string :=
  merge_sort str_le arr.

(** [str.indexOf(needle)] *)
Definition String_indexOf (str needle : string) : Z :=
  match String.index 0 needle str with
  | Some i => Z.of_nat i
  | None => -1
  end.

(** [Object.values(o)] for an object keyed by Leaflet ids: integer keys
    are visited in ascending order. *)
Definition key_le {A} (a b : positive * A) : Prop := (a.1 ≤ b.1)%positive.
Global Instance key_le_dec {A} (a b : positive * A) : Decision (key_le a b).
Proof. unfold key_le. apply _. Defined.
Definition Object_values {A} (o : gmap positive A) : list A :=
  (merge_sort key_le (map_to_list o)).*2.

(** ** The layer *)

Section DataLayer.

Variable env : Env.

(** *** Transport calls: the request is logged, the reply is the
    environment's at this point of the log. *)

Definition log (r : Request) : M unit :=
  put (λ w, set_requests (requests w ++ [r]) w).

Definition server_get_ (url : Url) : M (ServerReply GeoJSON) :=
  now <- get (λ w, length (requests w)) ;;
  log (ServerGet url) ;;
  ret (server_get env now url).

Definition server_post_ (url : Url) (hd : option Headers)
    (body : option FormData) : M (ServerReply SaveData) :=
  now <- get (λ w, length (requests w)) ;;
  log (ServerPost url hd body) ;;
  ret (server_post env now url hd body).

Definition request_get_ (url : string) : M (option FetchResponse) :=
  now <- get (λ w, length (requests w)) ;;
  log (RequestGet url) ;;
  ret (request_get env now url).

(** *** Accessors *)

(** [get id()] *)
Definition id (w : World) : JsVal := prop (options w) "id".

(** [get createdOnServer()] *)
Definition createdOnServer (w : World) : bool :=
  match _referenceVersion w with
  | Some v => truthy (JStr v)
  | None => false
  end.

Definition isLoaded (w : World) : bool :=
  negb (createdOnServer w) || _loaded w.

Definition hasDataLoaded (w : World) : bool := _dataloaded w.

(** [isVisible()]: [visible] stands for [_leafletMap.hasLayer(this.layer)]. *)
Definition isVisible (w : World) : bool := visible w.

Definition remoteData (w : World) : JsVal := prop (options w) "remoteData".

Definition isRemoteLayer (w : World) : bool :=
  truthy (js_and (field (remoteData w) "url") (field (remoteData w) "format")).

Definition hasDynamicData (w : World) : bool :=
  isRemoteLayer w && truthy (field (remoteData w) "dynamic").

Definition getRank (w : World) : Z := indexOf (datalayersIndex w) (self_id w).

Definition count (w : World) : nat := length (_index w).

(** Rendering and DOM: nothing of the modelled state changes. *)
Definition dataChanged : M unit := ret tt.
Definition renderLegend : M unit := ret tt.
Definition showFeature (feature : Feature) : M unit := ret tt.
Definition hideFeature (feature : Feature) : M unit := ret tt.

(** [feature.makeUI()] is the feature's rendering. *)
Definition makeUI (feature : Feature) : M unit := ret tt.

(** *** Feature index *)

Definition indexProperty (name : string) : M unit :=
  if String.eqb name "" then ret tt
  else if (String_indexOf name "_" =? 0)%Z then ret tt
  else
    index <- get _propertiesIndex ;;
    if includes index name then ret tt
    else put (set_propertiesIndex (Array_sort (index ++ [name]))).

Definition indexProperties (feature : Feature) : M unit :=
  for_each (properties feature) (λ '(i, v),
    if String.eqb (typeof v) "object" then ret tt else indexProperty i).

Definition deindexProperty (name : string) : M unit :=
  put (λ w,
    let idx := indexOf (_propertiesIndex w) name in
    if (idx =? -1)%Z then w
    else set_propertiesIndex (splice idx 1 (_propertiesIndex w)) w).

(** The feature's own link to the layer and the map-wide index by slug
    belong to the feature and to the map. *)
Definition addFeature (feature : Feature) : M unit :=
  let id := stamp feature in
  put (λ w, set_index (_index w ++ [id]) w) ;;
  put (λ w, set_features (<[id := feature]> (_features w)) w) ;;
  indexProperties feature ;;
  showFeature feature ;;
  dataChanged.

(** [sync] only decides whether the sync engine is told. *)
Definition removeFeature (feature : Feature) : M unit :=
  let id := stamp feature in
  hideFeature feature ;;
  put (λ w, set_index (splice (indexOf (_index w) id) 1 (_index w)) w) ;;
  put (λ w, set_features (delete id (_features w)) w) ;;
  vis <- get isVisible ;;
  if vis then dataChanged else ret tt.

Definition reindex : M unit :=
  put (λ w,
    let features := sortFeatures env (Object_values (_features w)) in
    set_index (stamp <$> features) w).

Definition getFeatureByIndex (index : Z) : M (option Feature) :=
  w <- get (λ w, w) ;;
  let index := if (index =? -1)%Z then (Z.of_nat (length (_index w)) - 1)%Z
               else index in
  let id := array_get (_index w) index in
  ret (id ≫= λ id, _features w !! id).

(** [eachFeature(method)] for a method that uses the feature it is given:
    a dangling id reads [undefined], and the call on it throws. *)
Fixpoint eachFeature_from (index : list positive)
    (method : Feature → M unit) : M unit :=
  match index with
  | [] => ret tt
  | idx :: index' =>
      feature <- get (λ w, _features w !! idx) ;;
      match feature with
      | Some feature => method feature ;; eachFeature_from index' method
      | None => throw (TypeError "feature is undefined")
      end
  end.

Definition eachFeature (method : Feature → M unit) : M unit :=
  index <- get _index ;;
  eachFeature_from index method.

(** Modelled from the spec: [toGeoJSON] is a method of the feature classes
    of features.js, which are not part of this file.  Exporting a feature
    gives back its geometry kind and its properties. *)
Definition toGeoJSON (feature : Feature) : GeoElem :=
  {| geometry_type := f_geometry_type feature;
     ge_properties := properties feature |}.

(** [eachFeature((feature) => features.push(feature.toGeoJSON()))] *)
Fixpoint eachFeature_toGeoJSON (fs : gmap positive Feature)
    (index : list positive) : M (list GeoElem) :=
  match index with
  | [] => ret []
  | idx :: index' =>
      match fs !! idx with
      | Some feature =>
          rest <- eachFeature_toGeoJSON fs index' ;;
          ret (toGeoJSON feature :: rest)
      | None => throw (TypeError "feature is undefined")
      end
  end.

Definition featuresToGeoJSON : M (list GeoElem) :=
  w <- get (λ w, w) ;;
  eachFeature_toGeoJSON (_features w) (_index w).

(** *** Backups *)

(** [Utils.CopyJSON] and [JSON.stringify]: a copy holds values, so the
    reference to the layer's options is replaced by what they are now. *)
Definition CopyJSON (w : World) (doc : LayerDoc) : GeoJSON :=
  match doc with
  | Doc geojson => geojson
  | OwnDoc features =>
      {| payload := CObject (Some features);
         _umap_options := Some (options w);
         _storage := None |}
  end.

Definition backupOptions : M unit :=
  put (λ w, set_backupOptions (options w) w).

(** [this.options = ...] points the layer at a new options object.  A
    document built by [umapGeoJSON] keeps the old object, which nothing
    changes from then on. *)
Definition replace_options (o : gmap string JsVal) : M unit :=
  put (λ w, set_geojson (Doc <$> (CopyJSON w <$> _geojson w)) w) ;;
  put (set_options o).

Definition resetOptions : M unit :=
  o <- get _backupOptions ;;
  replace_options o.

Definition backupData : M unit :=
  put (λ w, set_geojson_bk (CopyJSON w <$> _geojson w) w).

Definition clear : M unit :=
  put (set_features ∅) ;;
  put (set_index []) ;;
  geojson <- get _geojson ;;
  (if geojson is Some _ then backupData ;; put (set_geojson None)
   else ret tt) ;;
  dataChanged.

(** *** Materialising features *)

Definition kind_of_type (type : JsVal) : option Kind :=
  match type with
  | JStr s =>
      if String.eqb s "Point" then Some Point
      else if String.eqb s "MultiLineString" || String.eqb s "LineString"
      then Some LineString
      else if String.eqb s "MultiPolygon" || String.eqb s "Polygon"
      then Some Polygon
      else None
  | _ => None
  end.

(** Modelled from the spec: the feature classes [Point], [LineString] and
    [Polygon] of features.js are not part of this file.  A new feature has
    a stable identity, one of the three geometry variants and the
    properties of the element it is made from; its identity is the next id
    of Leaflet's [stamp]. *)
Definition new_Feature (k : Kind) (geojson : GeoElem) : M Feature :=
  put (λ w, set_lastId (Pos.succ (lastId w)) w) ;;
  id <- get lastId ;;
  ret {| leaflet_id := id; kind := k;
         f_geometry_type := geometry_type geojson;
         properties := ge_properties geojson |}.

(** [Alert.error] for an element that is skipped. *)
Definition Alert_error (type : JsVal) : M unit :=
  put (λ w, set_alerts (alerts w ++ [type]) w).

(** [sync] only decides whether the sync engine is told of the new
    feature. *)
Definition makeFeature (geojson : GeoElem) (sync : bool) : M (option Feature) :=
  match kind_of_type (geometry_type geojson) with
  | Some k =>
      feature <- new_Feature k geojson ;;
      addFeature feature ;;
      ret (Some feature)
  | None =>
      Alert_error (js_or (geometry_type geojson) (JStr "undefined")) ;;
      ret None
  end.

Definition with_payload (geojson : GeoJSON) (c : Collection) : GeoJSON :=
  {| payload := c; _umap_options := _umap_options geojson;
     _storage := _storage geojson |}.

(** [Utils.sortFeatures] sorts the array it is given in place: the result
    is the document as the call leaves it. *)
Definition makeFeatures (geojson : GeoJSON) (sync : bool) : M GeoJSON :=
  let each collection :=
    for_each collection (λ feature, _ <- makeFeature feature sync ;; ret tt) in
  match payload geojson with
  | CFeature e =>
      each (sortElems env [e]) ;;
      ret geojson
  | CArray l =>
      let collection := sortElems env l in
      each collection ;;
      ret (with_payload geojson (CArray collection))
  | CObject (Some l) =>
      let collection := sortElems env l in
      each collection ;;
      ret (with_payload geojson (CObject (Some collection)))
  | CObject None => ret geojson
  end.

(** [try { this.makeFeatures(geojson, sync) } catch (err) { ... }] *)
Definition addData (geojson : GeoJSON) (sync : bool) : M GeoJSON :=
  λ w, match makeFeatures geojson sync w with
       | (Normal g, w') => (Normal g, w')
       | (Throw _, w') => (Normal geojson, w')
       end.

Definition onDataLoaded : M unit :=
  put (set_dataloaded true) ;;
  renderLegend.

Definition fromGeoJSON (geojson : GeoJSON) (sync : bool) : M GeoJSON :=
  geojson <- addData geojson sync ;;
  put (set_geojson (Some (Doc geojson))) ;;
  onDataLoaded ;;
  dataChanged ;;
  ret geojson.

(** *** Options *)

Definition defaultOptions : gmap string JsVal :=
  {[ "displayOnLoad" := JBool true; "inCaption" := JBool true;
     "browsable" := JBool true; "editMode" := JStr "advanced" ]}.

(** *** Loading *)

(** The promise of [formatter.parse] is settled within the call: [None]
    is a rejection, which nobody handles. *)
Definition fetchRemoteData (force : JsVal) : M unit :=
  remote <- get isRemoteLayer ;;
  if negb remote then ret tt else
  dynamic <- get hasDynamicData ;;
  loaded <- get hasDataLoaded ;;
  if negb dynamic && loaded && negb (truthy force) then ret tt else
  vis <- get isVisible ;;
  if negb vis then ret tt else
  rd <- get remoteData ;;
  let url := renderUrl env (field rd "url") in
  let url := if truthy (field rd "proxy")
             then proxyUrl env url (field rd "ttl") else url in
  response <- request_get_ url ;;
  match response with
  | Some r =>
      if ok r then
        clear ;;
        rd <- get remoteData ;;
        match formatter_parse env (text r) (field rd "format") with
        | Some geojson => _ <- fromGeoJSON geojson true ;; ret tt
        | None => ret tt
        end
      else ret tt
  | None => ret tt
  end.

(** [sync.update] is the sync engine's. *)
Definition setReferenceVersion (response : HttpResponse) : M unit :=
  put (set_referenceVersion (headers_get response "X-Datalayer-Version")).

Definition _dataUrl (w : World) : Url :=
  datalayer_view (id w) (umap_id w) (hasEditMode w).

Definition set_editMode (editMode : JsVal)
    (o : option (gmap string JsVal)) : option (gmap string JsVal) :=
  (λ o, <["editMode" := editMode]> o) <$> o.

Definition hide : M unit := put (set_visible false).

(** [options.type === this.layer.getType()] *)
Definition same_type (type : JsVal) (current : string) : bool :=
  if type is JStr s then String.eqb s current else false.

(** [(LAYER_MAP[options.type] || DefaultLayer).TYPE] *)
Definition Class_TYPE (type : JsVal) : string :=
  match type with
  | JStr s => if bool_decide (s ∈ LAYER_TYPES env) then s
              else DefaultLayer_TYPE env
  | _ => DefaultLayer_TYPE env
  end.

(** *** From [fetchData] back to [fetchData]

    [fetchData] reaches itself: through [fromUmapGeoJSON], [setOptions],
    [updateOptions] and [resetLayer], which shows the layer again, to
    [show], which loads a layer that is not loaded.  Here the methods on
    that path take the [fetchData] they end in as [again]. *)

Section Reentrant.

Variable again : M unit.

Definition show_ : M unit :=
  put (set_visible true) ;;
  loaded <- get isLoaded ;;
  (if negb loaded then again else ret tt).

(** With a new rendering layer in [this.layer], not yet on the map,
    [isVisible()] is false until [show] has put it there.  The promise of
    [show] is not awaited. *)
Definition resetLayer_ : M unit :=
  type <- get (λ w, prop (options w) "type") ;;
  current <- get layer_type ;;
  if negb (truthy type) || same_type type current then ret tt else
  vis <- get isVisible ;;
  put (set_visible false) ;;
  put (set_layer_type (Class_TYPE type)) ;;
  eachFeature makeUI ;;
  eachFeature showFeature ;;
  (if vis then detached show_ else ret tt).

Definition updateOptions_ (o : gmap string JsVal) : M unit :=
  put (λ w, set_options (Object_assign (options w) o) w) ;;
  resetLayer_.

(** [setOptions] deletes [geojson] from the object it is given: the result
    is that object as the call leaves it. *)
Definition setOptions_ (o : gmap string JsVal) : M (gmap string JsVal) :=
  let o := delete "geojson" o in
  replace_options defaultOptions ;;
  updateOptions_ o ;;
  ret o.

(** With [_storage] present, [_umap_options] and [_storage] are one
    object, and what is written to one shows in the other. *)
Definition fromUmapGeoJSON_ (geojson : GeoJSON) : M unit :=
  let retrocompat := bool_decide (is_Some (_storage geojson)) in
  let umap_options := if _storage geojson is Some o then Some o
                      else _umap_options geojson in
  match umap_options with
  | None => throw (TypeError "geojson._umap_options is undefined")
  | Some o =>
      this_id <- get id ;;
      o <- setOptions_ (<["id" := this_id]> o) ;;
      let geojson :=
        {| payload := payload geojson; _umap_options := Some o;
           _storage := if retrocompat then Some o else None |} in
      remote <- get isRemoteLayer ;;
      (if remote then fetchRemoteData JUndefined
       else _ <- fromGeoJSON geojson false ;; ret tt) ;;
      put (set_loaded true)
  end.

Definition fetchData_body : M unit :=
  created <- get createdOnServer ;;
  if negb created then ret tt else
  loading <- get _loading ;;
  if loading then ret tt else
  put (set_loading true) ;;
  url <- get _dataUrl ;;
  reply <- server_get_ url ;;
  match reply with
  | ReplyOk geojson response =>
      setReferenceVersion response ;;
      editMode <- get (λ w, prop (options w) "editMode") ;;
      let geojson :=
        {| payload := payload geojson;
           _umap_options := set_editMode editMode (_umap_options geojson);
           _storage := set_editMode editMode (_storage geojson) |} in
      fromUmapGeoJSON_ geojson ;;
      backupOptions ;;
      put (set_loading false)
  | ReplyError _ => ret tt
  end.

End Reentrant.

(** The [fetchData] that [fetchData] reaches starts while [_loading] is
    set and returns at one of the two guards: [ret tt] stands for it.
    That [fetchData] then is its own body is [fetchData_unfold]. *)
Definition fetchData : M unit := fetchData_body (ret tt).

Definition show : M unit := show_ fetchData.
Definition resetLayer : M unit := resetLayer_ fetchData.
Definition updateOptions (o : gmap string JsVal) : M unit :=
  updateOptions_ fetchData o.
Definition setOptions (o : gmap string JsVal) : M (gmap string JsVal) :=
  setOptions_ fetchData o.
Definition fromUmapGeoJSON (geojson : GeoJSON) : M unit :=
  fromUmapGeoJSON_ fetchData geojson.

(** *** Visibility *)

Definition toggle : M unit :=
  vis <- get isVisible ;;
  if negb vis then detached show else hide.

Definition redraw : M unit :=
  vis <- get isVisible ;;
  if negb vis then ret tt else
  hide ;;
  detached show.

(** *** Dirty and deleted *)

(** [onDirty(status)].  [this.isDeleted = false] stores the flag and
    nothing else: the setter touches [isDirty] only for a truthy status.
    The promise of [fetchData] is not awaited. *)
Definition onDirty (status : bool) : M unit :=
  if status then
    loaded <- get isLoaded ;;
    (if negb loaded then detached fetchData else ret tt)
  else put (set_isDeleted false).

(** Modelled from the spec: [ServerStored] of saving.js is not part of
    this file.  [isDirty] says that local state has unsaved changes; the
    layer reports the transition through its [onDirty] hook. *)
Definition assign_isDirty (status : bool) : M unit :=
  put (set_isDirty status) ;;
  onDirty status.

(** [set isDeleted(status)] *)
Definition assign_isDeleted (status : bool) : M unit :=
  put (set_isDeleted status) ;;
  (if status then assign_isDirty status else ret tt).

(** *** Saving *)

Definition connectToMap : M unit :=
  put (λ w, if decide (self_id w ∈ datalayers w) then w
            else set_datalayers ({[self_id w]} ∪ datalayers w) w) ;;
  put (λ w, if includes (datalayersIndex w) (self_id w) then w
            else set_datalayersIndex (datalayersIndex w ++ [self_id w]) w).

Definition umapGeoJSON : M LayerDoc :=
  remote <- get isRemoteLayer ;;
  features <- (if remote then ret [] else featuresToGeoJSON) ;;
  ret (OwnDoc features).

(** Modelled from the spec: [saveAll] belongs to the coordinator, which
    sweeps everything still waiting to be saved; here the call is
    counted. *)
Definition saveAll : M unit :=
  put (λ w, set_saveAllCalls (S (saveAllCalls w)) w).

(** [AlertConflict.error(message, action)] *)
Definition AlertConflict_error (action : Retry) : M unit :=
  put (λ w, set_conflicts (conflicts w ++ [action]) w).

Definition _trySave (url : Url) (hd : Headers) (formData : FormData) :
    M (option bool) :=
  reply <- server_post_ url (Some hd) (Some formData) ;;
  match reply with
  | ReplyError response =>
      match response with
      | Some r =>
          if (status r =? 412)%Z then
            AlertConflict_error
              {| retry_url := url; retry_formData := formData |} ;;
            ret None
          else ret None
      | None => ret None
      end
  | ReplyOk data response =>
      (if d_geojson data is Some geojson then
         clear ;;
         _ <- fromGeoJSON geojson true ;;
         ret tt
       else ret tt) ;;
      let data := delete "_referenceVersion" (delete "id" (d_fields data)) in
      updateOptions data ;;
      setReferenceVersion response ;;
      backupOptions ;;
      backupData ;;
      connectToMap ;;
      put (set_loaded true) ;;
      redraw ;;
      ret (Some true)
  end.

(** The action handed to [AlertConflict.error], run when the user picks
    it. *)
Definition retry (action : Retry) : M unit :=
  status <- _trySave (retry_url action) [] (retry_formData action) ;;
  if status is Some true then
    assign_isDirty false ;;
    saveAll
  else ret tt.

Definition getDeleteUrl (w : World) : Url :=
  datalayer_delete (id w) (umap_id w).

Definition saveDelete : M (option bool) :=
  created <- get createdOnServer ;;
  (if created then
     url <- get getDeleteUrl ;;
     _ <- server_post_ url None None ;;
     ret tt
   else ret tt) ;;
  put (λ w, set_datalayers (datalayers w ∖ {[self_id w]}) w) ;;
  ret (Some true).

Definition save : M (option bool) :=
  deleted <- get _isDeleted ;;
  if deleted then saveDelete else
  loaded <- get isLoaded ;;
  if negb loaded then ret None else
  geojson <- umapGeoJSON ;;
  w <- get (λ w, w) ;;
  let formData :=
    {| fd_name := prop (options w) "name";
       fd_display_on_load := truthy (prop (options w) "displayOnLoad");
       fd_rank := getRank w;
       fd_settings := options w;
       fd_geojson := CopyJSON w geojson |} in
  let saveURL := datalayer_save (umap_id w) (id w) (createdOnServer w) in
  let hd := match _referenceVersion w with
            | Some v => if truthy (JStr v)
                        then [("X-Datalayer-Reference", v)] else []
            | None => []
            end in
  status <- _trySave saveURL hd formData ;;
  put (set_geojson (Some geojson)) ;;
  ret status.

(** *** Deleting, emptying, resetting *)

(** Panes, legends and event listeners are the DOM's. *)
Definition erase : M unit :=
  hide ;;
  put (λ w, set_datalayersIndex (splice (getRank w) 1 (datalayersIndex w)) w) ;;
  clear ;;
  put (set_loaded false) ;;
  put (set_dataloaded false).

Definition _delete : M unit :=
  assign_isDeleted true ;;
  erase.

Definition empty : M unit :=
  remote <- get isRemoteLayer ;;
  if remote then ret tt else
  clear ;;
  assign_isDirty true.

(** [fromGeoJSON(this._geojson_bk)] hands the backup itself over: it is
    sorted in place and becomes [_geojson]. *)
Definition reset : M unit :=
  created <- get createdOnServer ;;
  (if negb created then erase else ret tt) ;;
  resetOptions ;;
  clear ;;
  hide ;;
  remote <- get isRemoteLayer ;;
  bk <- get _geojson_bk ;;
  (if remote then detached (fetchRemoteData JUndefined)
   else if bk is Some geojson then
     geojson <- fromGeoJSON geojson true ;;
     put (set_geojson_bk (Some geojson))
   else ret tt) ;;
  put (set_loaded true) ;;
  detached show ;;
  assign_isDirty false.

End DataLayer.

(** ** Fields, for saying what a step leaves alone *)

Inductive Field : Type :=
  | F_self_id | F_index | F_features | F_propertiesIndex | F_geojson
  | F_geojson_bk | F_options | F_backupOptions | F_referenceVersion
  | F_loaded | F_dataloaded | F_loading | F_isDeleted | F_isDirty
  | F_visible | F_layer_type | F_umap_id | F_hasEditMode | F_datalayers
  | F_datalayersIndex | F_lastId | F_requests | F_conflicts | F_alerts
  | F_saveAllCalls.

Global Instance Field_eq_dec : EqDecision Field.
Proof. solve_decision. Defined.

Definition field_type (f : Field) : Type :=
  match f with
  | F_self_id => positive
  | F_index => list positive
  | F_features => gmap positive Feature
  | F_propertiesIndex => list string
  | F_geojson => option LayerDoc
  | F_geojson_bk => option GeoJSON
  | F_options => gmap string JsVal
  | F_backupOptions => gmap string JsVal
  | F_referenceVersion => option string
  | F_loaded => bool
  | F_dataloaded => bool
  | F_loading => bool
  | F_isDeleted => bool
  | F_isDirty => bool
  | F_visible => bool
  | F_layer_type => string
  | F_umap_id => JsVal
  | F_hasEditMode => bool
  | F_datalayers => gset positive
  | F_datalayersIndex => list positive
  | F_lastId => positive
  | F_requests => list Request
  | F_conflicts => list Retry
  | F_alerts => list JsVal
  | F_saveAllCalls => nat
  end.

Definition get_field (f : Field) (w : World) : field_type f :=
  match f with
  | F_self_id => self_id w
  | F_index => _index w
  | F_features => _features w
  | F_propertiesIndex => _propertiesIndex w
  | F_geojson => _geojson w
  | F_geojson_bk => _geojson_bk w
  | F_options => options w
  | F_backupOptions => _backupOptions w
  | F_referenceVersion => _referenceVersion w
  | F_loaded => _loaded w
  | F_dataloaded => _dataloaded w
  | F_loading => _loading w
  | F_isDeleted => _isDeleted w
  | F_isDirty => isDirty w
  | F_visible => visible w
  | F_layer_type => layer_type w
  | F_umap_id => umap_id w
  | F_hasEditMode => hasEditMode w
  | F_datalayers => datalayers w
  | F_datalayersIndex => datalayersIndex w
  | F_lastId => lastId w
  | F_requests => requests w
  | F_conflicts => conflicts w
  | F_alerts => alerts w
  | F_saveAllCalls => saveAllCalls w
  end.

(** [frame S w w']: going from [w] to [w'], only fields in [S] change. *)
Definition frame (S : list Field) (w w' : World) : Prop :=
  ∀ f, f ∉ S → get_field f w' = get_field f w.

(** * More of the layer *)

(** ** Importing *)

Section Importing.

Variable env : Env.

(** [zoomTo] fits the view of the map to the layer: the view is the
    map's. *)
Definition zoomTo : M unit := ret tt.

(** The callbacks of the parser's promise run once the call has come to
    its end, so the layer is marked dirty first; [addData] is called
    without [sync], which [makeFeatures] takes as [true].  [None] is a
    rejection, which nobody handles. *)
Definition importRaw (raw : string) (format : JsVal) : M unit :=
  assign_isDirty env true ;;
  match formatter_parse env raw format with
  | Some geojson => _ <- addData env geojson true ;; zoomTo
  | None => ret tt
  end.

(** The promise of [importRaw] is not awaited. *)
Definition importFromUrl (uri : JsVal) (type : JsVal) : M unit :=
  let uri := renderUrl env uri in
  response <- request_get_ env uri ;;
  match response with
  | Some r => if ok r then detached (importRaw (text r) type) else ret tt
  | None => ret tt
  end.

End Importing.

(** ** Read-only layers *)

Definition isReadOnly (w : World) : bool :=
  if prop (options w) "editMode" is JStr s then String.eqb s "disabled"
  else false.

Definition isDataReadOnly (w : World) : bool :=
  isReadOnly w || isRemoteLayer w.

(** ** Browsing *)

(** What [getPreviousFeature] returns: [null], or what the feature map
    holds. *)
Inductive Neighbour : Type :=
| Neighbour_null
| Neighbour_of (feature : option Feature).

(** [this._index <= 1] compares the array as the number its string reads
    as: the empty array as 0, [[k]] as [k], a longer one as [NaN]. *)
Definition index_le_1 (index : list positive) : bool :=
  match index with
  | [] => true
  | [k] => bool_decide (k ≤ 1)%positive
  | _ => false
  end.

Section Browsing.

(** [browsable] of the rendering layer of each type, set by its class,
    and the other layers of the map, by their stamp. *)
Variable browsable : string → JsVal.
Variable others : positive → World.

Definition isBrowsable (w : World) : JsVal := browsable (layer_type w).

Definition allowBrowse (w : World) : JsVal :=
  js_and (JBool (truthy (prop (options w) "browsable"))) (isBrowsable w).

Definition hasData (w : World) : bool := negb (length (_index w) =? 0).

Definition canBrowse (w : World) : JsVal :=
  js_and (js_and (allowBrowse w) (JBool (isVisible w))) (JBool (hasData w)).

(** The layer of stamp [k] in [umap.datalayersIndex]. *)
Definition layer_at (w : World) (k : positive) : World :=
  if decide (k = self_id w) then w else others k.

(** The loop of [getPreviousBrowsable], which may go on for ever: [None]
    when [fuel] rounds do not end it, [Some None] for [undefined]. *)
Fixpoint getPreviousBrowsable_loop (fuel : nat) (w : World) (id : Z) :
    option (option positive) :=
  match fuel with
  | O => None
  | S fuel =>
      let index := datalayersIndex w in
      let id := if array_get index (id + 1) is Some _ then (id + 1)%Z
                else 0%Z in
      match array_get index id with
      | None => Some None
      | Some next =>
          if decide (next = self_id w) then Some (Some next)
          else if truthy (canBrowse (others next)) then Some (Some next)
          else getPreviousBrowsable_loop fuel w id
      end
  end.

Definition getPreviousBrowsable (fuel : nat) (w : World) :
    option (option positive) :=
  getPreviousBrowsable_loop fuel w (getRank w).

Fixpoint getNextBrowsable_loop (fuel : nat) (w : World) (id : Z) :
    option (option positive) :=
  match fuel with
  | O => None
  | S fuel =>
      let index := datalayersIndex w in
      let id := if array_get index (id - 1) is Some _ then (id - 1)%Z
                else (Z.of_nat (length index) - 1)%Z in
      match array_get index id with
      | None => Some None
      | Some prev =>
          if decide (prev = self_id w) then Some (Some prev)
          else if truthy (canBrowse (others prev)) then Some (Some prev)
          else getNextBrowsable_loop fuel w id
      end
  end.

Definition getNextBrowsable (fuel : nat) (w : World) :
    option (option positive) :=
  getNextBrowsable_loop fuel w (getRank w).

(** A stamp is a positive number, so [nextId] is falsy only when the
    position is outside of the sequence. *)
Definition getNextFeature (fuel : nat) (feature : Feature) (w : World) :
    option (Completion (option Feature)) :=
  let id := indexOf (_index w) (stamp feature) in
  match array_get (_index w) (id + 1) with
  | Some nextId => Some (Normal (_features w !! nextId))
  | None =>
      match getNextBrowsable fuel w with
      | None => None
      | Some None => Some (Throw (TypeError "getNextBrowsable() is undefined"))
      | Some (Some k) => Some (getFeatureByIndex 0 (layer_at w k)).1
      end
  end.

Definition getPreviousFeature (fuel : nat) (feature : Feature) (w : World) :
    option (Completion Neighbour) :=
  if index_le_1 (_index w) then Some (Normal Neighbour_null) else
  let id := indexOf (_index w) (stamp feature) in
  match array_get (_index w) (id - 1) with
  | Some previousId => Some (Normal (Neighbour_of (_features w !! previousId)))
  | None =>
      match getPreviousBrowsable fuel w with
      | None => None
      | Some None =>
          Some (Throw (TypeError "getPreviousBrowsable() is undefined"))
      | Some (Some k) =>
          match (getFeatureByIndex (-1) (layer_at w k)).1 with
          | Normal feature => Some (Normal (Neighbour_of feature))
          | Throw e => Some (Throw e)
          end
      end
  end.

End Browsing.

(** ** Permissions *)

Inductive PermissionsUrl : Type :=
| map_update_permissions (map_id : JsVal)
| map_attach_owner (map_id : JsVal)
| datalayer_permissions (map_id pk : JsVal).

(** The fields of a form, in the order of [formData.append(name, value)],
    with the values as they are handed over. *)
Definition Entries : Type := list (string * JsVal).

Record PermissionsRequest : Type := {
  p_url : PermissionsUrl;
  p_headers : option Headers;
  p_body : option Entries
}.

(** The own enumerable properties [Object.assign] copies from a source:
    none of [undefined], [null], a boolean or a number, the elements of an
    array and the characters of a string under their positions. *)
Definition own_properties (v : JsVal) : gmap string JsVal :=
  match v with
  | JObj m => m
  | JArr l => list_to_map (imap (λ i x, (pretty i, x)) l)
  | JStr s =>
      list_to_map
        (imap (λ i c, (pretty i, JStr (String c "")))
           (String.list_ascii_of_string s))
  | _ => ∅
  end.

(** Modelled from the spec: [ServerStored] of saving.js is not part of
    this file; [mp_isDirty] is its flag [dirty], which says that the local
    state has unsaved changes, and which [save] only reads.
    [map_permissions], [map_user] and [the_map_id] are
    [umap.properties.permissions], [umap.properties.user] and [umap.id];
    [mp_sent] is what was posted. *)
Record MapPermissions : Type := {
  mp_properties : gmap string JsVal;
  mp_isDirty : bool;
  map_permissions : gmap string JsVal;
  map_user : JsVal;
  the_map_id : JsVal;
  mp_sent : list PermissionsRequest
}.

(** [setProperties(properties)] *)
Definition MapPermissions_setProperties (properties : JsVal) :
    gmap string JsVal :=
  Object_assign
    {[ "owner" := JNull; "team" := JNull; "editors" := JArr [];
       "share_status" := JNull; "edit_status" := JNull ]}
    (own_properties properties).

(** [new MapPermissions(umap)] *)
Definition MapPermissions_new (map_id user : JsVal)
    (permissions : gmap string JsVal) : MapPermissions :=
  {| mp_properties := MapPermissions_setProperties (JObj permissions);
     mp_isDirty := false;
     map_permissions := permissions; map_user := user;
     the_map_id := map_id; mp_sent := [] |}.

Definition MapPermissions_isOwner (p : MapPermissions) : bool :=
  truthy (field (map_user p) "is_owner").

Definition MapPermissions_isAnonymousMap (p : MapPermissions) : bool :=
  negb (truthy (prop (map_permissions p) "owner")).

Definition MapPermissions_getUrl (p : MapPermissions) : PermissionsUrl :=
  map_update_permissions (the_map_id p).

Definition MapPermissions_getAttachUrl (p : MapPermissions) : PermissionsUrl :=
  map_attach_owner (the_map_id p).

Definition MapPermissions_commit (p : MapPermissions) : MapPermissions :=
  {| mp_properties := mp_properties p; mp_isDirty := mp_isDirty p;
     map_permissions :=
       Object_assign (Object_assign ∅ (map_permissions p)) (mp_properties p);
     map_user := map_user p; the_map_id := the_map_id p;
     mp_sent := mp_sent p |}.

Definition MapPermissions_log (r : PermissionsRequest) (p : MapPermissions) :
    MapPermissions :=
  {| mp_properties := mp_properties p; mp_isDirty := mp_isDirty p;
     map_permissions := map_permissions p;
     map_user := map_user p; the_map_id := the_map_id p;
     mp_sent := mp_sent p ++ [r] |}.

(** [u.id] for each editor: reading it of [undefined] or [null] throws. *)
Fixpoint editors_ids (editors : list JsVal) : Completion (list JsVal) :=
  match editors with
  | [] => Normal []
  | u :: editors =>
      match u with
      | JUndefined | JNull =>
          Throw (TypeError "Cannot read properties of undefined")
      | _ =>
          match editors_ids editors with
          | Normal ids => Normal (field u "id" :: ids)
          | Throw e => Throw e
          end
      end
  end.

(** The part of the form that names the editors.  Values hold no
    functions, so [editors.map] can be called on an array only. *)
Definition MapPermissions_editors (p : MapPermissions) : Completion Entries :=
  let editors := prop (mp_properties p) "editors" in
  if negb (MapPermissions_isAnonymousMap p) && truthy editors then
    match editors with
    | JArr l =>
        match editors_ids l with
        | Normal ids => Normal ((λ v, ("editors", v)) <$> ids)
        | Throw e => Throw e
        end
    | _ => Throw (TypeError "this.properties.editors.map is not a function")
    end
  else Normal [].

(** [save()]: [error] says for each request, by the number of those sent
    before, whether [server.post] reports an error. *)
Definition MapPermissions_save (error : nat → PermissionsRequest → bool)
    (p : MapPermissions) : Completion (option bool) * MapPermissions :=
  if negb (mp_isDirty p) then (Normal None, p) else
  match MapPermissions_editors p with
  | Throw e => (Throw e, p)
  | Normal editors =>
      let properties := mp_properties p in
      let formData :=
        editors ++
        (if MapPermissions_isOwner p || MapPermissions_isAnonymousMap p
         then [("edit_status", prop properties "edit_status")] else []) ++
        (if MapPermissions_isOwner p
         then [("owner", field (prop properties "owner") "id");
               ("team", js_or (field (prop properties "team") "id") (JStr ""));
               ("share_status", prop properties "share_status")]
         else []) in
      let request := {| p_url := MapPermissions_getUrl p;
                        p_headers := Some []; p_body := Some formData |} in
      let failed := error (length (mp_sent p)) request in
      let p := MapPermissions_log request p in
      if failed then (Normal None, p)
      else (Normal (Some true), MapPermissions_commit p)
  end.

(** [attach()] *)
Definition MapPermissions_attach (error : nat → PermissionsRequest → bool)
    (p : MapPermissions) : MapPermissions :=
  let request := {| p_url := MapPermissions_getAttachUrl p;
                    p_headers := None; p_body := None |} in
  let failed := error (length (mp_sent p)) request in
  let p := MapPermissions_log request p in
  if failed then p
  else {| mp_properties := <["owner" := map_user p]> (mp_properties p);
          mp_isDirty := mp_isDirty p;
          map_permissions := map_permissions p;
          map_user := map_user p; the_map_id := the_map_id p;
          mp_sent := mp_sent p |}.

(** The permissions of one layer.  [dp_options] is the layer's [options],
    [dp_map_id] is [umap.id]; [dp_isDirty] is the flag of [ServerStored],
    as for the map. *)
Record DataLayerPermissions : Type := {
  dp_properties : gmap string JsVal;
  dp_isDirty : bool;
  dp_options : gmap string JsVal;
  dp_map_id : JsVal;
  dp_sent : list PermissionsRequest
}.

(** [new DataLayerPermissions(umap, datalayer)] *)
Definition DataLayerPermissions_new (map_id : JsVal)
    (options : gmap string JsVal) : DataLayerPermissions :=
  {| dp_properties :=
       Object_assign {[ "edit_status" := JNull ]}
         (own_properties (prop options "permissions"));
     dp_isDirty := false;
     dp_options := options; dp_map_id := map_id; dp_sent := [] |}.

Definition DataLayerPermissions_getUrl (p : DataLayerPermissions) :
    PermissionsUrl :=
  datalayer_permissions (dp_map_id p) (prop (dp_options p) "id").

Definition DataLayerPermissions_commit (p : DataLayerPermissions) :
    DataLayerPermissions :=
  {| dp_properties := dp_properties p; dp_isDirty := dp_isDirty p;
     dp_options :=
       <["permissions" :=
           JObj (Object_assign
                   (Object_assign ∅
                      (own_properties (prop (dp_options p) "permissions")))
                   (dp_properties p))]> (dp_options p);
     dp_map_id := dp_map_id p; dp_sent := dp_sent p |}.

Definition DataLayerPermissions_save
    (error : nat → PermissionsRequest → bool) (p : DataLayerPermissions) :
    option bool * DataLayerPermissions :=
  if negb (dp_isDirty p) then (None, p) else
  let formData := [("edit_status", prop (dp_properties p) "edit_status")] in
  let request := {| p_url := DataLayerPermissions_getUrl p;
                    p_headers := Some []; p_body := Some formData |} in
  let failed := error (length (dp_sent p)) request in
  let p := {| dp_properties := dp_properties p; dp_isDirty := dp_isDirty p;
              dp_options := dp_options p; dp_map_id := dp_map_id p;
              dp_sent := dp_sent p ++ [request] |} in
  if failed then (None, p)
  else (Some true, DataLayerPermissions_commit p).

(** * Views of the methods

    The same steps as functions on the state, and the predicates the
    properties are stated with. *)

(** The part of the state that materialising features writes. *)
Definition with_store (idx : list positive) (fs : gmap positive Feature)
    (pidx : list string) (lid : positive) (al : list JsVal) (w : World) : World :=
  set_alerts al (set_lastId lid (set_propertiesIndex pidx
    (set_features fs (set_index idx w)))).

Definition store_of (w' w : World) : World :=
  with_store (_index w') (_features w') (_propertiesIndex w') (lastId w')
    (alerts w') w.

(** The part of the state that loading a document writes. *)
Definition data_of (w' w : World) : World :=
  set_dataloaded (_dataloaded w')
    (set_geojson_bk (_geojson_bk w')
       (set_geojson (_geojson w') (store_of w' w))).

Definition data_fields : list Field :=
  [F_index; F_features; F_propertiesIndex; F_lastId; F_alerts;
   F_geojson; F_geojson_bk; F_dataloaded].

(** The part of the owning map that connecting writes. *)
Definition registry_of (w' w : World) : World :=
  set_datalayersIndex (datalayersIndex w') (set_datalayers (datalayers w') w).

(** [indexProperty] on the index alone. *)
Definition index_name (index : list string) (name : string) : list string :=
  if String.eqb name "" then index
  else if (String_indexOf name "_" =? 0)%Z then index
  else if includes index name then index
  else Array_sort (index ++ [name]).

(** One round of the loop of [indexProperties]. *)
Definition index_prop (index : list string) (p : string * JsVal) : list string :=
  if String.eqb (typeof p.2) "object" then index else index_name index p.1.


(** The feature [makeFeature] makes of [e] when Leaflet's counter is at
    [last]. *)
Definition made (last : positive) (k : Kind) (e : GeoElem) : Feature :=
  {| leaflet_id := Pos.succ last; kind := k;
     f_geometry_type := geometry_type e; properties := ge_properties e |}.

(** One round of the loop of [makeFeatures]. *)
Definition make_step (w : World) (e : GeoElem) : World :=
  match kind_of_type (geometry_type e) with
  | Some k =>
      let f := made (lastId w) k e in
      with_store (_index w ++ [stamp f]) (<[stamp f := f]> (_features w))
        (foldl index_prop (_propertiesIndex w) (properties f))
        (Pos.succ (lastId w)) (alerts w) w
  | None =>
      set_alerts (alerts w ++ [js_or (geometry_type e) (JStr "undefined")]) w
  end.

(** An element [makeFeature] makes a feature of. *)
Definition known (e : GeoElem) : bool :=
  if kind_of_type (geometry_type e) is Some _ then true else false.

(** The elements [makeFeatures] walks through, in its order. *)
Definition collection_of (env : Env) (c : Collection) : list GeoElem :=
  match c with
  | CFeature e => sortElems env [e]
  | CArray l => sortElems env l
  | CObject (Some l) => sortElems env l
  | CObject None => []
  end.

(** The document as [makeFeatures] leaves it. *)
Definition sorted_in_place (env : Env) (geojson : GeoJSON) : GeoJSON :=
  match payload geojson with
  | CFeature e => geojson
  | CArray l => with_payload geojson (CArray (sortElems env l))
  | CObject (Some l) => with_payload geojson (CObject (Some (sortElems env l)))
  | CObject None => geojson
  end.

(** [clear] *)
Definition cleared (w : World) : World :=
  let w' := set_index [] (set_features ∅ w) in
  match _geojson w with
  | Some _ => set_geojson None (set_geojson_bk (CopyJSON w <$> _geojson w) w')
  | None => w'
  end.

(** [fromGeoJSON] *)
Definition loaded_from (env : Env) (geojson : GeoJSON) (w : World) : World :=
  set_dataloaded true
    (set_geojson (Some (Doc (sorted_in_place env geojson)))
       (foldl make_step w (collection_of env (payload geojson)))).

(** The invariant of the feature index: the order sequence lists the keys
    of the feature map, each once. *)
Definition index_consistent (w : World) : Prop :=
  NoDup (_index w) ∧ dom (_features w) = list_to_set (_index w).

(** Ids in use are not above Leaflet's counter. *)
Definition ids_allocated (w : World) : Prop :=
  ∀ k, k ∈ _index w → (k ≤ lastId w)%positive.

(** Every feature is stored under its own id. *)
Definition features_keyed (w : World) : Prop :=
  ∀ k f, _features w !! k = Some f → stamp f = k.

(** The straight-line steps of a successful save. *)
Definition logged (r : Request) (w : World) : World :=
  set_requests (requests w ++ [r]) w.
Definition options_updated (o : gmap string JsVal) (w : World) : World :=
  set_options (Object_assign (options w) o) w.
Definition version_set (response : HttpResponse) (w : World) : World :=
  set_referenceVersion (headers_get response "X-Datalayer-Version") w.
Definition options_backed_up (w : World) : World :=
  set_backupOptions (options w) w.
Definition data_backed_up (w : World) : World :=
  set_geojson_bk (CopyJSON w <$> _geojson w) w.
Definition connected (w : World) : World :=
  let w := if decide (self_id w ∈ datalayers w) then w
           else set_datalayers ({[self_id w]} ∪ datalayers w) w in
  if includes (datalayersIndex w) (self_id w) then w
  else set_datalayersIndex (datalayersIndex w ++ [self_id w]) w.
Definition reloaded (env : Env) (data : SaveData) (w : World) : World :=
  if d_geojson data is Some geojson
  then loaded_from env geojson (cleared w) else w.

(** Every id of the order sequence has its feature. *)
Definition all_present (w : World) : Prop :=
  Forall (λ idx, is_Some (_features w !! idx)) (_index w).

Global Instance all_present_dec w : Decision (all_present w).
Proof. unfold all_present. apply _. Defined.

(** [resetLayer] when it runs to its end on a layer that is loaded: a
    layer that was visible is visible again. *)
Definition layer_reset (env : Env) (w : World) : World :=
  let type := prop (options w) "type" in
  if negb (truthy type) || same_type type (layer_type w) then w
  else set_layer_type (Class_TYPE env type) w.

(** The steps of a successful save after the options are updated. *)
Definition sealed (response : HttpResponse) (w : World) : World :=
  set_loaded true
    (connected (data_backed_up (options_backed_up (version_set response w)))).

(** The state a successful save leaves a loaded layer in, from the state
    [w] in which the reply arrives. *)
Definition committed (env : Env) (data : SaveData) (response : HttpResponse)
    (w : World) : World :=
  sealed response
    (layer_reset env (options_updated
       (delete "_referenceVersion" (delete "id" (d_fields data)))
       (reloaded env data w))).

Definition committed_fields : list Field :=
  [F_loaded; F_datalayers; F_datalayersIndex; F_geojson_bk; F_backupOptions;
   F_referenceVersion; F_layer_type; F_options] ++ data_fields.

(** The fields a load can write besides the request log and the
    in-flight flag. *)
Definition content_fields : list Field :=
  [F_index; F_features; F_propertiesIndex; F_geojson; F_geojson_bk;
   F_options; F_backupOptions; F_referenceVersion; F_loaded; F_dataloaded;
   F_visible; F_layer_type; F_lastId; F_alerts].

(** Every field a method can write but the request log and the in-flight
    flag. *)
Definition quiet_fields : list Field :=
  [F_isDeleted; F_isDirty; F_datalayers; F_datalayersIndex; F_conflicts;
   F_saveAllCalls] ++ content_fields.

(** [m] takes every state to one that [R] relates to it. *)
Definition respects (R : relation World) {A} (m : M A) : Prop :=
  ∀ w, R w (m w).2.

(** The request log only grows. *)
Definition log_grows (w w' : World) : Prop :=
  requests w `prefix_of` requests w'.

(** What [save] submits for a layer in state [w] whose document is [doc]. *)
Definition saveURL (w : World) : Url :=
  datalayer_save (umap_id w) (id w) (createdOnServer w).
Definition save_headers (w : World) : Headers :=
  match _referenceVersion w with
  | Some v => if truthy (JStr v) then [("X-Datalayer-Reference", v)] else []
  | None => []
  end.
Definition save_formData (w : World) (doc : LayerDoc) : FormData :=
  {| fd_name := prop (options w) "name";
     fd_display_on_load := truthy (prop (options w) "displayOnLoad");
     fd_rank := getRank w;
     fd_settings := options w;
     fd_geojson := CopyJSON w doc |}.

(** The address [fetchRemoteData] asks. *)
Definition remote_url (env : Env) (w : World) : string :=
  let url := renderUrl env (field (remoteData w) "url") in
  if truthy (field (remoteData w) "proxy")
  then proxyUrl env url (field (remoteData w) "ttl") else url.

(** When [fetchRemoteData] returns before asking: the layer mirrors no
    remote source, or is hidden, or its source is static and already loaded
    and the fetch is not forced. *)
Definition remote_fetch_skipped (force : JsVal) (w : World) : Prop :=
  isRemoteLayer w = false ∨ isVisible w = false ∨
  (truthy (field (remoteData w) "dynamic") = false ∧
   hasDataLoaded w = true ∧ truthy force = false).

Global Instance remote_fetch_skipped_dec force w :
  Decision (remote_fetch_skipped force w).
Proof. unfold remote_fetch_skipped. apply _. Defined.

(** ** Calls on a layer *)

(** The methods of the layer that other code calls. *)
Inductive Call : Type :=
| Call_save
| Call_fetchData
| Call_fetchRemoteData (force : JsVal)
| Call_show
| Call_hide
| Call_toggle
| Call_redraw
| Call_addFeature (feature : Feature)
| Call_removeFeature (feature : Feature)
| Call_reindex
| Call_clear
| Call_empty
| Call_delete
| Call_reset
| Call_indexProperty (name : string)
| Call_deindexProperty (name : string)
| Call_fromGeoJSON (geojson : GeoJSON)
| Call_retry (action : Retry).

Definition perform (env : Env) (c : Call) : M unit :=
  match c with
  | Call_save => _ <- save env ;; ret tt
  | Call_fetchData => fetchData env
  | Call_fetchRemoteData force => fetchRemoteData env force
  | Call_show => show env
  | Call_hide => hide
  | Call_toggle => toggle env
  | Call_redraw => redraw env
  | Call_addFeature feature => addFeature feature
  | Call_removeFeature feature => removeFeature feature
  | Call_reindex => reindex env
  | Call_clear => clear
  | Call_empty => empty env
  | Call_delete => _delete env
  | Call_reset => reset env
  | Call_indexProperty name => indexProperty name
  | Call_deindexProperty name => deindexProperty name
  | Call_fromGeoJSON geojson => _ <- fromGeoJSON env geojson true ;; ret tt
  | Call_retry action => retry env action
  end.

(** A history: calls, each answered by the collaborators of its time. *)
Definition perform_all (calls : list (Env * Call)) (w : World) : World :=
  foldl (λ w '(env, c), (perform env c w).2) w calls.

(** The requests that read the layer from the server. *)
Definition is_load (r : Request) : bool :=
  if r is ServerGet _ then true else false.
Definition loads (rs : list Request) : list Request := filter is_load rs.

(** A set in-flight flag stays set, and the layer is not read from the
    server. *)
Definition still_loading (w w' : World) : Prop :=
  _loading w = true →
  _loading w' = true ∧ loads (requests w') = loads (requests w).

(** [m1] and [m2] do the same from every state with the in-flight flag
    set. *)
Definition agree {A} (m1 m2 : M A) : Prop :=
  ∀ w, _loading w = true → m1 w = m2 w.

(** ** Sample layers and servers *)

Definition feature_A : Feature :=
  {| leaflet_id := 1; kind := Point; f_geometry_type := JStr "Point";
     properties := [("name", JStr "A"); ("geo", JObj {[ "x" := JNum 1 ]});
                    ("_internal", JNum 2)] |}.

Definition feature_B : Feature :=
  {| leaflet_id := 2; kind := LineString; f_geometry_type := JStr "LineString";
     properties := [("name", JStr "B")] |}.

Definition feature_C : Feature :=
  {| leaflet_id := 3; kind := Polygon; f_geometry_type := JStr "Polygon";
     properties := [("", JNum 1)] |}.

Definition sample_options : gmap string JsVal :=
  {[ "id" := JStr "layer-1"; "name" := JStr "Cafes";
     "displayOnLoad" := JBool true; "editMode" := JStr "advanced";
     "remoteData" := JObj ∅ ]}.

(** A layer just created in the editor: never saved, nothing loaded. *)
Definition new_layer : World :=
  {| self_id := 10; _index := []; _features := ∅; _propertiesIndex := [];
     _geojson := None; _geojson_bk := None;
     options := sample_options; _backupOptions := sample_options;
     _referenceVersion := None;
     _loaded := false; _dataloaded := false; _loading := false;
     _isDeleted := false; isDirty := true; visible := true;
     layer_type := "Default";
     umap_id := JNum 7; hasEditMode := true;
     datalayers := {[ 10%positive ]}; datalayersIndex := [10%positive];
     lastId := 10; requests := []; conflicts := []; alerts := [];
     saveAllCalls := 0 |}.

(** A layer known to the server at version v1, loaded, with two features
    and unsaved changes. *)
Definition synced_layer : World :=
  set_index [1; 2]%positive
    (set_features {[ 1%positive := feature_A; 2%positive := feature_B ]}
       (set_propertiesIndex ["name"]
          (set_referenceVersion (Some "v1")
             (set_loaded true (set_dataloaded true new_layer))))).

(** The same layer before its data was fetched. *)
Definition unloaded_layer : World :=
  set_isDirty false (set_referenceVersion (Some "v1") new_layer).


(** A visible layer that mirrors a static remote file and shows one
    feature. *)
Definition remote_layer : World :=
  set_options
    (<[ "remoteData" :=
          JObj {[ "url" := JStr "https://example.org/cafes.csv";
                  "format" := JStr "csv" ]} ]> sample_options)
    (set_index [1%positive] (set_features {[ 1%positive := feature_A ]}
       (set_referenceVersion (Some "v1") (set_loaded true new_layer)))).

Definition version_response (v : string) : HttpResponse :=
  {| status := 200; headers := {[ "X-Datalayer-Version" := v ]} |}.


Definition two_elements : GeoJSON :=
  {| payload := CObject (Some
       [ {| geometry_type := JStr "Circle"; ge_properties := [] |};
         {| geometry_type := JStr "Point";
            ge_properties := [("name", JStr "Z")] |} ]);
     _umap_options := None; _storage := None |}.

(** A server that accepts every save and answers version v2; the data
    endpoint and the remote host are down. *)
Definition accepting : Env :=
  {| server_get := λ _ _, ReplyError None;
     server_post := λ _ _ _ _,
       ReplyOk {| d_geojson := None; d_fields := ∅ |} (version_response "v2");
     request_get := λ _ _, None;
     formatter_parse := λ _ _, None;
     renderUrl := λ v, if v is JStr s then s else "";
     proxyUrl := λ url _, url;
     sortElems := λ l, l;
     sortFeatures := λ l, l;
     LAYER_TYPES := ["Default"; "Cluster"; "Heat"; "Choropleth";
                     "Categorized"; "Circles"];
     DefaultLayer_TYPE := "Default" |}.


(** A server that merged a concurrent edit and sends the result back. *)
Definition merging : Env :=
  {| server_get := server_get accepting;
     server_post := λ _ _ _ _,
       ReplyOk {| d_geojson := Some two_elements; d_fields := ∅ |}
         (version_response "v2");
     request_get := request_get accepting;
     formatter_parse := formatter_parse accepting;
     renderUrl := renderUrl accepting; proxyUrl := proxyUrl accepting;
     sortElems := sortElems accepting;
     sortFeatures := sortFeatures accepting;
     LAYER_TYPES := LAYER_TYPES accepting;
     DefaultLayer_TYPE := DefaultLayer_TYPE accepting |}.

(** A remote host that answers 200 with a body; [parses] says whether the
    parser accepts it. *)
Definition remote_host (parses : bool) : Env :=
  {| server_get := server_get accepting;
     server_post := server_post accepting;
     request_get := λ _ _, Some {| ok := true; text := "name;lat;lon" |};
     formatter_parse := λ _ _, if parses then Some two_elements else None;
     renderUrl := renderUrl accepting; proxyUrl := proxyUrl accepting;
     sortElems := sortElems accepting;
     sortFeatures := sortFeatures accepting;
     LAYER_TYPES := LAYER_TYPES accepting;
     DefaultLayer_TYPE := DefaultLayer_TYPE accepting |}.

(** A server whose data endpoint answers at version v3 with one element
    and options that ask for clusters. *)
Definition served : GeoJSON :=
  {| payload := CObject (Some
       [ {| geometry_type := JStr "Point";
            ge_properties := [("name", JStr "Z")] |} ]);
     _umap_options := Some {[ "name" := JStr "Cafes";
                              "type" := JStr "Cluster" ]};
     _storage := None |}.

Definition serving : Env :=
  {| server_get := λ _ _, ReplyOk served (version_response "v3");
     server_post := server_post accepting;
     request_get := request_get accepting;
     formatter_parse := formatter_parse accepting;
     renderUrl := renderUrl accepting; proxyUrl := proxyUrl accepting;
     sortElems := sortElems accepting;
     sortFeatures := sortFeatures accepting;
     LAYER_TYPES := LAYER_TYPES accepting;
     DefaultLayer_TYPE := DefaultLayer_TYPE accepting |}.

(** A server that accepts every save and sends back options that ask for
    clusters. *)
Definition retyping : Env :=
  {| server_get := server_get accepting;
     server_post := λ _ _ _ _,
       ReplyOk {| d_geojson := None;
                  d_fields := {[ "type" := JStr "Cluster" ]} |}
         (version_response "v2");
     request_get := request_get accepting;
     formatter_parse := formatter_parse accepting;
     renderUrl := renderUrl accepting; proxyUrl := proxyUrl accepting;
     sortElems := sortElems accepting;
     sortFeatures := sortFeatures accepting;
     LAYER_TYPES := LAYER_TYPES accepting;
     DefaultLayer_TYPE := DefaultLayer_TYPE accepting |}.

(** The remote layer after its feature was added a second time and then
    removed: the order sequence still names it. *)
Definition dangling_layer : World :=
  (removeFeature feature_A (addFeature feature_A remote_layer).2).2.



(** * Views for the further properties *)

(** [erase] *)
Definition erased (w : World) : World :=
  let w := set_visible false w in
  let w := set_datalayersIndex (splice (getRank w) 1 (datalayersIndex w)) w in
  set_dataloaded false (set_loaded false (cleared w)).



(** The document [reset] loads the features from: the one the layer
    holds, or else the data backup. *)
Definition reset_document (w : World) : option GeoJSON :=
  match _geojson w with
  | Some doc => Some (CopyJSON w doc)
  | None => _geojson_bk w
  end.


(** ** Browsing *)

(** No layer of the map's order other than [w] can be browsed. *)
Definition none_else_browsable (browsable : string → JsVal)
    (others : positive → World) (w : World) : Prop :=
  ∀ k, k ∈ datalayersIndex w → k ≠ self_id w →
       truthy (canBrowse browsable (others k)) = false.

(** What the two searches for a layer to browse end with: a layer of the
    order that is [w] itself or can be browsed. *)
Definition browsable_from (browsable : string → JsVal)
    (others : positive → World) (w : World) (k : positive) : Prop :=
  k ∈ datalayersIndex w ∧
  (k = self_id w ∨ truthy (canBrowse browsable (others k)) = true).

(** ** More sample layers and servers *)

(** A server whose data endpoint answers with a document that has no
    options. *)
Definition bare_server : Env :=
  {| server_get := λ _ _, ReplyOk two_elements (version_response "v3");
     server_post := server_post accepting;
     request_get := request_get accepting;
     formatter_parse := formatter_parse accepting;
     renderUrl := renderUrl accepting; proxyUrl := proxyUrl accepting;
     sortElems := sortElems accepting;
     sortFeatures := sortFeatures accepting;
     LAYER_TYPES := LAYER_TYPES accepting;
     DefaultLayer_TYPE := DefaultLayer_TYPE accepting |}.

(** The synced layer on a map whose order of layers does not list it. *)
Definition unregistered_layer : World :=
  set_datalayersIndex [11; 12]%positive synced_layer.

(** The synced layer between two others in the order of layers. *)
Definition middle_layer : World :=
  set_datalayersIndex [11; 10; 12]%positive synced_layer.

(** The synced layer after its first feature was added a second time and
    then removed: the order sequence still names it. *)
Definition dangling_own_layer : World :=
  (removeFeature feature_A (addFeature feature_A synced_layer).2).2.

Definition with_self_id (k : positive) (w : World) : World :=
  {| self_id := k; _index := _index w; _features := _features w;
     _propertiesIndex := _propertiesIndex w;
     _geojson := _geojson w; _geojson_bk := _geojson_bk w;
     options := options w; _backupOptions := _backupOptions w;
     _referenceVersion := _referenceVersion w;
     _loaded := _loaded w; _dataloaded := _dataloaded w;
     _loading := _loading w; _isDeleted := _isDeleted w;
     isDirty := isDirty w; visible := visible w;
     layer_type := layer_type w;
     umap_id := umap_id w; hasEditMode := hasEditMode w;
     datalayers := datalayers w; datalayersIndex := datalayersIndex w;
     lastId := lastId w; requests := requests w; conflicts := conflicts w;
     alerts := alerts w; saveAllCalls := saveAllCalls w |}.

(** Every rendering but the heat map can be browsed. *)
Definition browsable_types (t : string) : JsVal :=
  JBool (negb (String.eqb t "Heat")).

(** Other layers of the map: empty ones, and layer 11 with two features,
    which its options allow to browse. *)
Definition idle_layers (k : positive) : World := with_self_id k new_layer.

Definition browsable_layer : World :=
  with_self_id 11
    (set_options (<["browsable" := JBool true]> sample_options) synced_layer).

Definition three_layers (k : positive) : World :=
  if decide (k = 11%positive) then browsable_layer else idle_layers k.

(** ** Sample permissions *)

Definition sample_user : JsVal :=
  JObj {[ "id" := JNum 3; "is_owner" := JBool false ]}.

(** A server that accepts every request. *)
Definition accepted : nat → PermissionsRequest → bool := λ _ _, false.

(** Edited permissions of a map without owner. *)
Definition anonymous_permissions : MapPermissions :=
  {| mp_properties :=
       <["edit_status" := JNum 1]> (MapPermissions_setProperties (JObj ∅));
     mp_isDirty := true; map_permissions := ∅;
     map_user := sample_user; the_map_id := JNum 7; mp_sent := [] |}.

(** Permissions of a map with an owner, edited by another user, who added
    a second editor. *)
Definition owned_map_permissions : gmap string JsVal :=
  {[ "owner" := JObj {[ "id" := JNum 1 ]};
     "editors" := JArr [JObj {[ "id" := JNum 3 ]}] ]}.

Definition editor_permissions : MapPermissions :=
  {| mp_properties :=
       <["editors" := JArr [JObj {[ "id" := JNum 3 ]};
                            JObj {[ "id" := JNum 4 ]}]]>
         (MapPermissions_setProperties (JObj owned_map_permissions));
     mp_isDirty := true; map_permissions := owned_map_permissions;
     map_user := sample_user; the_map_id := JNum 7; mp_sent := [] |}.

(** Edited permissions of a layer. *)
Definition layer_permissions : DataLayerPermissions :=
  {| dp_properties :=
       <["edit_status" := JNum 2]>
         (dp_properties (DataLayerPermissions_new (JNum 7) sample_options));
     dp_isDirty := true; dp_options := sample_options;
     dp_map_id := JNum 7; dp_sent := [] |}.

(** * Proofs *)

(** ** Tactics *)

Ltac wsimpl :=
  cbn [self_id _index _features _propertiesIndex _geojson _geojson_bk
       options _backupOptions _referenceVersion _loaded _dataloaded _loading
       _isDeleted isDirty visible layer_type umap_id hasEditMode datalayers
       datalayersIndex lastId requests conflicts alerts saveAllCalls
       set_index set_features set_propertiesIndex set_geojson set_geojson_bk
       set_options set_backupOptions set_referenceVersion set_loaded
       set_dataloaded set_loading set_isDeleted set_isDirty set_visible
       set_layer_type        set_datalayers set_datalayersIndex set_lastId set_requests
       set_conflicts set_alerts set_saveAllCalls fst snd negb andb orb].
Ltac mred :=
  cbv beta iota zeta delta [bind get ret put throw detached]; wsimpl.

(** ** Running the feature index *)

Lemma store_of_refl w : store_of w w = w.
Proof. destruct w; reflexivity. Qed.

Lemma store_of_trans w1 w2 w : store_of w2 (store_of w1 w) = store_of w2 w.
Proof. reflexivity. Qed.

Lemma indexProperty_run name w :
  indexProperty name w =
  (Normal tt, set_propertiesIndex (index_name (_propertiesIndex w) name) w).
Proof.
  unfold indexProperty, index_name.
  assert (E : set_propertiesIndex (_propertiesIndex w) w = w) by (destruct w; reflexivity).
  destruct (String.eqb name ""); [by rewrite E|].
  destruct (_ =? _)%Z; [by rewrite E|]. mred.
  destruct (includes _ _); [by rewrite E|]. reflexivity.
Qed.

Lemma for_each_indexProperty ps w :
  for_each ps (λ '(i, v),
    if String.eqb (typeof v) "object" then ret tt else indexProperty i) w =
  (Normal tt, set_propertiesIndex (foldl index_prop (_propertiesIndex w) ps) w).
Proof.
  revert w. induction ps as [|[i v] ps IH]; intros w.
  - cbn. destruct w; reflexivity.
  - cbn [for_each foldl]. unfold bind at 1, index_prop at 2. cbn [fst snd].
    destruct (String.eqb (typeof v) "object").
    + cbn. apply IH.
    + rewrite indexProperty_run, IH. reflexivity.
Qed.

Lemma indexProperties_run feature w :
  indexProperties feature w =
  (Normal tt, set_propertiesIndex
     (foldl index_prop (_propertiesIndex w) (properties feature)) w).
Proof. apply for_each_indexProperty. Qed.

Lemma addFeature_run feature w :
  addFeature feature w =
  (Normal tt,
   set_propertiesIndex
     (foldl index_prop (_propertiesIndex w) (properties feature))
     (set_features (<[stamp feature := feature]> (_features w))
        (set_index (_index w ++ [stamp feature]) w))).
Proof.
  unfold addFeature. mred. rewrite indexProperties_run. reflexivity.
Qed.

Section Materialise.
Context (env : Env).

Lemma makeFeature_run e sync w :
  (makeFeature e sync w).2 = make_step w e ∧
  ∃ r, (makeFeature e sync w).1 = Normal r.
Proof.
  unfold makeFeature, make_step.
  destruct (kind_of_type _) as [k|].
  - unfold new_Feature. mred. rewrite addFeature_run. cbn. split; [|eauto].
    destruct w; reflexivity.
  - unfold Alert_error. mred. eauto.
Qed.

Lemma for_each_makeFeature elems sync w :
  for_each elems (λ feature, _ <- makeFeature feature sync ;; ret tt) w =
  (Normal tt, foldl make_step w elems).
Proof.
  revert w. induction elems as [|e elems IH]; intros w; [reflexivity|].
  cbn [for_each foldl]. unfold bind at 1. unfold bind at 1.
  destruct (makeFeature_run e sync w) as [E [r Hr]].
  destruct (makeFeature e sync w) as [c w']. cbn in E, Hr. subst.
  mred. apply IH.
Qed.

Lemma make_step_store w e : store_of (make_step w e) w = make_step w e.
Proof.
  unfold make_step. destruct (kind_of_type _); destruct w; reflexivity.
Qed.

Lemma foldl_make_step_store elems w :
  store_of (foldl make_step w elems) w = foldl make_step w elems.
Proof.
  revert w. induction elems as [|e elems IH]; intros w; cbn [foldl].
  - apply store_of_refl.
  - rewrite <- (IH (make_step w e)) at 2.
    rewrite <- (make_step_store w e) at 3. reflexivity.
Qed.

End Materialise.

Section Loading.
Context (env : Env).

Lemma makeFeatures_run geojson sync w :
  makeFeatures env geojson sync w =
  (Normal (sorted_in_place env geojson),
   foldl make_step w (collection_of env (payload geojson))).
Proof.
  unfold makeFeatures, sorted_in_place, collection_of.
  destruct (payload geojson) as [e|l|[l|]]; cbv zeta;
    try (unfold bind at 1; rewrite for_each_makeFeature); reflexivity.
Qed.

Lemma addData_run geojson sync w :
  addData env geojson sync w =
  (Normal (sorted_in_place env geojson),
   foldl make_step w (collection_of env (payload geojson))).
Proof. unfold addData. rewrite makeFeatures_run. reflexivity. Qed.

Lemma fromGeoJSON_run geojson sync w :
  fromGeoJSON env geojson sync w =
  (Normal (sorted_in_place env geojson), loaded_from env geojson w).
Proof.
  unfold fromGeoJSON, onDataLoaded, renderLegend, dataChanged. mred.
  rewrite addData_run. reflexivity.
Qed.

Lemma clear_run w : clear w = (Normal tt, cleared w).
Proof.
  unfold clear, cleared, backupData, dataChanged. mred.
  destruct (_geojson w) as [[g|fs]|] eqn:E; mred; rewrite ?E; reflexivity.
Qed.

End Loading.

Section Exporting.

Lemma eachFeature_toGeoJSON_insert fs k f index w :
  k ∉ index →
  eachFeature_toGeoJSON (<[k := f]> fs) index w =
  eachFeature_toGeoJSON fs index w.
Proof.
  induction index as [|i index IH] in w |- *; intros Hk; [reflexivity|].
  cbn [eachFeature_toGeoJSON].
  rewrite lookup_insert_ne by set_solver.
  destruct (fs !! i); [|reflexivity].
  unfold bind. rewrite IH by set_solver. reflexivity.
Qed.

Lemma eachFeature_toGeoJSON_snoc fs k f index l w :
  fs !! k = Some f →
  eachFeature_toGeoJSON fs index w = (Normal l, w) →
  eachFeature_toGeoJSON fs (index ++ [k]) w = (Normal (l ++ [toGeoJSON f]), w).
Proof.
  intros Hk. induction index as [|i index IH] in l |- *; cbn [eachFeature_toGeoJSON app].
  - intros [= <-]. rewrite Hk. reflexivity.
  - destruct (fs !! i) as [fi|]; [|discriminate].
    unfold bind, ret.
    destruct (eachFeature_toGeoJSON fs index w) as [[l'|e] w'] eqn:E; [|discriminate].
    intros [= <- ->]. rewrite (IH l' eq_refl). reflexivity.
Qed.

Lemma toGeoJSON_made last k e : toGeoJSON (made last k e) = e.
Proof. destruct e; reflexivity. Qed.

Lemma make_step_export w e l w0 :
  ids_allocated w → index_consistent w →
  eachFeature_toGeoJSON (_features w) (_index w) w0 = (Normal l, w0) →
  ids_allocated (make_step w e) ∧ index_consistent (make_step w e) ∧
  eachFeature_toGeoJSON (_features (make_step w e)) (_index (make_step w e)) w0
  = (Normal (l ++ filter known [e]), w0).
Proof.
  intros Ha [Hnd Hdom] Hl. unfold make_step, known.
  cbn [filter list_filter].
  destruct (kind_of_type (geometry_type e)) as [k|] eqn:Ek.
  - cbn [stamp made leaflet_id].
    unfold with_store, ids_allocated, index_consistent. wsimpl.
    assert (Hfresh : Pos.succ (lastId w) ∉ _index w).
    { intros Hin. apply Ha in Hin. lia. }
    split; [|split; [split|]].
    + intros i [Hi | ->%list_elem_of_singleton]%elem_of_app.
      * apply Ha in Hi. lia.
      * lia.
    + apply NoDup_app. split; [done|]. split; [|apply NoDup_singleton].
      intros x Hx ->%list_elem_of_singleton. done.
    + rewrite dom_insert_L, Hdom, list_to_set_app_L. cbn. set_solver.
    + rewrite decide_True by done.
      erewrite eachFeature_toGeoJSON_snoc;
        [| apply lookup_insert_eq | rewrite eachFeature_toGeoJSON_insert by done; exact Hl].
      cbn [properties f_geometry_type toGeoJSON made]. by destruct e.
  - wsimpl. rewrite decide_False by (intros []). rewrite app_nil_r. done.
Qed.

Lemma foldl_make_step_export elems w l w0 :
  ids_allocated w → index_consistent w →
  eachFeature_toGeoJSON (_features w) (_index w) w0 = (Normal l, w0) →
  let w' := foldl make_step w elems in
  ids_allocated w' ∧ index_consistent w' ∧
  eachFeature_toGeoJSON (_features w') (_index w') w0
  = (Normal (l ++ filter known elems), w0).
Proof.
  induction elems as [|e elems IH] in w, l |- *; intros Ha Hc Hl; cbn [foldl].
  - rewrite app_nil_r. done.
  - destruct (make_step_export w e l w0 Ha Hc Hl) as (Ha' & Hc' & Hl').
    destruct (IH _ _ Ha' Hc' Hl') as (? & ? & E). split_and!; [done..|].
    rewrite E, <- app_assoc. change (e :: elems) with ([e] ++ elems).
    rewrite filter_app. reflexivity.
Qed.

End Exporting.

(** ** Strings and the property index *)

Lemma ascii_compare_spec (x y : Ascii.ascii) :
  CompareSpec (x = y) (Ascii.N_of_ascii x < Ascii.N_of_ascii y)%N
    (Ascii.N_of_ascii y < Ascii.N_of_ascii x)%N (Ascii.compare x y).
Proof.
  unfold Ascii.compare.
  destruct (N.compare_spec (Ascii.N_of_ascii x) (Ascii.N_of_ascii y)) as [E| |];
    constructor; try done.
  rewrite <- (Ascii.ascii_N_embedding x), <- (Ascii.ascii_N_embedding y).
  by rewrite E.
Qed.

Lemma string_compare_refl a : String.compare a a = Eq.
Proof.
  induction a as [|x a IH]; cbn; [done|].
  destruct (ascii_compare_spec x x); [done|lia..].
Qed.

Lemma string_compare_trans_le a b c :
  String.compare a b ≠ Gt → String.compare b c ≠ Gt → String.compare a c ≠ Gt.
Proof.
  revert b c. induction a as [|x a IH]; intros [|y b] [|z c]; cbn; try done.
  destruct (ascii_compare_spec x y) as [->| |]; [| |done].
  - destruct (ascii_compare_spec y z) as [->| |]; [|done..]. apply IH.
  - destruct (ascii_compare_spec y z) as [->| |]; [| |done]; intros _ _.
    + destruct (ascii_compare_spec x z) as [->| |]; [lia|done|lia].
    + destruct (ascii_compare_spec x z) as [->| |]; [lia|done|lia].
Qed.

Global Instance str_le_trans : Transitive str_le.
Proof.
  intros a b c. unfold str_le, String.leb. intros Hab Hbc.
  pose proof (string_compare_trans_le a b c).
  destruct (String.compare a b), (String.compare b c), (String.compare a c);
    try done; exfalso; apply H; done.
Qed.

Global Instance str_le_total : Total str_le.
Proof. intros a b. apply String.leb_total. Qed.

Lemma Array_sort_perm arr : Array_sort arr ≡ₚ arr.
Proof. apply merge_sort_Permutation. Qed.

Lemma Array_sort_sorted arr : StronglySorted str_le (Array_sort arr).
Proof. apply StronglySorted_merge_sort; apply _. Qed.








(** ** Running a step *)

Lemma bind_run {A B} (m : M A) (k : A → M B) w a w' :
  m w = (Normal a, w') → bind m k w = k a w'.
Proof. unfold bind. by intros ->. Qed.

Lemma bind_throw {A B} (m : M A) (k : A → M B) w e w' :
  m w = (Throw e, w') → bind m k w = (Throw e, w').
Proof. unfold bind. by intros ->. Qed.

Lemma loaded_from_store env geojson w :
  loaded_from env geojson w =
  set_dataloaded true
    (set_geojson (Some (Doc (sorted_in_place env geojson)))
       (store_of (foldl make_step w (collection_of env (payload geojson))) w)).
Proof. unfold loaded_from. by rewrite foldl_make_step_store. Qed.

Lemma eachFeature_toGeoJSON_state fs index w :
  (eachFeature_toGeoJSON fs index w).2 = w.
Proof.
  induction index as [|i index IH]; cbn; [done|].
  destruct (fs !! i); [|done]. unfold bind.
  destruct (eachFeature_toGeoJSON fs index w) as [[l|e] w']; cbn in *; done.
Qed.

Lemma featuresToGeoJSON_state w : (featuresToGeoJSON w).2 = w.
Proof. unfold featuresToGeoJSON. mred. apply eachFeature_toGeoJSON_state. Qed.
(** ** Frames *)

Lemma data_of_refl w : data_of w w = w.
Proof. by destruct w. Qed.

Lemma cleared_frame w : cleared w = data_of (cleared w) w.
Proof. unfold cleared. destruct (_geojson w) eqn:E; destruct w; cbn in *; by subst. Qed.

Lemma loaded_from_frame env geojson w :
  loaded_from env geojson w = data_of (loaded_from env geojson w) w.
Proof.
  rewrite loaded_from_store.
  generalize (foldl make_step w (collection_of env (payload geojson))).
  intros w'. by destruct w.
Qed.

Lemma connected_frame w : connected w = registry_of (connected w) w.
Proof.
  unfold connected. cbv zeta.
  destruct (decide _); destruct (includes _ _); by destruct w.
Qed.

Lemma reloaded_frame env data w :
  reloaded env data w = data_of (reloaded env data w) w.
Proof.
  unfold reloaded. destruct (d_geojson data) as [g|]; [|by rewrite data_of_refl].
  rewrite loaded_from_frame at 1. rewrite cleared_frame at 2. by destruct w.
Qed.

Lemma frame_refl S w : frame S w w.
Proof. by intros f _. Qed.

Lemma frame_trans S1 S2 w1 w2 w3 :
  frame S1 w1 w2 → frame S2 w2 w3 → frame (S2 ++ S1) w1 w3.
Proof.
  intros H1 H2 f Hf. rewrite H2, H1; [done|..];
    intros ?; apply Hf, elem_of_app; auto.
Qed.

Lemma frame_weaken S S' w w' : S ⊆ S' → frame S w w' → frame S' w w'.
Proof. intros HS H f Hf. apply H. intros ?. by apply Hf, HS. Qed.

Section FrameFields.
Context (S : list Field) (w w' : World) (H : frame S w w').

Lemma frame_self_id : F_self_id ∉ S → self_id w' = self_id w.
Proof. apply (H F_self_id). Qed.
Lemma frame_index : F_index ∉ S → _index w' = _index w.
Proof. apply (H F_index). Qed.
Lemma frame_features : F_features ∉ S → _features w' = _features w.
Proof. apply (H F_features). Qed.
Lemma frame_propertiesIndex : F_propertiesIndex ∉ S → _propertiesIndex w' = _propertiesIndex w.
Proof. apply (H F_propertiesIndex). Qed.
Lemma frame_options : F_options ∉ S → options w' = options w.
Proof. apply (H F_options). Qed.
Lemma frame_dataloaded : F_dataloaded ∉ S → _dataloaded w' = _dataloaded w.
Proof. apply (H F_dataloaded). Qed.
Lemma frame_loading : F_loading ∉ S → _loading w' = _loading w.
Proof. apply (H F_loading). Qed.
Lemma frame_layer_type : F_layer_type ∉ S → layer_type w' = layer_type w.
Proof. apply (H F_layer_type). Qed.
Lemma frame_hasEditMode : F_hasEditMode ∉ S → hasEditMode w' = hasEditMode w.
Proof. apply (H F_hasEditMode). Qed.
Lemma frame_datalayersIndex : F_datalayersIndex ∉ S → datalayersIndex w' = datalayersIndex w.
Proof. apply (H F_datalayersIndex). Qed.
Lemma frame_requests : F_requests ∉ S → requests w' = requests w.
Proof. apply (H F_requests). Qed.
Lemma frame_conflicts : F_conflicts ∉ S → conflicts w' = conflicts w.
Proof. apply (H F_conflicts). Qed.
Lemma frame_alerts : F_alerts ∉ S → alerts w' = alerts w.
Proof. apply (H F_alerts). Qed.

End FrameFields.

(** [frame S w e] for [e] built from field updates of the variable [w]. *)
Ltac solve_frame :=
  let f := fresh "f" in let Hf := fresh "Hf" in
  intros f Hf; destruct f; try reflexivity;
  exfalso; apply Hf; repeat first [ apply list_elem_of_here | apply list_elem_of_further ].

Ltac not_in_frame := apply (bool_decide_unpack _); vm_compute; exact I.

(** Read a field through a frame. *)
Ltac through lem H := rewrite (lem _ _ _ H ltac:(not_in_frame)).

Lemma set_index_fr v w : frame [F_index] w (set_index v w).
Proof. solve_frame. Qed.
Lemma set_features_fr v w : frame [F_features] w (set_features v w).
Proof. solve_frame. Qed.
Lemma set_propertiesIndex_fr v w : frame [F_propertiesIndex] w (set_propertiesIndex v w).
Proof. solve_frame. Qed.
Lemma set_geojson_fr v w : frame [F_geojson] w (set_geojson v w).
Proof. solve_frame. Qed.
Lemma set_geojson_bk_fr v w : frame [F_geojson_bk] w (set_geojson_bk v w).
Proof. solve_frame. Qed.
Lemma set_options_fr v w : frame [F_options] w (set_options v w).
Proof. solve_frame. Qed.
Lemma set_backupOptions_fr v w : frame [F_backupOptions] w (set_backupOptions v w).
Proof. solve_frame. Qed.
Lemma set_referenceVersion_fr v w : frame [F_referenceVersion] w (set_referenceVersion v w).
Proof. solve_frame. Qed.
Lemma set_loaded_fr v w : frame [F_loaded] w (set_loaded v w).
Proof. solve_frame. Qed.
Lemma set_dataloaded_fr v w : frame [F_dataloaded] w (set_dataloaded v w).
Proof. solve_frame. Qed.
Lemma set_loading_fr v w : frame [F_loading] w (set_loading v w).
Proof. solve_frame. Qed.
Lemma set_isDeleted_fr v w : frame [F_isDeleted] w (set_isDeleted v w).
Proof. solve_frame. Qed.
Lemma set_isDirty_fr v w : frame [F_isDirty] w (set_isDirty v w).
Proof. solve_frame. Qed.
Lemma set_visible_fr v w : frame [F_visible] w (set_visible v w).
Proof. solve_frame. Qed.
Lemma set_layer_type_fr v w : frame [F_layer_type] w (set_layer_type v w).
Proof. solve_frame. Qed.
Lemma set_datalayers_fr v w : frame [F_datalayers] w (set_datalayers v w).
Proof. solve_frame. Qed.
Lemma set_datalayersIndex_fr v w : frame [F_datalayersIndex] w (set_datalayersIndex v w).
Proof. solve_frame. Qed.
Lemma set_lastId_fr v w : frame [F_lastId] w (set_lastId v w).
Proof. solve_frame. Qed.
Lemma set_requests_fr v w : frame [F_requests] w (set_requests v w).
Proof. solve_frame. Qed.
Lemma set_conflicts_fr v w : frame [F_conflicts] w (set_conflicts v w).
Proof. solve_frame. Qed.
Lemma set_alerts_fr v w : frame [F_alerts] w (set_alerts v w).
Proof. solve_frame. Qed.
Lemma set_saveAllCalls_fr v w : frame [F_saveAllCalls] w (set_saveAllCalls v w).
Proof. solve_frame. Qed.

Lemma data_of_frame w' w : frame data_fields w (data_of w' w).
Proof. solve_frame. Qed.

Lemma registry_of_frame w' w :
  frame [F_datalayers; F_datalayersIndex] w (registry_of w' w).
Proof. solve_frame. Qed.

Section Frames.
Context (env : Env).

Lemma cleared_fr w : frame data_fields w (cleared w).
Proof. rewrite cleared_frame. apply data_of_frame. Qed.

Lemma loaded_from_fr geojson w : frame data_fields w (loaded_from env geojson w).
Proof. rewrite loaded_from_frame. apply data_of_frame. Qed.

Lemma reloaded_fr data w : frame data_fields w (reloaded env data w).
Proof. rewrite reloaded_frame. apply data_of_frame. Qed.

Lemma connected_fr w : frame [F_datalayers; F_datalayersIndex] w (connected w).
Proof. rewrite connected_frame. apply registry_of_frame. Qed.

Lemma options_updated_fr o w : frame [F_options] w (options_updated o w).
Proof. solve_frame. Qed.
Lemma version_set_fr r w : frame [F_referenceVersion] w (version_set r w).
Proof. solve_frame. Qed.
Lemma options_backed_up_fr w : frame [F_backupOptions] w (options_backed_up w).
Proof. solve_frame. Qed.
Lemma data_backed_up_fr w : frame [F_geojson_bk] w (data_backed_up w).
Proof. solve_frame. Qed.
Lemma logged_fr r w : frame [F_requests] w (logged r w).
Proof. solve_frame. Qed.
Lemma layer_reset_fr w : frame [F_layer_type] w (layer_reset env w).
Proof.
  unfold layer_reset. cbv zeta.
  destruct (_ || _); [|apply set_layer_type_fr].
  eapply frame_weaken; [|apply frame_refl]. done.
Qed.

End Frames.

(** Read a field through the steps that leave it alone. *)
Ltac peel lem :=
  repeat first
    [ rewrite (lem _ _ _ (connected_fr _) ltac:(not_in_frame))
    | rewrite (lem _ _ _ (layer_reset_fr _ _) ltac:(not_in_frame))
    | rewrite (lem _ _ _ (set_layer_type_fr _ _) ltac:(not_in_frame))
    | rewrite (lem _ _ _ (data_backed_up_fr _) ltac:(not_in_frame))
    | rewrite (lem _ _ _ (options_backed_up_fr _) ltac:(not_in_frame))
    | rewrite (lem _ _ _ (version_set_fr _ _) ltac:(not_in_frame))
    | rewrite (lem _ _ _ (options_updated_fr _ _) ltac:(not_in_frame))
    | rewrite (lem _ _ _ (reloaded_fr _ _ _) ltac:(not_in_frame))
    | rewrite (lem _ _ _ (loaded_from_fr _ _ _) ltac:(not_in_frame))
    | rewrite (lem _ _ _ (cleared_fr _) ltac:(not_in_frame))
    | rewrite (lem _ _ _ (logged_fr _ _) ltac:(not_in_frame))
    | rewrite (lem _ _ _ (set_index_fr _ _) ltac:(not_in_frame))
    | rewrite (lem _ _ _ (set_features_fr _ _) ltac:(not_in_frame))
    | rewrite (lem _ _ _ (set_propertiesIndex_fr _ _) ltac:(not_in_frame))
    | rewrite (lem _ _ _ (set_geojson_fr _ _) ltac:(not_in_frame))
    | rewrite (lem _ _ _ (set_geojson_bk_fr _ _) ltac:(not_in_frame))
    | rewrite (lem _ _ _ (set_options_fr _ _) ltac:(not_in_frame))
    | rewrite (lem _ _ _ (set_backupOptions_fr _ _) ltac:(not_in_frame))
    | rewrite (lem _ _ _ (set_referenceVersion_fr _ _) ltac:(not_in_frame))
    | rewrite (lem _ _ _ (set_loaded_fr _ _) ltac:(not_in_frame))
    | rewrite (lem _ _ _ (set_dataloaded_fr _ _) ltac:(not_in_frame))
    | rewrite (lem _ _ _ (set_loading_fr _ _) ltac:(not_in_frame))
    | rewrite (lem _ _ _ (set_isDeleted_fr _ _) ltac:(not_in_frame))
    | rewrite (lem _ _ _ (set_isDirty_fr _ _) ltac:(not_in_frame))
    | rewrite (lem _ _ _ (set_visible_fr _ _) ltac:(not_in_frame))
    | rewrite (lem _ _ _ (set_datalayers_fr _ _) ltac:(not_in_frame))
    | rewrite (lem _ _ _ (set_datalayersIndex_fr _ _) ltac:(not_in_frame))
    | rewrite (lem _ _ _ (set_lastId_fr _ _) ltac:(not_in_frame))
    | rewrite (lem _ _ _ (set_requests_fr _ _) ltac:(not_in_frame))
    | rewrite (lem _ _ _ (set_conflicts_fr _ _) ltac:(not_in_frame))
    | rewrite (lem _ _ _ (set_alerts_fr _ _) ltac:(not_in_frame))
    | rewrite (lem _ _ _ (set_saveAllCalls_fr _ _) ltac:(not_in_frame)) ].

Section Committed.
Context (env : Env).

Lemma committed_fr data response w :
  frame committed_fields w (committed env data response w).
Proof.
  unfold committed, sealed, committed_fields.
  eapply frame_weaken; [|
    eapply frame_trans; [|apply set_loaded_fr];
    eapply frame_trans; [|apply connected_fr];
    eapply frame_trans; [|apply data_backed_up_fr];
    eapply frame_trans; [|apply options_backed_up_fr];
    eapply frame_trans; [|apply version_set_fr];
    eapply frame_trans; [|apply layer_reset_fr];
    eapply frame_trans; [|apply options_updated_fr];
    apply reloaded_fr ].
  done.
Qed.





Lemma committed_conflicts data response w :
  conflicts (committed env data response w) = conflicts w.
Proof. by through frame_conflicts (committed_fr data response w). Qed.




End Committed.

(** ** Relations that every step respects *)

Global Instance frame_preorder S : PreOrder (frame S).
Proof.
  split; [intros w; apply frame_refl|].
  intros w1 w2 w3 H1 H2 f Hf. by rewrite H2, H1.
Qed.

Global Instance log_grows_preorder : PreOrder log_grows.
Proof.
  unfold log_grows. split; [by intros w|].
  intros w1 w2 w3 H1 H2. by etrans.
Qed.

Global Instance still_loading_preorder : PreOrder still_loading.
Proof.
  split; [by intros w H|].
  intros w1 w2 w3 H1 H2 H. destruct (H1 H) as [Hl Hr].
  destruct (H2 Hl) as [Hl' Hr']. split; [done|]. by rewrite Hr', Hr.
Qed.

Lemma fetchData_in_flight env w :
  _loading w = true → fetchData env w = (Normal tt, w).
Proof.
  intros H. unfold fetchData, fetchData_body. mred.
  destruct (createdOnServer w); [|done]. mred. by rewrite H.
Qed.

Lemma fetchData_local env w :
  createdOnServer w = false → fetchData env w = (Normal tt, w).
Proof. intros H. unfold fetchData, fetchData_body. mred. by rewrite H. Qed.

Create HintDb respects.

(** A field update of [w] stays within the fields of [S]. *)
Ltac in_frame :=
  let f := fresh "f" in let Hf := fresh "Hf" in
  intros f Hf; destruct f; try reflexivity;
  exfalso; apply Hf; apply (bool_decide_unpack _); vm_compute; exact I.

Ltac put_side HR :=
  let w := fresh "w" in
  intros w; apply HR; cbv beta zeta;
  repeat match goal with
  | |- context [decide ?P] => destruct (decide P)
  | |- context [if ?b then _ else _] => destruct b
  end; in_frame.

Section Respects.
Context (R : relation World) `{!PreOrder R}.

Lemma respects_ret {A} (a : A) : respects R (ret a).
Proof. intros w. reflexivity. Qed.

Lemma respects_throw {A} e : respects R (@throw A e).
Proof. intros w. reflexivity. Qed.

Lemma respects_get {A} (f : World → A) : respects R (get f).
Proof. intros w. reflexivity. Qed.

Lemma respects_put f : (∀ w, R w (f w)) → respects R (put f).
Proof. intros Hf w. apply Hf. Qed.

Lemma respects_bind {A B} (m : M A) (k : A → M B) :
  respects R m → (∀ a, respects R (k a)) → respects R (bind m k).
Proof.
  intros Hm Hk w. unfold bind. specialize (Hm w).
  destruct (m w) as [[a|e] w']; cbn in *; [|done].
  etrans; [exact Hm|apply Hk].
Qed.

Lemma respects_detached {A} (m : M A) : respects R m → respects R (detached m).
Proof. intros Hm w. exact (Hm w). Qed.

Lemma respects_for_each {A} (l : list A) body :
  (∀ x, respects R (body x)) → respects R (for_each l body).
Proof.
  intros Hb. induction l as [|x l IH]; cbn [for_each].
  - apply (respects_ret tt).
  - apply respects_bind; [apply Hb|]. intros _. apply IH.
Qed.

Lemma respects_eachFeature method :
  (∀ feature, respects R (method feature)) → respects R (eachFeature method).
Proof.
  intros Hm. unfold eachFeature. apply respects_bind; [apply respects_get|].
  intros index. induction index as [|idx index IH]; cbn [eachFeature_from].
  - apply (respects_ret tt).
  - apply respects_bind; [apply respects_get|]. intros [feature|].
    + apply respects_bind; [apply Hm|]. intros _. apply IH.
    + apply respects_throw.
Qed.

(** Through a call to what follows its first step. *)
Lemma respects_after {A B} (m : M A) (k : A → M B) a w w' :
  m w = (Normal a, w') → (∀ a, respects R (k a)) → R w' (bind m k w).2.
Proof. intros Hm Hk. rewrite (bind_run _ _ _ _ _ Hm). apply Hk. Qed.

Lemma respects_featuresToGeoJSON : respects R featuresToGeoJSON.
Proof. intros w. by rewrite featuresToGeoJSON_state. Qed.

End Respects.

#[export] Hint Extern 1 (PreOrder _) => apply _ : respects.
#[export] Hint Resolve respects_ret respects_throw respects_get
  respects_detached respects_featuresToGeoJSON : respects.

(** One step through the code of a method. *)
Ltac respects_step HR HL :=
  match goal with
  | |- PreOrder _ => apply _
  | |- respects _ (bind _ _) => apply respects_bind; [..|intros ?]
  | |- respects _ (put _) => apply respects_put; [..|put_side HR]
  | |- respects _ (for_each _ _) => apply respects_for_each; [..|intros ?]
  | |- respects _ (eachFeature _) =>
      apply respects_eachFeature; [..|intros ?]
  | |- respects _ (log _) =>
      apply respects_put;
      [..|let w := fresh "w" in intros w; apply HL; reflexivity]
  | |- respects _ (if ?b then _ else _) => destruct b
  | |- respects _ (match ?x with _ => _ end) => destruct x
  | |- respects _ (let _ := _ in _) => cbv zeta
  | |- respects _ _ => solve [auto with respects]
  end.
Ltac respects_steps HR HL := repeat respects_step HR HL.

Section Methods.
Context (env : Env) (R : relation World) `{!PreOrder R}.

(** What the content of a layer is leaves [R] alone, and so do the
    requests that do not read the layer. *)
Hypothesis HR : ∀ w w', frame content_fields w w' → R w w'.
Hypothesis HL : ∀ r w, is_load r = false → R w (logged r w).

Lemma respects_indexProperty name : respects R (indexProperty name).
Proof. unfold indexProperty. respects_steps HR HL. Qed.
#[local] Hint Resolve respects_indexProperty : respects.

Lemma respects_indexProperties feature : respects R (indexProperties feature).
Proof. unfold indexProperties. respects_steps HR HL. Qed.
#[local] Hint Resolve respects_indexProperties : respects.

Lemma respects_deindexProperty name : respects R (deindexProperty name).
Proof. unfold deindexProperty. respects_steps HR HL. Qed.

Lemma respects_addFeature feature : respects R (addFeature feature).
Proof. unfold addFeature, showFeature, dataChanged. respects_steps HR HL. Qed.
#[local] Hint Resolve respects_addFeature : respects.

Lemma respects_removeFeature feature : respects R (removeFeature feature).
Proof. unfold removeFeature, hideFeature, dataChanged. respects_steps HR HL. Qed.

Lemma respects_reindex : respects R (reindex env).
Proof. unfold reindex. respects_steps HR HL. Qed.

Lemma respects_clear : respects R clear.
Proof. unfold clear, backupData, dataChanged. respects_steps HR HL. Qed.
#[local] Hint Resolve respects_clear : respects.

Lemma respects_makeFeature e sync : respects R (makeFeature e sync).
Proof. unfold makeFeature, new_Feature, Alert_error. respects_steps HR HL. Qed.
#[local] Hint Resolve respects_makeFeature : respects.

Lemma respects_makeFeatures geojson sync :
  respects R (makeFeatures env geojson sync).
Proof. unfold makeFeatures. respects_steps HR HL. Qed.

Lemma respects_addData geojson sync : respects R (addData env geojson sync).
Proof.
  intros w. unfold addData.
  pose proof (respects_makeFeatures geojson sync w) as Hm.
  by destruct (makeFeatures env geojson sync w) as [[g|e] w'].
Qed.
#[local] Hint Resolve respects_addData : respects.

Lemma respects_fromGeoJSON geojson sync :
  respects R (fromGeoJSON env geojson sync).
Proof.
  unfold fromGeoJSON, onDataLoaded, renderLegend, dataChanged.
  respects_steps HR HL.
Qed.
#[local] Hint Resolve respects_fromGeoJSON : respects.

Lemma respects_request_get_ url : respects R (request_get_ env url).
Proof. unfold request_get_. respects_steps HR HL. Qed.
#[local] Hint Resolve respects_request_get_ : respects.

Lemma respects_server_post_ url hd body :
  respects R (server_post_ env url hd body).
Proof. unfold server_post_. respects_steps HR HL. Qed.
#[local] Hint Resolve respects_server_post_ : respects.

Lemma respects_fetchRemoteData force : respects R (fetchRemoteData env force).
Proof. unfold fetchRemoteData. respects_steps HR HL. Qed.
#[local] Hint Resolve respects_fetchRemoteData : respects.

Lemma respects_hide : respects R hide.
Proof. unfold hide. respects_steps HR HL. Qed.
#[local] Hint Resolve respects_hide : respects.

Lemma respects_replace_options o : respects R (replace_options o).
Proof. unfold replace_options. respects_steps HR HL. Qed.
#[local] Hint Resolve respects_replace_options : respects.

Lemma respects_setReferenceVersion response :
  respects R (setReferenceVersion response).
Proof. unfold setReferenceVersion. respects_steps HR HL. Qed.
#[local] Hint Resolve respects_setReferenceVersion : respects.

Lemma respects_backupOptions : respects R backupOptions.
Proof. unfold backupOptions. respects_steps HR HL. Qed.
#[local] Hint Resolve respects_backupOptions : respects.

Lemma respects_backupData : respects R backupData.
Proof. unfold backupData. respects_steps HR HL. Qed.
#[local] Hint Resolve respects_backupData : respects.

(** *** The way from [fetchData] back to it *)

Section Path.
Variable again : M unit.
Hypothesis Hagain : respects R again.
#[local] Hint Resolve Hagain : respects.

Lemma respects_show_ : respects R (show_ again).
Proof. unfold show_. respects_steps HR HL. Qed.
#[local] Hint Resolve respects_show_ : respects.

Lemma respects_resetLayer_ : respects R (resetLayer_ env again).
Proof. unfold resetLayer_, makeUI, showFeature. respects_steps HR HL. Qed.
#[local] Hint Resolve respects_resetLayer_ : respects.

Lemma respects_updateOptions_ o : respects R (updateOptions_ env again o).
Proof. unfold updateOptions_. respects_steps HR HL. Qed.
#[local] Hint Resolve respects_updateOptions_ : respects.

Lemma respects_setOptions_ o : respects R (setOptions_ env again o).
Proof. unfold setOptions_. respects_steps HR HL. Qed.
#[local] Hint Resolve respects_setOptions_ : respects.

Lemma respects_fromUmapGeoJSON_ geojson :
  respects R (fromUmapGeoJSON_ env again geojson).
Proof. unfold fromUmapGeoJSON_. respects_steps HR HL. Qed.
#[local] Hint Resolve respects_fromUmapGeoJSON_ : respects.

(** When [R] also allows the in-flight flag to change and the layer to be
    read. *)
Lemma respects_fetchData_body :
  (∀ b w, R w (set_loading b w)) →
  (∀ r w, R w (logged r w)) →
  respects R (fetchData_body env again).
Proof.
  intros Hb Hg. unfold fetchData_body, server_get_.
  repeat match goal with
  | |- respects _ (put (set_loading _)) => apply respects_put; intros w; apply Hb
  | |- respects _ (log _) => apply respects_put; intros w; apply Hg
  | _ => respects_step HR HL
  end.
Qed.

End Path.

(** *** All the methods, for a [fetchData] that respects [R] *)

Hypothesis HQ : ∀ w w', frame quiet_fields w w' → R w w'.
Hypothesis Hfetch : respects R (fetchData env).
#[local] Hint Resolve Hfetch : respects.

Lemma respects_show : respects R (show env).
Proof. apply respects_show_, Hfetch. Qed.
#[local] Hint Resolve respects_show : respects.

Lemma respects_resetLayer : respects R (resetLayer env).
Proof. apply respects_resetLayer_, Hfetch. Qed.

Lemma respects_updateOptions o : respects R (updateOptions env o).
Proof. apply respects_updateOptions_, Hfetch. Qed.
#[local] Hint Resolve respects_updateOptions : respects.

Lemma respects_toggle : respects R (toggle env).
Proof. unfold toggle. respects_steps HQ HL. Qed.

Lemma respects_redraw : respects R (redraw env).
Proof. unfold redraw. respects_steps HQ HL. Qed.
#[local] Hint Resolve respects_redraw : respects.

Lemma respects_assign_isDirty status : respects R (assign_isDirty env status).
Proof. unfold assign_isDirty, onDirty. respects_steps HQ HL. Qed.
#[local] Hint Resolve respects_assign_isDirty : respects.

Lemma respects_connectToMap : respects R connectToMap.
Proof. unfold connectToMap. respects_steps HQ HL. Qed.
#[local] Hint Resolve respects_connectToMap : respects.

Lemma respects__trySave url hd formData :
  respects R (_trySave env url hd formData).
Proof. unfold _trySave, AlertConflict_error. respects_steps HQ HL. Qed.
#[local] Hint Resolve respects__trySave : respects.

(** From the state in which the request is logged. *)
Lemma _trySave_after_post url hd formData w :
  R (logged (ServerPost url (Some hd) (Some formData)) w)
    (_trySave env url hd formData w).2.
Proof.
  unfold _trySave. eapply respects_after; [reflexivity|].
  intros reply. unfold AlertConflict_error. respects_steps HQ HL.
Qed.

Lemma respects_retry action : respects R (retry env action).
Proof. unfold retry, saveAll. respects_steps HQ HL. Qed.

Lemma respects_saveDelete : respects R (saveDelete env).
Proof. unfold saveDelete. respects_steps HQ HL. Qed.
#[local] Hint Resolve respects_saveDelete : respects.

Lemma respects_umapGeoJSON : respects R umapGeoJSON.
Proof. unfold umapGeoJSON. respects_steps HQ HL. Qed.
#[local] Hint Resolve respects_umapGeoJSON : respects.

Lemma respects_save : respects R (save env).
Proof. unfold save. respects_steps HQ HL. Qed.

Lemma respects_erase : respects R erase.
Proof. unfold erase. respects_steps HQ HL. Qed.
#[local] Hint Resolve respects_erase : respects.

Lemma respects__delete : respects R (_delete env).
Proof. unfold _delete, assign_isDeleted. respects_steps HQ HL. Qed.

Lemma respects_empty : respects R (empty env).
Proof. unfold empty. respects_steps HQ HL. Qed.

Lemma respects_reset : respects R (reset env).
Proof. unfold reset, resetOptions. respects_steps HQ HL. Qed.

Lemma respects_perform c : respects R (perform env c).
Proof.
  destruct c; cbn [perform];
    eauto using respects_save, respects_toggle, respects_removeFeature,
      respects_reindex, respects_empty, respects__delete, respects_reset,
      respects_deindexProperty, respects_retry, respects_bind with respects.
Qed.

End Methods.

(** ** The log grows, the in-flight flag stays *)

Lemma content_quiet : content_fields ⊆ quiet_fields.
Proof. unfold quiet_fields. set_solver. Qed.

Lemma still_loading_quiet w w' : frame quiet_fields w w' → still_loading w w'.
Proof.
  intros H Hl. through frame_loading H. through frame_requests H. done.
Qed.

Lemma still_loading_content w w' :
  frame content_fields w w' → still_loading w w'.
Proof. intros H. by apply still_loading_quiet, (frame_weaken _ _ _ _ content_quiet). Qed.

Lemma loads_logged r w :
  is_load r = false → loads (requests (logged r w)) = loads (requests w).
Proof.
  intros Hr. cbn. unfold loads.
  rewrite filter_app. rewrite (filter_cons_False _ _ []).
  - apply app_nil_r.
  - rewrite Hr. intros [].
Qed.

Lemma still_loading_log r w : is_load r = false → still_loading w (logged r w).
Proof. intros Hr Hl. split; [done|]. by apply loads_logged. Qed.

Lemma log_grows_quiet w w' : frame quiet_fields w w' → log_grows w w'.
Proof. intros H. unfold log_grows. by through frame_requests H. Qed.

Lemma log_grows_content w w' : frame content_fields w w' → log_grows w w'.
Proof. intros H. by apply log_grows_quiet, (frame_weaken _ _ _ _ content_quiet). Qed.

Lemma log_grows_log r w : log_grows w (logged r w).
Proof. unfold log_grows, logged. cbn. by apply prefix_app_r. Qed.

Lemma log_grows_loading b w : log_grows w (set_loading b w).
Proof. by unfold log_grows. Qed.

(** ** [fetchData] is its own body *)

Section Again.
Context (env : Env).

Lemma agree_refl {A} (m : M A) : agree m m.
Proof. by intros w _. Qed.

Lemma agree_bind {A B} (m1 m2 : M A) (k1 k2 : A → M B) :
  agree m1 m2 → respects still_loading m1 →
  (∀ a, agree (k1 a) (k2 a)) → agree (bind m1 k1) (bind m2 k2).
Proof.
  intros Hm Hs Hk w Hl. unfold bind. rewrite <- (Hm w Hl).
  destruct (Hs w Hl) as [Hl' _].
  destruct (m1 w) as [[a|e] w']; [|done]. by apply Hk.
Qed.

Lemma agree_detached {A} (m1 m2 : M A) :
  agree m1 m2 → agree (detached m1) (detached m2).
Proof. intros Hm w Hl. unfold detached. by rewrite (Hm w Hl). Qed.

Lemma agree_again : agree (ret tt) (fetchData env).
Proof. intros w Hl. by rewrite fetchData_in_flight. Qed.

(** A step of the way with the in-flight flag set. *)
Ltac quiet_step :=
  respects_steps still_loading_content still_loading_log.

Ltac agree_step :=
  match goal with
  | |- agree ?m ?m => apply agree_refl
  | |- agree (bind _ _) (bind _ _) => apply agree_bind; [| |intros ?]
  | |- agree (detached _) (detached _) => apply agree_detached
  | |- agree (if ?b then _ else _) _ => destruct b
  | |- agree (match ?x with _ => _ end) _ => destruct x
  | |- agree (let _ := _ in _) _ => cbv zeta
  | |- agree (ret tt) (fetchData _) => apply agree_again
  end.

Lemma respects_show_ret : respects still_loading (show_ (ret tt)).
Proof.
  apply respects_show_; auto using still_loading_content, still_loading_log
    with respects.
Qed.

Lemma agree_show : agree (show_ (ret tt)) (show env).
Proof.
  unfold show, show_. repeat agree_step; quiet_step.
Qed.

Lemma respects_resetLayer_ret :
  respects still_loading (resetLayer_ env (ret tt)).
Proof.
  apply respects_resetLayer_; auto using still_loading_content,
    still_loading_log with respects.
Qed.

Lemma agree_resetLayer : agree (resetLayer_ env (ret tt)) (resetLayer env).
Proof.
  unfold resetLayer, resetLayer_.
  repeat first [ apply agree_show | agree_step ];
    unfold makeUI, showFeature; quiet_step.
Qed.

Lemma respects_updateOptions_ret o :
  respects still_loading (updateOptions_ env (ret tt) o).
Proof.
  apply respects_updateOptions_; auto using still_loading_content,
    still_loading_log with respects.
Qed.

Lemma agree_updateOptions o :
  agree (updateOptions_ env (ret tt) o) (updateOptions env o).
Proof.
  unfold updateOptions, updateOptions_.
  repeat first [ apply agree_resetLayer | agree_step ]; quiet_step.
Qed.

Lemma respects_replace_options_loading o :
  respects still_loading (replace_options o).
Proof.
  apply respects_replace_options; auto using still_loading_content,
    still_loading_log with respects.
Qed.

Lemma respects_setOptions_ret o :
  respects still_loading (setOptions_ env (ret tt) o).
Proof.
  apply respects_setOptions_; auto using still_loading_content,
    still_loading_log with respects.
Qed.

Lemma agree_setOptions o :
  agree (setOptions_ env (ret tt) o) (setOptions env o).
Proof.
  unfold setOptions, setOptions_.
  repeat first [ apply agree_updateOptions | agree_step ];
    first [ apply respects_replace_options_loading
          | apply respects_updateOptions_ret ].
Qed.

Lemma agree_fromUmapGeoJSON geojson :
  agree (fromUmapGeoJSON_ env (ret tt) geojson) (fromUmapGeoJSON env geojson).
Proof.
  unfold fromUmapGeoJSON, fromUmapGeoJSON_.
  repeat first [ apply agree_setOptions | agree_step ];
    first [ apply respects_setOptions_ret | quiet_step ].
Qed.

Lemma fetchData_unfold w :
  fetchData env w = fetchData_body env (fetchData env) w.
Proof.
  unfold fetchData at 1.
  unfold fetchData_body, server_get_, log, setReferenceVersion. mred.
  destruct (createdOnServer w); [|done]. mred.
  destruct (_loading w); [done|]. mred.
  destruct (server_get env _ _) as [geojson response|]; [|done]. mred.
  by rewrite agree_fromUmapGeoJSON.
Qed.

End Again.

(** ** What [fetchData] and the calls on a layer respect *)

Section Loads.
Context (env : Env).

Lemma fetchData_still_loading : respects still_loading (fetchData env).
Proof. intros w H. by rewrite fetchData_in_flight. Qed.

Lemma fetchData_log_grows : respects log_grows (fetchData env).
Proof.
  apply respects_fetchData_body;
    auto using log_grows_content, log_grows_log, log_grows_loading
    with respects.
Qed.

Lemma perform_still_loading c : respects still_loading (perform env c).
Proof.
  apply respects_perform;
    auto using still_loading_content, still_loading_quiet, still_loading_log,
      fetchData_still_loading with respects.
Qed.

(** From the state in which [_trySave] has logged its request, the log
    only grows. *)
Lemma _trySave_posts url hd formData w :
  requests w ++ [ServerPost url (Some hd) (Some formData)]
    `prefix_of` requests (_trySave env url hd formData w).2.
Proof.
  apply (_trySave_after_post env log_grows);
    auto using log_grows_content, log_grows_quiet, log_grows_log,
      fetchData_log_grows with respects.
Qed.

End Loads.

Lemma perform_all_still_loading calls w :
  _loading w = true →
  _loading (perform_all calls w) = true ∧
  loads (requests (perform_all calls w)) = loads (requests w).
Proof.
  revert w. induction calls as [|[env c] calls IH]; intros w H; [done|].
  cbn [perform_all foldl].
  destruct (perform_still_loading env c w H) as [Hl Hr].
  destruct (IH _ Hl) as [Hl' Hr']. split; [exact Hl'|].
  fold (perform_all calls (perform env c w).2). by rewrite Hr', Hr.
Qed.

(** ** A layer that is loaded *)


Lemma frame_all_present S w w' :
  frame S w w' → F_index ∉ S → F_features ∉ S →
  all_present w → all_present w'.
Proof.
  intros H Hi Hf. unfold all_present.
  by rewrite (frame_index _ _ _ H Hi), (frame_features _ _ _ H Hf).
Qed.


Section Loaded.
Context (env : Env).








Lemma cleared_index w : _index (cleared w) = [].
Proof. unfold cleared. by destruct (_geojson w). Qed.

Lemma cleared_features w : _features (cleared w) = ∅.
Proof. unfold cleared. by destruct (_geojson w). Qed.

(** Loading a document into a cleared layer: what the layer then exports
    is the document's recognised elements, in the order they were made. *)
Lemma loaded_from_cleared_export geojson w w0 :
  let w' := loaded_from env geojson (cleared w) in
  index_consistent w' ∧
  eachFeature_toGeoJSON (_features w') (_index w') w0 =
  (Normal (filter known (collection_of env (payload geojson))), w0).
Proof.
  cbv zeta. unfold loaded_from.
  destruct (foldl_make_step_export (collection_of env (payload geojson))
              (cleared w) [] w0) as (_ & Hc & He).
  - intros k. rewrite cleared_index. by intros ?%elem_of_nil.
  - unfold index_consistent. rewrite cleared_index, cleared_features.
    split; [constructor|]. by rewrite dom_empty_L.
  - by rewrite cleared_index.
  - split; [exact Hc | exact He].
Qed.


Lemma connectToMap_run w : connectToMap w = (Normal tt, connected w).
Proof. reflexivity. Qed.



End Loaded.

(** ** Saving *)

Section Save.
Context (env : Env).

Lemma save_live w doc :
  _isDeleted w = false → isLoaded w = true →
  umapGeoJSON w = (Normal doc, w) →
  save env w =
  bind (_trySave env (saveURL w) (save_headers w) (save_formData w doc))
    (λ status, bind (put (set_geojson (Some doc))) (λ _, ret status)) w.
Proof.
  intros Hd Hl Hdoc. unfold save.
  erewrite bind_run; [|reflexivity]. rewrite Hd.
  erewrite bind_run; [|reflexivity]. rewrite Hl. cbn [negb].
  erewrite bind_run; [|exact Hdoc].
  erewrite bind_run; [|reflexivity]. reflexivity.
Qed.

Lemma save_live_requests w doc :
  _isDeleted w = false → isLoaded w = true →
  umapGeoJSON w = (Normal doc, w) →
  requests (save env w).2 =
  requests (_trySave env (saveURL w) (save_headers w) (save_formData w doc) w).2.
Proof.
  intros Hd Hl Hdoc. rewrite (save_live w doc Hd Hl Hdoc). unfold bind.
  by destruct (_trySave env _ _ _ w) as [[s|e] w'].
Qed.


End Save.

Section Retry.
Context (env : Env).





End Retry.

(** ** Remote data *)

Section Remote.
Context (env : Env).

Lemma fetchRemoteData_skips force w :
  remote_fetch_skipped force w → fetchRemoteData env force w = (Normal tt, w).
Proof.
  unfold fetchRemoteData, hasDynamicData, remote_fetch_skipped. mred.
  intros [H | [H | (Hd & Hl & Hf)]].
  - rewrite H. reflexivity.
  - destruct (isRemoteLayer w) eqn:Hr; [|reflexivity]. mred.
    destruct (_ && _ && _); [reflexivity|]. mred. rewrite H. reflexivity.
  - destruct (isRemoteLayer w) eqn:Hr; [|reflexivity]. mred.
    rewrite Hd, Hl, Hf, Hr. reflexivity.
Qed.

Lemma request_get_run url w :
  request_get_ env url w =
  (Normal (request_get env (length (requests w)) url), logged (RequestGet url) w).
Proof. reflexivity. Qed.

Lemma fetchRemoteData_fetches force w :
  ¬ remote_fetch_skipped force w →
  fetchRemoteData env force w =
  (Normal tt,
   let w1 := logged (RequestGet (remote_url env w)) w in
   match request_get env (length (requests w)) (remote_url env w) with
   | Some r =>
       if ok r then
         match formatter_parse env (text r) (field (remoteData w) "format") with
         | Some geojson => loaded_from env geojson (cleared w1)
         | None => cleared w1
         end
       else w1
   | None => w1
   end).
Proof.
  intros Hn. unfold remote_fetch_skipped in Hn.
  destruct (isRemoteLayer w) eqn:Hr; [|by destruct Hn; left].
  destruct (isVisible w) eqn:Hv; [|by destruct Hn; right; left].
  assert (Hc : negb (hasDynamicData w) && hasDataLoaded w && negb (truthy force)
               = false).
  { unfold hasDynamicData. rewrite Hr. cbn [andb].
    destruct (truthy (field (remoteData w) "dynamic")); [done|].
    destruct (hasDataLoaded w); [|done].
    destruct (truthy force); [done|]. destruct Hn. right; right. done. }
  unfold fetchRemoteData.
  erewrite bind_run; [|reflexivity]. rewrite Hr. cbn [negb].
  erewrite bind_run; [|reflexivity]. erewrite bind_run; [|reflexivity].
  rewrite Hc.
  erewrite bind_run; [|reflexivity]. rewrite Hv. cbn [negb].
  erewrite bind_run; [|reflexivity]. cbv zeta. fold (remote_url env w).
  erewrite bind_run; [|apply request_get_run].
  destruct (request_get env (length (requests w)) (remote_url env w)) as [r|];
    [|reflexivity].
  destruct (ok r); [|reflexivity].
  erewrite bind_run; [|apply clear_run].
  erewrite bind_run; [|reflexivity].
  assert (Ho : remoteData (cleared (logged (RequestGet (remote_url env w)) w))
               = remoteData w).
  { unfold remoteData. peel frame_options. reflexivity. }
  rewrite Ho.
  destruct (formatter_parse env (text r) (field (remoteData w) "format"));
    [|reflexivity].
  erewrite bind_run; [|apply fromGeoJSON_run]. reflexivity.
Qed.

Lemma fetchRemoteData_requests force w :
  ¬ remote_fetch_skipped force w →
  requests (fetchRemoteData env force w).2 =
  requests w ++ [RequestGet (remote_url env w)].
Proof.
  intros Hn. rewrite (fetchRemoteData_fetches force w Hn). unfold snd. cbv zeta.
  destruct (request_get env _ _) as [r|]; [|reflexivity].
  destruct (ok r); [|reflexivity].
  destruct (formatter_parse env _ _); by peel frame_requests.
Qed.

End Remote.

(** ** The feature index *)

Lemma array_get_last {A} (arr : list A) :
  array_get arr (Z.of_nat (length arr) - 1) = last arr.
Proof.
  unfold array_get. rewrite last_lookup.
  destruct arr as [|x arr]; [done|].
  cbn [length]. destruct (Z.ltb_spec (Z.of_nat (S (length arr)) - 1) 0); [lia|].
  f_equal. lia.
Qed.

Lemma array_get_out_of_range {A} (arr : list A) (i : Z) :
  (i < 0 ∨ Z.of_nat (length arr) ≤ i)%Z → array_get arr i = None.
Proof.
  unfold array_get. intros H. destruct (Z.ltb_spec i 0); [done|].
  apply lookup_ge_None. lia.
Qed.

Lemma indexOf_from_absent `{EqDecision A} (arr : list A) x i :
  x ∉ arr → indexOf_from i x arr = (-1)%Z.
Proof.
  revert i. induction arr as [|y arr IH]; intros i Hx; [done|].
  cbn. rewrite decide_False by set_solver. apply IH. set_solver.
Qed.

Lemma indexOf_from_present `{EqDecision A} (arr : list A) x i :
  x ∈ arr →
  ∃ n, indexOf_from i x arr = (i + Z.of_nat n)%Z ∧ arr !! n = Some x ∧
       x ∉ take n arr.
Proof.
  revert i. induction arr as [|y arr IH]; intros i Hx; [by apply elem_of_nil in Hx|].
  cbn. destruct (decide (x = y)) as [->|Hne].
  - exists 0. split; [lia|]. split; [done|]. cbn. apply not_elem_of_nil.
  - destruct (IH (i + 1)%Z) as (n & E & Hn & Ht); [set_solver|].
    exists (S n). split; [lia|]. split; [done|]. cbn. set_solver.
Qed.

Lemma splice_one {A} (arr : list A) (n : nat) :
  n < length arr → splice (Z.of_nat n) 1 arr = take n arr ++ drop (S n) arr.
Proof.
  intros Hn. unfold splice.
  destruct (Z.ltb_spec (Z.of_nat n) 0); [lia|].
  rewrite Z.min_l by lia. rewrite Nat2Z.id. by rewrite Nat.add_1_r.
Qed.

Lemma splice_last {A} (arr : list A) :
  arr ≠ [] → splice (-1) 1 arr = take (length arr - 1) arr.
Proof.
  intros Hne. unfold splice. cbn [Z.ltb Z.compare].
  assert (0 < length arr) by (destruct arr; [done|cbn; lia]).
  rewrite Z.max_l by lia.
  replace (Z.to_nat (Z.of_nat (length arr) + -1)) with (length arr - 1) by lia.
  rewrite drop_ge by lia. apply app_nil_r.
Qed.

Section Index.

(** Adding a feature whose id is not in use keeps the index consistent. *)
Lemma addFeature_consistent feature w :
  stamp feature ∉ _index w → index_consistent w →
  index_consistent (addFeature feature w).2.
Proof.
  intros Hf [Hnd Hdom]. rewrite addFeature_run. unfold snd, index_consistent.
  wsimpl. split.
  - apply NoDup_app. split; [done|]. split; [|apply NoDup_singleton].
    intros x Hx ->%list_elem_of_singleton. done.
  - rewrite dom_insert_L, Hdom, list_to_set_app_L. cbn. set_solver.
Qed.

Lemma removeFeature_run feature w :
  removeFeature feature w =
  (Normal tt,
   set_features (delete (stamp feature) (_features w))
     (set_index (splice (indexOf (_index w) (stamp feature)) 1 (_index w)) w)).
Proof.
  unfold removeFeature, hideFeature, dataChanged. mred.
  unfold isVisible. wsimpl. by destruct (visible w).
Qed.

(** Removing a feature that is in the layer keeps the index consistent. *)
Lemma removeFeature_consistent feature w :
  stamp feature ∈ _index w → index_consistent w →
  index_consistent (removeFeature feature w).2.
Proof.
  intros Hf [Hnd Hdom]. rewrite removeFeature_run. unfold snd, index_consistent.
  wsimpl.
  destruct (indexOf_from_present (_index w) (stamp feature) 0 Hf)
    as (n & E & Hn & Ht).
  unfold indexOf. rewrite E, Z.add_0_l.
  rewrite splice_one by (by eapply lookup_lt_Some).
  rewrite <- (take_drop_middle _ _ _ Hn) in Hnd, Hdom.
  apply NoDup_app in Hnd as (Hnd1 & Hdis & Hnd2).
  apply NoDup_cons in Hnd2 as [Hx Hnd2]. split.
  - apply NoDup_app. split; [done|]. split; [|done].
    intros x Hx1 Hx2. apply (Hdis x Hx1). by right.
  - rewrite dom_delete_L, Hdom, !list_to_set_app_L, list_to_set_cons.
    assert (stamp feature ∉ (list_to_set (take n (_index w)) : gset positive))
      by (by rewrite elem_of_list_to_set).
    assert (stamp feature ∉ (list_to_set (drop (S n) (_index w)) : gset positive))
      by (by rewrite elem_of_list_to_set).
    set_solver.
Qed.

Lemma clear_consistent w : index_consistent (clear w).2.
Proof.
  rewrite clear_run. unfold snd, index_consistent.
  rewrite cleared_index, cleared_features. split; [constructor|].
  by rewrite dom_empty_L.
Qed.

Lemma Object_values_keys (fs : gmap positive Feature) :
  (∀ k f, fs !! k = Some f → stamp f = k) →
  stamp <$> Object_values fs ≡ₚ (map_to_list fs).*1.
Proof.
  intros Hk. unfold Object_values.
  rewrite (merge_sort_Permutation key_le (map_to_list fs)).
  assert (E : stamp <$> (map_to_list fs).*2 = (map_to_list fs).*1);
    [|by rewrite E].
  apply list_eq. intros i. rewrite !list_lookup_fmap.
  destruct (map_to_list fs !! i) as [[k f]|] eqn:E; [|done]. cbn.
  f_equal. apply Hk. apply elem_of_map_to_list.
  by apply list_elem_of_lookup_2 in E.
Qed.

(** Sorting the features anew restores the index from the feature map. *)
Lemma reindex_consistent env w :
  (∀ l, sortFeatures env l ≡ₚ l) → features_keyed w →
  index_consistent (reindex env w).2.
Proof.
  intros Hs Hk. unfold reindex, put, snd, index_consistent. wsimpl.
  assert (Hp : stamp <$> sortFeatures env (Object_values (_features w))
               ≡ₚ (map_to_list (_features w)).*1).
  { rewrite Hs. by apply Object_values_keys. }
  split.
  - rewrite Hp. apply NoDup_fst_map_to_list.
  - apply set_eq. intros k.
    rewrite elem_of_list_to_set, Hp, elem_of_dom.
    rewrite list_elem_of_fmap. split.
    + intros [f Hf]. exists (k, f). split; [done|].
      by apply elem_of_map_to_list.
    + intros ([k' f] & -> & Hf%elem_of_map_to_list). by exists f.
Qed.

End Index.

(** * The claims *)

Section Claims.
Context (env : Env).





(** C5.  [fetchRemoteData] asks nothing and changes nothing when the
    layer mirrors no remote source, or is hidden, or its source is static
    and loaded and the fetch is not forced.  A visible layer with a static
    source already loaded asks exactly when [force] is truthy. *)
Theorem fetchRemoteData_request_policy force w :
  (remote_fetch_skipped force w → fetchRemoteData env force w = (Normal tt, w)) ∧
  (isRemoteLayer w = true → isVisible w = true →
   hasDynamicData w = false → hasDataLoaded w = true →
   (requests (fetchRemoteData env force w).2 ≠ requests w ↔ truthy force = true)).
Proof.
  split; [apply fetchRemoteData_skips|].
  intros Hr Hv Hd Hl. unfold hasDynamicData in Hd. rewrite Hr in Hd.
  cbn [andb] in Hd. split.
  - intros Hne. destruct (truthy force) eqn:Hf; [done|].
    destruct Hne. rewrite fetchRemoteData_skips; [done|].
    right; right. done.
  - intros Hf. rewrite fetchRemoteData_requests.
    + intros E. apply (f_equal length) in E. rewrite length_app in E.
      cbn in E. lia.
    + intros [H | [H | (_ & _ & H)]]; congruence.
Qed.

(** C6, as amended.  When [fetchRemoteData] asks the remote host: without
    a response, or with one that is not OK, only the request log changes.
    With an OK response the features are cleared before the body is
    parsed: if the parser accepts the body, the layer holds exactly the
    parsed elements of known geometry; if it rejects it, the layer is left
    without features. *)
Theorem fetchRemoteData_clears_then_parses force w url :
  requests (fetchRemoteData env force w).2 = requests w ++ [RequestGet url] →
  let w' := (fetchRemoteData env force w).2 in
  match request_get env (length (requests w)) url with
  | Some r =>
      if ok r then
        match formatter_parse env (text r) (field (remoteData w) "format") with
        | Some geojson =>
            index_consistent w' ∧
            featuresToGeoJSON w' =
              (Normal (filter known (collection_of env (payload geojson))), w')
        | None => _index w' = [] ∧ _features w' = ∅
        end
      else w' = logged (RequestGet url) w
  | None => w' = logged (RequestGet url) w
  end.
Proof.
  intros Hreq. cbv zeta.
  destruct (decide (remote_fetch_skipped force w)) as [Hs|Hn].
  { exfalso. rewrite (fetchRemoteData_skips env force w Hs) in Hreq.
    apply (f_equal length) in Hreq. rewrite length_app in Hreq.
    cbn in Hreq. lia. }
  rewrite (fetchRemoteData_requests env force w Hn) in Hreq.
  apply app_inj_tail in Hreq as [_ [= <-]].
  rewrite (fetchRemoteData_fetches env force w Hn). unfold snd. cbv zeta.
  destruct (request_get env _ _) as [r|]; [|reflexivity].
  destruct (ok r); [|reflexivity].
  destruct (formatter_parse env _ _) as [geojson|].
  - set (w1 := logged _ w).
    destruct (loaded_from_cleared_export env geojson w1
                (loaded_from env geojson (cleared w1))) as [Hc He].
    split; [exact Hc|].
    unfold featuresToGeoJSON. erewrite bind_run; [|reflexivity]. exact He.
  - split; [apply cleared_index | apply cleared_features].
Qed.

(** C10.  When the read of [fetchData] comes back with an error, the
    in-flight flag stays set.  From then on, through any history of calls
    on the layer, whatever the collaborators answer, the flag is still
    set, no further read of the layer is sent, and [fetchData] returns at
    once without changing anything. *)
Theorem fetchData_error_blocks_later_loads w response :
  createdOnServer w = true → _loading w = false →
  server_get env (length (requests w)) (_dataUrl w) = ReplyError response →
  let w1 := (fetchData env w).2 in
  (fetchData env w).1 = Normal tt ∧
  _loading w1 = true ∧
  requests w1 = requests w ++ [ServerGet (_dataUrl w)] ∧
  ∀ calls : list (Env * Call),
    let w2 := perform_all calls w1 in
    _loading w2 = true ∧
    loads (requests w2) = loads (requests w1) ∧
    ∀ env' : Env, fetchData env' w2 = (Normal tt, w2).
Proof.
  intros Hc Hl Hreply. cbv zeta.
  assert (E : fetchData env w =
              (Normal tt, logged (ServerGet (_dataUrl w)) (set_loading true w))).
  { unfold fetchData, fetchData_body, server_get_, log.
    erewrite bind_run; [|reflexivity]. rewrite Hc. cbn [negb].
    erewrite bind_run; [|reflexivity]. rewrite Hl.
    erewrite bind_run; [|reflexivity].
    erewrite bind_run; [|reflexivity].
    change (_dataUrl (set_loading true w)) with (_dataUrl w).
    erewrite bind_run; [|reflexivity].
    cbv beta.
    change (length (requests (set_loading true w))) with (length (requests w)).
    rewrite Hreply. reflexivity. }
  rewrite E. unfold fst, snd. split; [done|]. split; [done|]. split; [done|].
  intros calls. cbv zeta.
  destruct (perform_all_still_loading calls
              (logged (ServerGet (_dataUrl w)) (set_loading true w)) eq_refl)
    as [Hl' Hr'].
  split; [exact Hl'|]. split; [exact Hr'|].
  intros env'. by apply fetchData_in_flight.
Qed.

End Claims.


(** C8, as amended.  [getFeatureByIndex] never throws and changes
    nothing.  Position -1 gives the feature of the last id of the order
    sequence, [undefined] when the sequence is empty; a position below -1
    or past the end gives [undefined]. *)
Theorem getFeatureByIndex_never_fails index w :
  ∃ r, getFeatureByIndex index w = (Normal r, w) ∧
       (index = (-1)%Z → r = last (_index w) ≫= λ id, _features w !! id) ∧
       ((index < -1 ∨ Z.of_nat (length (_index w)) ≤ index)%Z → r = None).
Proof.
  eexists. split; [reflexivity|]. split.
  - intros ->. cbv zeta. rewrite Z.eqb_refl. by rewrite array_get_last.
  - intros H. cbv zeta. destruct (Z.eqb_spec index (-1)); [lia|].
    rewrite array_get_out_of_range by lia. done.
Qed.

(** C9, where the code departs from it.  On a layer whose order sequence
    lists the keys of the feature map, each once, and is not empty,
    removing a feature that is not in the layer takes the last id off the
    order sequence and leaves the feature map alone: the sequence no
    longer lists the keys of the map. *)
Theorem removeFeature_absent_drops_last feature w :
  index_consistent w → stamp feature ∉ _index w → _index w ≠ [] →
  let w' := (removeFeature feature w).2 in
  _index w' = take (length (_index w) - 1) (_index w) ∧
  _features w' = _features w ∧
  ¬ index_consistent w'.
Proof.
  intros [Hnd Hdom] Hf Hne. cbv zeta. rewrite removeFeature_run.
  unfold snd, index_consistent. wsimpl.
  unfold indexOf. rewrite indexOf_from_absent by done.
  rewrite splice_last by done.
  assert (Hdel : delete (stamp feature) (_features w) = _features w).
  { apply delete_id. apply not_elem_of_dom. rewrite Hdom.
    by rewrite elem_of_list_to_set. }
  rewrite Hdel. split; [done|]. split; [done|].
  intros [_ Hdom'].
  destruct (_index w) as [|x idx _] using rev_ind; [done|].
  rewrite length_app in Hdom'. cbn in Hdom'.
  replace (length idx + 1 - 1) with (length idx) in Hdom' by lia.
  rewrite take_app_length in Hdom'.
  apply NoDup_app in Hnd as (_ & Hdis & _).
  apply (Hdis x); [|left].
  apply (elem_of_list_to_set (C:=gset positive)). rewrite <- Hdom', Hdom.
  apply elem_of_list_to_set, elem_of_app. right. left.
Qed.

(** * The claims on sample layers *)




(** Why C2 asks for a feature behind every id: the reply changes the
    type of the layer, re-rendering meets an id without feature, and
    [save] ends in an exception with the reference version as it was. *)
Example save_dangling_id_throws :
  ¬ all_present dangling_layer ∧
  (save retyping dangling_layer).1 = Throw (TypeError "feature is undefined") ∧
  _referenceVersion (save retyping dangling_layer).2 = Some "v1".
Proof.
  split; [apply (bool_decide_unpack _); vm_compute; exact I|].
  vm_compute. split; reflexivity.
Qed.




(** Against C6 as stated: the remote host answers 200, the parser rejects
    the body, and the feature the layer showed is gone. *)
Lemma fetchRemoteData_parse_failure_counterexample :
  request_get (remote_host false) 0 "https://example.org/cafes.csv"
    = Some {| ok := true; text := "name;lat;lon" |} ∧
  formatter_parse (remote_host false) "name;lat;lon" (JStr "csv") = None ∧
  _index remote_layer = [1%positive] ∧
  _index (fetchRemoteData (remote_host false) JUndefined remote_layer).2 = [] ∧
  _features (fetchRemoteData (remote_host false) JUndefined remote_layer).2 = ∅.
Proof. vm_compute. repeat split; reflexivity. Qed.

(** C6, as amended, on a remote layer whose host answers a body the
    parser accepts. *)
Lemma fetchRemoteData_witness :
  let w' := (fetchRemoteData (remote_host true) JUndefined remote_layer).2 in
  featuresToGeoJSON w' =
    (Normal [ {| geometry_type := JStr "Point";
                 ge_properties := [("name", JStr "Z")] |} ], w').
Proof.
  pose proof (fetchRemoteData_clears_then_parses (remote_host true) JUndefined
                remote_layer "https://example.org/cafes.csv") as H.
  destruct H as [_ He].
  - vm_compute. reflexivity.
  - exact He.
Defined.


(** The feature of the specification: name is indexed, geo and _internal
    are not. *)
Example addFeature_name_geo_internal :
  properties feature_A =
    [("name", JStr "A"); ("geo", JObj {[ "x" := JNum 1 ]});
     ("_internal", JNum 2)] ∧
  _propertiesIndex (addFeature feature_A new_layer).2 = ["name"].
Proof. vm_compute. split; reflexivity. Qed.

(** Against C8 as stated: positions past the end, below -1, and -1 on an
    empty layer all return [undefined]; nothing is thrown. *)
Lemma getFeatureByIndex_out_of_range_counterexample :
  count synced_layer = 2 ∧
  getFeatureByIndex 5 synced_layer = (Normal None, synced_layer) ∧
  getFeatureByIndex (-2) synced_layer = (Normal None, synced_layer) ∧
  getFeatureByIndex (-1) new_layer = (Normal None, new_layer).
Proof. vm_compute. repeat split; reflexivity. Qed.

(** Adding a feature that is in the layer appends its id a second time. *)
Example addFeature_twice_duplicates :
  index_consistent synced_layer ∧
  _index (addFeature feature_A synced_layer).2 = [1; 2; 1]%positive.
Proof.
  split; [|vm_compute; reflexivity].
  split; [apply (bool_decide_unpack _); vm_compute; exact I|].
  vm_compute. reflexivity.
Qed.

(** C9's departure on the layer with features 1 and 2, when a feature
    that is not in it is removed. *)
Lemma removeFeature_absent_witness :
  _index (removeFeature feature_C synced_layer).2 = [1%positive] ∧
  dom (_features (removeFeature feature_C synced_layer).2)
    = {[ 1%positive; 2%positive ]} ∧
  ¬ index_consistent (removeFeature feature_C synced_layer).2.
Proof.
  destruct (removeFeature_absent_drops_last feature_C synced_layer)
    as (Hi & Hf & Hn).
  - split; [apply (bool_decide_unpack _); vm_compute; exact I|].
    vm_compute. reflexivity.
  - apply (bool_decide_unpack _). vm_compute. exact I.
  - discriminate.
  - rewrite Hi, Hf. split; [reflexivity|]. split; [|exact Hn].
    vm_compute. reflexivity.
Defined.

(** C10 on a layer whose first read fails: a later save, show and forced
    remote fetch do not bring the read back, and the next [fetchData]
    does nothing, whatever server it would meet. *)
Lemma fetchData_error_witness :
  let w1 := (fetchData accepting unloaded_layer).2 in
  let w2 := perform_all [(merging, Call_save); (merging, Call_show);
                         (remote_host true, Call_fetchRemoteData (JBool true))]
              w1 in
  _loading w1 = true ∧ _loading w2 = true ∧
  fetchData merging w2 = (Normal tt, w2).
Proof.
  destruct (fetchData_error_blocks_later_loads accepting unloaded_layer None
              eq_refl eq_refl eq_refl) as (_ & Hl & _ & Hn).
  destruct (Hn [(merging, Call_save); (merging, Call_show);
                (remote_host true, Call_fetchRemoteData (JBool true))])
    as (Hl2 & _ & Hf).
  cbv zeta. split; [exact Hl|]. split; [exact Hl2 | apply Hf].
Defined.
(** A load that succeeds, on a visible layer whose options ask for another
    rendering: on the way [resetLayer] shows the layer again, and the
    [fetchData] this reaches returns at once, the first being in flight. *)
Example fetchData_loads_and_resets_layer :
  let w' := (fetchData serving unloaded_layer).2 in
  _loaded w' = true ∧ _loading w' = false ∧ layer_type w' = "Cluster" ∧
  _referenceVersion w' = Some "v3" ∧ count w' = 1 ∧
  requests w' = [ServerGet (_dataUrl unloaded_layer)].
Proof. vm_compute. repeat split; reflexivity. Qed.

(** * Further properties of the code *)

(** ** Loading a layer *)

(** What a layer exports does not depend on the state it is asked in. *)
Lemma eachFeature_toGeoJSON_any fs index l w w0 :
  eachFeature_toGeoJSON fs index w = (Normal l, w) →
  eachFeature_toGeoJSON fs index w0 = (Normal l, w0).
Proof.
  revert l. induction index as [|i idx IH]; intros l.
  - cbn. by intros [= <-].
  - cbn [eachFeature_toGeoJSON]. destruct (fs !! i); [|done].
    unfold bind.
    destruct (eachFeature_toGeoJSON fs idx w) as [[l0|e] w''] eqn:E0; [|done].
    pose proof (eachFeature_toGeoJSON_state fs idx w) as Hs.
    rewrite E0 in Hs. cbn in Hs. subst w''.
    rewrite (IH l0 eq_refl). cbn. by intros [= <-].
Qed.

Lemma featuresToGeoJSON_export w l w0 :
  featuresToGeoJSON w = (Normal l, w) →
  eachFeature_toGeoJSON (_features w) (_index w) w0 = (Normal l, w0).
Proof.
  unfold featuresToGeoJSON. erewrite bind_run; [|reflexivity].
  apply eachFeature_toGeoJSON_any.
Qed.

Section FetchData.
Context (env : Env).


Lemma log_grows_setReferenceVersion response :
  respects log_grows (setReferenceVersion response).
Proof.
  apply respects_setReferenceVersion;
    auto using log_grows_content, log_grows_log with respects.
Qed.

Lemma log_grows_fromUmapGeoJSON geojson :
  respects log_grows (fromUmapGeoJSON_ env (ret tt) geojson).
Proof.
  apply respects_fromUmapGeoJSON_;
    auto using log_grows_content, log_grows_log with respects.
Qed.

Lemma log_grows_backupOptions : respects log_grows backupOptions.
Proof.
  apply respects_backupOptions;
    auto using log_grows_content, log_grows_log with respects.
Qed.

(** The state in which [fetchData] waits for its reply. *)
Lemma fetchData_reading w :
  createdOnServer w = true → _loading w = false →
  fetchData env w =
  (let w1 := logged (ServerGet (_dataUrl w)) (set_loading true w) in
   match server_get env (length (requests w)) (_dataUrl w) with
   | ReplyOk geojson response =>
       (setReferenceVersion response ;;
        editMode <- get (λ w, prop (options w) "editMode") ;;
        fromUmapGeoJSON_ env (ret tt)
          {| payload := payload geojson;
             _umap_options := set_editMode editMode (_umap_options geojson);
             _storage := set_editMode editMode (_storage geojson) |} ;;
        backupOptions ;;
        put (set_loading false)) w1
   | ReplyError _ => (Normal tt, w1)
   end).
Proof.
  intros Hc Hl. unfold fetchData, fetchData_body, server_get_, log.
  erewrite bind_run; [|reflexivity]. rewrite Hc. cbn [negb].
  erewrite bind_run; [|reflexivity]. rewrite Hl.
  erewrite bind_run; [|reflexivity].
  erewrite bind_run; [|reflexivity].
  change (_dataUrl (set_loading true w)) with (_dataUrl w).
  erewrite bind_run; [|reflexivity]. cbv beta zeta.
  change (length (requests (set_loading true w))) with (length (requests w)).
  by destruct (server_get env _ _).
Qed.

(** X1.  [fetchData] returns at once, changing nothing, for a layer the
    server does not know and for one whose read is in flight.  Otherwise
    the first request it logs is the read of the layer's data address. *)
Theorem fetchData_reads_when_due w :
  (createdOnServer w = false ∨ _loading w = true →
   fetchData env w = (Normal tt, w)) ∧
  (createdOnServer w = true → _loading w = false →
   requests w ++ [ServerGet (_dataUrl w)]
     `prefix_of` requests (fetchData env w).2).
Proof.
  split.
  - intros [H|H]; [by apply fetchData_local | by apply fetchData_in_flight].
  - intros Hc Hl. rewrite (fetchData_reading w Hc Hl). cbv zeta.
    set (w1 := logged _ _).
    destruct (server_get env _ _) as [geojson response|]; [|done].
    lazymatch goal with
    | |- _ `prefix_of` requests (?m w1).2 =>
        enough (respects log_grows m) as H by exact (H w1)
    end.
    repeat first
      [ apply log_grows_setReferenceVersion
      | apply log_grows_fromUmapGeoJSON
      | apply log_grows_backupOptions
      | apply respects_put; [..|intros ?; apply log_grows_loading]
      | respects_step log_grows_content log_grows_log ].
Qed.

(** X2.  When the server's document has neither [_umap_options] nor
    [_storage], [fetchData] ends in an exception: the reference version is
    already that of the reply, nothing is loaded, and the in-flight flag
    is left set, so that later calls return at once. *)
Theorem fetchData_without_options_stays_in_flight w geojson response :
  createdOnServer w = true → _loading w = false →
  server_get env (length (requests w)) (_dataUrl w) = ReplyOk geojson response →
  _umap_options geojson = None → _storage geojson = None →
  let w' := (fetchData env w).2 in
  (∃ e, (fetchData env w).1 = Throw e) ∧
  _loading w' = true ∧ _loaded w' = _loaded w ∧
  _referenceVersion w' = headers_get response "X-Datalayer-Version" ∧
  _index w' = _index w ∧ _features w' = _features w ∧
  options w' = options w ∧
  ∀ env', fetchData env' w' = (Normal tt, w').
Proof.
  intros Hc Hl Hreply Ho Hs. cbv zeta.
  rewrite (fetchData_reading w Hc Hl). cbv zeta. rewrite Hreply.
  erewrite bind_run; [|reflexivity].
  erewrite bind_run; [|reflexivity].
  erewrite bind_throw.
  2:{ unfold fromUmapGeoJSON_. cbn [_storage _umap_options].
      rewrite Ho, Hs. reflexivity. }
  cbn [fst snd]. split; [eauto|].
  repeat (split; [reflexivity|]).
  intros env'. by apply fetchData_in_flight.
Qed.


End FetchData.

(** ** Erasing and resetting *)

Lemma erase_run w : erase w = (Normal tt, erased w).
Proof.
  unfold erase, erased, hide. cbv zeta.
  erewrite bind_run; [|reflexivity].
  erewrite bind_run; [|reflexivity].
  erewrite bind_run; [|apply clear_run].
  erewrite bind_run; [|reflexivity]. reflexivity.
Qed.




Section Reset.
Context (env : Env).






End Reset.

(** X6.  When the layer is not in the map's order of layers, [erase]
    takes the last layer out of it. *)
Theorem erase_unregistered_drops_last w :
  self_id w ∉ datalayersIndex w →
  datalayersIndex (erase w).2 =
  take (length (datalayersIndex w) - 1) (datalayersIndex w).
Proof.
  intros Hn. rewrite erase_run. unfold snd, erased. cbv zeta.
  peel frame_datalayersIndex. wsimpl.
  unfold getRank, indexOf. wsimpl. rewrite indexOf_from_absent by done.
  destruct (datalayersIndex w) as [|x idx] eqn:E; [done|].
  by apply splice_last.
Qed.

Lemma filter_all {A} (P : A → Prop) `{∀ x, Decision (P x)} (l : list A) :
  Forall P l → filter P l = l.
Proof.
  induction 1 as [|x l Hx _ IH]; [done|].
  rewrite filter_cons_True by done. by rewrite IH.
Qed.

Lemma splice_first_occurrence (idx : list positive) x :
  x ∈ idx → NoDup idx →
  splice (indexOf idx x) 1 idx = filter (λ i, i ≠ x) idx.
Proof.
  intros Hx Hnd.
  destruct (indexOf_from_present idx x 0 Hx) as (n & E & Hn & Ht).
  unfold indexOf. rewrite E, Z.add_0_l.
  rewrite splice_one by (by eapply lookup_lt_Some).
  rewrite <- (take_drop_middle _ _ _ Hn) in Hnd |- * at 3.
  apply NoDup_app in Hnd as (_ & _ & Hnd2).
  apply NoDup_cons in Hnd2 as [Hd _].
  rewrite filter_app, filter_cons_False by naive_solver.
  rewrite !filter_all; [done|..].
  - apply Forall_forall. intros i Hi ->. done.
  - apply Forall_forall. intros i Hi ->. done.
Qed.

(** ** Deleting *)





Section Delete.
Context (env : Env).



End Delete.




(** ** The feature index, once more *)

(** X9.  After [addFeature] the feature is the last of the layer: position
    -1 and the position of the old count both give it, and the count has
    grown by one.  When its id was not in use, the positions before give
    what they gave. *)
Theorem addFeature_then_getFeatureByIndex feature w :
  let w' := (addFeature feature w).2 in
  getFeatureByIndex (-1) w' = (Normal (Some feature), w') ∧
  getFeatureByIndex (Z.of_nat (count w)) w' = (Normal (Some feature), w') ∧
  count w' = S (count w) ∧
  ∀ i, (0 ≤ i < Z.of_nat (count w))%Z → stamp feature ∉ _index w →
       (getFeatureByIndex i w').1 = (getFeatureByIndex i w).1.
Proof.
  cbv zeta. rewrite addFeature_run. unfold snd.
  set (w' := set_propertiesIndex _ _).
  assert (Hi : _index w' = _index w ++ [stamp feature]) by reflexivity.
  assert (Hf : _features w' = <[stamp feature := feature]> (_features w))
    by reflexivity.
  clearbody w'. unfold getFeatureByIndex, count.
  split; [|split; [|split]].
  - erewrite bind_run; [|reflexivity]. cbv zeta. rewrite Z.eqb_refl.
    rewrite array_get_last, Hi, last_snoc. cbn. by rewrite Hf, lookup_insert_eq.
  - erewrite bind_run; [|reflexivity]. cbv zeta.
    destruct (Z.eqb_spec (Z.of_nat (length (_index w))) (-1)); [lia|].
    unfold array_get. destruct (Z.ltb_spec (Z.of_nat (length (_index w))) 0); [lia|].
    rewrite Nat2Z.id, Hi, lookup_app_r, Nat.sub_diag by lia. cbn.
    by rewrite Hf, lookup_insert_eq.
  - rewrite Hi, length_app. cbn. lia.
  - intros i Hr Hn. erewrite !bind_run by reflexivity. cbv zeta.
    unfold ret. cbn [fst].
    destruct (Z.eqb_spec i (-1)); [lia|]. f_equal.
    unfold array_get. destruct (Z.ltb_spec i 0); [lia|].
    rewrite Hi, lookup_app_l by lia.
    destruct (_index w !! Z.to_nat i) as [k|] eqn:E; [|done]. cbn.
    rewrite Hf, lookup_insert_ne; [done|].
    intros <-. apply Hn. by eapply list_elem_of_lookup_2.
Qed.

(** X10.  Removing a feature that is in a layer whose order sequence lists
    the keys of the feature map, each once, takes its id out of the
    sequence and its entry out of the map: the other ids keep their
    order, the sequence still lists the keys, and the property index is
    as it was, also when no feature has the property any more. *)
Theorem removeFeature_present_keeps_order feature w :
  index_consistent w → stamp feature ∈ _index w →
  let w' := (removeFeature feature w).2 in
  _index w' = filter (λ i, i ≠ stamp feature) (_index w) ∧
  _features w' = delete (stamp feature) (_features w) ∧
  index_consistent w' ∧
  _propertiesIndex w' = _propertiesIndex w.
Proof.
  intros Hc Hin. cbv zeta.
  pose proof (removeFeature_consistent feature w Hin Hc) as Hc'.
  rewrite removeFeature_run in *. unfold snd in *. wsimpl.
  split; [|done]. destruct Hc as [Hnd _].
  by apply splice_first_occurrence.
Qed.

(** ** The property index, once more *)

Global Instance str_le_antisymm : AntiSymm (=) str_le.
Proof.
  intros a b Hab Hba. unfold str_le, String.leb in *.
  rewrite String.compare_antisym in Hba.
  destruct (String.compare a b) eqn:E; cbn in *; try done.
  by apply String.compare_eq_iff.
Qed.

Lemma StronglySorted_remove_middle {A} (R : relation A) l1 x l2 :
  StronglySorted R (l1 ++ x :: l2) → StronglySorted R (l1 ++ l2).
Proof.
  induction l1 as [|y l1 IH]; cbn; intros H.
  - by apply StronglySorted_inv in H as [? _].
  - apply StronglySorted_inv in H as [Hs Hf]. constructor; [by apply IH|].
    rewrite Forall_app in *. destruct Hf as [? Hf].
    by apply Forall_cons in Hf as [_ ?].
Qed.

(** X11.  [deindexProperty] undoes [indexProperty]: on a sorted property
    index that did not hold the name, indexing the name and deindexing it
    gives the index back; and deindexing a name that is not in the index
    changes nothing. *)
Theorem deindexProperty_undoes_indexProperty name w :
  name ∉ _propertiesIndex w →
  deindexProperty name w = (Normal tt, w) ∧
  (StronglySorted str_le (_propertiesIndex w) →
   _propertiesIndex (deindexProperty name (indexProperty name w).2).2
   = _propertiesIndex w).
Proof.
  intros Hn.
  assert (Habsent : ∀ w0, name ∉ _propertiesIndex w0 →
                          deindexProperty name w0 = (Normal tt, w0)).
  { intros w0 H0. unfold deindexProperty, put. f_equal. cbv zeta.
    unfold indexOf. by rewrite indexOf_from_absent. }
  split; [by apply Habsent|]. intros Hs.
  rewrite indexProperty_run. unfold snd at 2.
  set (w1 := set_propertiesIndex _ w).
  assert (H1 : _propertiesIndex w1 = index_name (_propertiesIndex w) name)
    by reflexivity.
  clearbody w1. unfold index_name in H1.
  destruct (String.eqb name "");
    [rewrite Habsent by (by rewrite H1); exact H1|].
  destruct (_ =? _)%Z; [rewrite Habsent by (by rewrite H1); exact H1|].
  unfold includes in H1. rewrite (bool_decide_eq_false_2 _ Hn) in H1.
  unfold deindexProperty, put, snd. cbv zeta.
  assert (Hin : name ∈ _propertiesIndex w1).
  { rewrite H1, Array_sort_perm. apply elem_of_app. right. left. }
  destruct (indexOf_from_present (_propertiesIndex w1) name 0 Hin)
    as (n & E & Hl & Ht).
  unfold indexOf. rewrite E, Z.add_0_l.
  destruct (Z.eqb_spec (Z.of_nat n) (-1)); [lia|]. wsimpl.
  rewrite splice_one by (by eapply lookup_lt_Some).
  pose proof (Array_sort_sorted (_propertiesIndex w ++ [name])) as Hsorted.
  pose proof (Array_sort_perm (_propertiesIndex w ++ [name])) as Hperm.
  rewrite <- H1 in Hsorted, Hperm.
  rewrite <- (take_drop_middle _ _ _ Hl) in Hsorted, Hperm.
  apply (StronglySorted_unique str_le);
    [by eapply StronglySorted_remove_middle|exact Hs|].
  apply (Permutation_cons_inv (a := name)).
  rewrite Permutation_middle, Hperm.
  by rewrite Permutation_app_comm.
Qed.

(** ** Clearing *)

Lemma cleared_geojson w :
  _geojson (cleared w) = None ∧ _geojson_bk (cleared w) = reset_document w.
Proof.
  unfold cleared, reset_document. cbv zeta.
  destruct (_geojson w) as [d|] eqn:E; wsimpl; [|by rewrite E].
  split; [done|]. by destruct d.
Qed.

(** X12.  [clear] leaves the layer without features and without document;
    the document it held, if any, is the data backup, and otherwise the
    backup is kept.  A second [clear] changes nothing, and the property
    index still holds the names of the features that are gone. *)
Theorem clear_keeps_backup w :
  let w' := (clear w).2 in
  _index w' = [] ∧ _features w' = ∅ ∧ _geojson w' = None ∧
  _geojson_bk w' = reset_document w ∧
  _propertiesIndex w' = _propertiesIndex w ∧
  clear w' = (Normal tt, w').
Proof.
  cbv zeta. rewrite !clear_run. unfold snd.
  destruct (cleared_geojson w) as [Hg Hb].
  split; [apply cleared_index|]. split; [apply cleared_features|].
  split; [exact Hg|]. split; [exact Hb|].
  split; [unfold cleared; cbv zeta; by destruct (_geojson w)|].
  f_equal. unfold cleared at 1. cbv zeta. rewrite Hg.
  pose proof (cleared_index w) as Hi. pose proof (cleared_features w) as Hf.
  destruct (cleared w); cbn in *. by subst.
Qed.

(** ** Registering *)

(** X13.  After [connectToMap] the layer is in the map's registry and in
    its order of layers; an order without repetitions stays so, and a
    second [connectToMap] changes nothing. *)
Theorem connectToMap_registers_once w :
  let w' := (connectToMap w).2 in
  self_id w ∈ datalayers w' ∧ self_id w ∈ datalayersIndex w' ∧
  (NoDup (datalayersIndex w) → NoDup (datalayersIndex w')) ∧
  connectToMap w' = (Normal tt, w').
Proof.
  cbv zeta. rewrite !connectToMap_run. unfold snd.
  assert (Hs : self_id (connected w) = self_id w).
  { by through frame_self_id (connected_fr w). }
  assert (H1 : self_id w ∈ datalayers (connected w)).
  { unfold connected. cbv zeta.
    destruct (decide (self_id w ∈ datalayers w)) as [Hd|Hd];
      destruct (includes _ _); wsimpl; set_solver. }
  assert (H2 : self_id w ∈ datalayersIndex (connected w)).
  { unfold connected, includes. cbv zeta.
    destruct (decide (self_id w ∈ datalayers w)) as [Hd|Hd]; wsimpl;
      case_bool_decide; wsimpl; set_solver. }
  split; [exact H1|]. split; [exact H2|]. split.
  - intros Hnd. unfold connected, includes. cbv zeta.
    destruct (decide (self_id w ∈ datalayers w)) as [Hd|Hd]; wsimpl;
      case_bool_decide as Hi; wsimpl; try done;
      (apply NoDup_app; split; [done|]; split; [|apply NoDup_singleton];
       intros x Hx ->%list_elem_of_singleton; done).
  - f_equal. unfold connected at 1, includes. cbv zeta. rewrite Hs.
    rewrite decide_True by done. rewrite Hs.
    by rewrite bool_decide_eq_true_2.
Qed.

(** ** What a save sends *)


Lemma eachFeature_toGeoJSON_dangling fs index w :
  ¬ Forall (λ idx, is_Some (fs !! idx)) index →
  ∃ e, eachFeature_toGeoJSON fs index w = (Throw e, w).
Proof.
  induction index as [|idx index IH]; intros Hn; [by destruct Hn|].
  cbn [eachFeature_toGeoJSON]. destruct (fs !! idx) as [f|] eqn:Hf; [|by eexists].
  destruct IH as [e IH].
  { intros H. apply Hn. constructor; [by rewrite Hf|done]. }
  unfold bind. rewrite IH. by eexists.
Qed.



Section Saving.
Context (env : Env).

(** X14.  A layer that mirrors a remote source is saved without features,
    whatever it shows: the document of the request has an empty feature
    list and the layer's options. *)
Theorem save_remote_layer_sends_no_features w :
  _isDeleted w = false → isLoaded w = true → isRemoteLayer w = true →
  ∃ fd,
    requests w ++ [ServerPost (saveURL w) (Some (save_headers w)) (Some fd)]
      `prefix_of` requests (save env w).2 ∧
    fd_geojson fd = {| payload := CObject (Some []);
                       _umap_options := Some (options w);
                       _storage := None |}.
Proof.
  intros Hd Hl Hr. exists (save_formData w (OwnDoc [])). split; [|reflexivity].
  assert (Hdoc : umapGeoJSON w = (Normal (OwnDoc []), w)).
  { unfold umapGeoJSON. erewrite bind_run; [|reflexivity]. by rewrite Hr. }
  rewrite (save_live_requests env w _ Hd Hl Hdoc). apply _trySave_posts.
Qed.

(** X15.  When an id of the order sequence has no feature, the save of a
    loaded layer that holds its own data ends in an exception before
    anything is sent or changed. *)
Theorem save_dangling_id_sends_nothing w :
  _isDeleted w = false → isLoaded w = true → isRemoteLayer w = false →
  ¬ all_present w →
  ∃ e, save env w = (Throw e, w).
Proof.
  intros Hd Hl Hr Hn.
  destruct (eachFeature_toGeoJSON_dangling (_features w) (_index w) w Hn)
    as [e He].
  exists e. unfold save.
  erewrite bind_run; [|reflexivity]. rewrite Hd.
  erewrite bind_run; [|reflexivity]. rewrite Hl. cbn [negb].
  erewrite bind_throw; [reflexivity|].
  unfold umapGeoJSON. erewrite bind_run; [|reflexivity]. rewrite Hr.
  erewrite bind_throw; [reflexivity|].
  unfold featuresToGeoJSON. erewrite bind_run; [|reflexivity]. exact He.
Qed.


End Saving.

(** ** Remote data, once more *)

(** X17.  A static remote source is fetched once: after a fetch whose
    body the parser accepted, a call that is not forced returns at once,
    whatever the host would answer. *)
Theorem fetchRemoteData_static_source_fetched_once env force w r geojson :
  ¬ remote_fetch_skipped force w →
  truthy (field (remoteData w) "dynamic") = false →
  request_get env (length (requests w)) (remote_url env w) = Some r →
  ok r = true →
  formatter_parse env (text r) (field (remoteData w) "format") = Some geojson →
  let w' := (fetchRemoteData env force w).2 in
  _dataloaded w' = true ∧
  ∀ env2, fetchRemoteData env2 JUndefined w' = (Normal tt, w').
Proof.
  intros Hn Hdyn Hget Hok Hparse. cbv zeta.
  rewrite (fetchRemoteData_fetches env force w Hn). unfold snd. cbv zeta.
  rewrite Hget, Hok, Hparse.
  set (w1 := logged _ w).
  split; [reflexivity|]. intros env2.
  apply fetchRemoteData_skips. right. right.
  assert (Ho : options (loaded_from env geojson (cleared w1)) = options w).
  { peel frame_options. unfold w1. by peel frame_options. }
  unfold remoteData. rewrite Ho. split; [exact Hdyn|]. split; reflexivity.
Qed.

(** ** Importing *)

Section Imported.
Context (env : Env).

Lemma assign_isDirty_loaded w :
  isLoaded w = true →
  assign_isDirty env true w = (Normal tt, set_isDirty true w).
Proof.
  intros Hl. unfold assign_isDirty, onDirty.
  erewrite bind_run; [|reflexivity].
  erewrite bind_run; [|reflexivity].
  change (isLoaded (set_isDirty true w)) with (isLoaded w). by rewrite Hl.
Qed.

(** X18.  [importRaw] on a loaded layer, with a text the parser accepts:
    the layer is dirty and the elements of known geometry are added after
    the features it holds, in the order of the sorted document.  Nothing
    is asked, and the document of the layer and its loaded flag are as
    they were. *)
Theorem importRaw_adds_features raw format geojson w l :
  isLoaded w = true →
  formatter_parse env raw format = Some geojson →
  ids_allocated w → index_consistent w →
  featuresToGeoJSON w = (Normal l, w) →
  let w' := (importRaw env raw format w).2 in
  (importRaw env raw format w).1 = Normal tt ∧
  isDirty w' = true ∧
  index_consistent w' ∧
  featuresToGeoJSON w' =
    (Normal (l ++ filter known (collection_of env (payload geojson))), w') ∧
  _geojson w' = _geojson w ∧ _dataloaded w' = _dataloaded w ∧
  requests w' = requests w.
Proof.
  intros Hl Hparse Ha Hc Hexp. cbv zeta. unfold importRaw.
  erewrite bind_run; [|by apply assign_isDirty_loaded].
  rewrite Hparse. erewrite bind_run; [|apply addData_run].
  unfold zoomTo, ret, fst, snd.
  set (w1 := set_isDirty true w).
  set (w' := foldl make_step w1 (collection_of env (payload geojson))).
  destruct (foldl_make_step_export (collection_of env (payload geojson))
              w1 l w') as (_ & Hc' & He'); [done|done|..].
  { by apply (featuresToGeoJSON_export w). }
  fold w' in Hc', He'.
  assert (Hs : store_of w' w1 = w') by apply foldl_make_step_store.
  split; [reflexivity|].
  split; [by rewrite <- Hs|].
  split; [exact Hc'|].
  split; [unfold featuresToGeoJSON; erewrite bind_run; [|reflexivity];
          exact He'|].
  by rewrite <- Hs.
Qed.

(** X19.  [importFromUrl] returns normally.  Without a response, or with
    one that is not OK, only the request is logged: the layer is not
    marked dirty.  With an OK response whose body the parser rejects, a
    loaded layer is marked dirty although nothing was added. *)
Theorem importFromUrl_failures uri type w :
  let url := renderUrl env uri in
  let w1 := logged (RequestGet url) w in
  let w' := (importFromUrl env uri type w).2 in
  (importFromUrl env uri type w).1 = Normal tt ∧
  match request_get env (length (requests w)) url with
  | Some r =>
      if ok r then
        isLoaded w = true → formatter_parse env (text r) type = None →
        w' = set_isDirty true w1
      else w' = w1
  | None => w' = w1
  end.
Proof.
  cbv zeta. unfold importFromUrl. cbv zeta.
  erewrite bind_run; [|apply request_get_run].
  destruct (request_get env _ _) as [r|]; [|done].
  destruct (ok r); [|done]. split; [reflexivity|].
  intros Hl Hparse. unfold detached, snd at 1, importRaw.
  erewrite bind_run; [|by apply assign_isDirty_loaded].
  by rewrite Hparse.
Qed.

End Imported.

(** ** Browsing *)

Lemma array_get_in_range {A} (arr : list A) (i : Z) :
  (0 ≤ i < Z.of_nat (length arr))%Z →
  ∃ x, array_get arr i = Some x ∧ arr !! Z.to_nat i = Some x.
Proof.
  intros Hi. unfold array_get. destruct (Z.ltb_spec i 0); [lia|].
  destruct (lookup_lt_is_Some_2 arr (Z.to_nat i)) as [x Hx]; [lia|].
  exists x. by rewrite Hx.
Qed.

Lemma array_get_elem_of {A} (arr : list A) (i : Z) x :
  array_get arr i = Some x → x ∈ arr.
Proof.
  unfold array_get. destruct (i <? 0)%Z; [done|].
  apply list_elem_of_lookup_2.
Qed.

Lemma indexOf_NoDup (arr : list positive) i x :
  NoDup arr → arr !! i = Some x → indexOf arr x = Z.of_nat i.
Proof.
  intros Hnd Hi.
  destruct (indexOf_from_present arr x 0) as (n & E & Hn & _).
  { by eapply list_elem_of_lookup_2. }
  unfold indexOf. rewrite E, Z.add_0_l. f_equal.
  by eapply NoDup_lookup.
Qed.

Section Browse.
Context (browsable : string → JsVal) (others : positive → World).

Lemma getPreviousBrowsable_loop_ends w r fuel id :
  datalayersIndex w !! r = Some (self_id w) →
  (0 ≤ id < Z.of_nat (length (datalayersIndex w)))%Z →
  ((if (id <? Z.of_nat r)%Z then Z.of_nat r - id
    else Z.of_nat (length (datalayersIndex w)) + Z.of_nat r - id)
   ≤ Z.of_nat fuel)%Z →
  ∃ k, getPreviousBrowsable_loop browsable others fuel w id = Some (Some k) ∧
       browsable_from browsable others w k.
Proof.
  intros Hr. pose proof (lookup_lt_Some _ _ _ Hr) as Hrn.
  revert id. induction fuel as [|fuel IH]; intros id Hid Hh.
  { destruct (Z.ltb_spec id (Z.of_nat r)); lia. }
  cbn [getPreviousBrowsable_loop]. cbv zeta.
  set (id' := if array_get (datalayersIndex w) (id + 1) is Some _
              then (id + 1)%Z else 0%Z).
  assert (Hid' : (0 ≤ id' < Z.of_nat (length (datalayersIndex w)))%Z ∧
                 (id' = id + 1 ∨
                  (id = Z.of_nat (length (datalayersIndex w)) - 1 ∧ id' = 0))%Z).
  { unfold id'.
    destruct (Z_lt_dec (id + 1) (Z.of_nat (length (datalayersIndex w)))).
    - destruct (array_get_in_range (datalayersIndex w) (id + 1))
        as (x & -> & _); lia.
    - rewrite array_get_out_of_range by lia. lia. }
  clearbody id'. destruct Hid' as [Hid' Hstep].
  destruct (array_get_in_range (datalayersIndex w) id' Hid')
    as (next & -> & Hnext).
  destruct (decide (next = self_id w)) as [->|Hne].
  { eexists. split; [done|]. split; [|by left].
    by eapply list_elem_of_lookup_2. }
  destruct (truthy (canBrowse browsable (others next))) eqn:Hb.
  { eexists. split; [done|]. split; [|by right].
    by eapply list_elem_of_lookup_2. }
  apply IH; [done|].
  assert (id' ≠ Z.of_nat r).
  { intros ->. rewrite Nat2Z.id in Hnext. congruence. }
  destruct (Z.ltb_spec id (Z.of_nat r)), (Z.ltb_spec id' (Z.of_nat r)); lia.
Qed.

Lemma getNextBrowsable_loop_ends w r fuel id :
  datalayersIndex w !! r = Some (self_id w) →
  (0 ≤ id < Z.of_nat (length (datalayersIndex w)))%Z →
  ((if (Z.of_nat r <? id)%Z then id - Z.of_nat r
    else id + Z.of_nat (length (datalayersIndex w)) - Z.of_nat r)
   ≤ Z.of_nat fuel)%Z →
  ∃ k, getNextBrowsable_loop browsable others fuel w id = Some (Some k) ∧
       browsable_from browsable others w k.
Proof.
  intros Hr. pose proof (lookup_lt_Some _ _ _ Hr) as Hrn.
  revert id. induction fuel as [|fuel IH]; intros id Hid Hh.
  { destruct (Z.ltb_spec (Z.of_nat r) id); lia. }
  cbn [getNextBrowsable_loop]. cbv zeta.
  set (id' := if array_get (datalayersIndex w) (id - 1) is Some _
              then (id - 1)%Z
              else (Z.of_nat (length (datalayersIndex w)) - 1)%Z).
  assert (Hid' : (0 ≤ id' < Z.of_nat (length (datalayersIndex w)))%Z ∧
                 (id' = id - 1 ∨
                  (id = 0 ∧
                   id' = Z.of_nat (length (datalayersIndex w)) - 1))%Z).
  { unfold id'. destruct (Z_le_dec 0 (id - 1)).
    - destruct (array_get_in_range (datalayersIndex w) (id - 1))
        as (x & -> & _); lia.
    - rewrite array_get_out_of_range by lia. lia. }
  clearbody id'. destruct Hid' as [Hid' Hstep].
  destruct (array_get_in_range (datalayersIndex w) id' Hid')
    as (next & -> & Hnext).
  destruct (decide (next = self_id w)) as [->|Hne].
  { eexists. split; [done|]. split; [|by left].
    by eapply list_elem_of_lookup_2. }
  destruct (truthy (canBrowse browsable (others next))) eqn:Hb.
  { eexists. split; [done|]. split; [|by right].
    by eapply list_elem_of_lookup_2. }
  apply IH; [done|].
  assert (id' ≠ Z.of_nat r).
  { intros ->. rewrite Nat2Z.id in Hnext. congruence. }
  destruct (Z.ltb_spec (Z.of_nat r) id), (Z.ltb_spec (Z.of_nat r) id'); lia.
Qed.

Lemma getRank_registered w :
  self_id w ∈ datalayersIndex w →
  ∃ r, getRank w = Z.of_nat r ∧ datalayersIndex w !! r = Some (self_id w).
Proof.
  intros Hin.
  destruct (indexOf_from_present (datalayersIndex w) (self_id w) 0 Hin)
    as (r & E & Hr & _).
  exists r. unfold getRank, indexOf. rewrite E. split; [lia|done].
Qed.

Lemma browsable_neighbours w fuel :
  self_id w ∈ datalayersIndex w →
  length (datalayersIndex w) ≤ fuel →
  ∃ k1 k2,
    getPreviousBrowsable browsable others fuel w = Some (Some k1) ∧
    getNextBrowsable browsable others fuel w = Some (Some k2) ∧
    browsable_from browsable others w k1 ∧ browsable_from browsable others w k2.
Proof.
  intros Hin Hfuel. destruct (getRank_registered w Hin) as (r & Hrank & Hr).
  pose proof (lookup_lt_Some _ _ _ Hr) as Hrn.
  unfold getPreviousBrowsable, getNextBrowsable. rewrite Hrank.
  destruct (getPreviousBrowsable_loop_ends w r fuel (Z.of_nat r) Hr)
    as (k1 & H1 & Hb1); [lia|rewrite Z.ltb_irrefl; lia|].
  destruct (getNextBrowsable_loop_ends w r fuel (Z.of_nat r) Hr)
    as (k2 & H2 & Hb2); [lia|rewrite Z.ltb_irrefl; lia|].
  by exists k1, k2.
Qed.

Lemma browsable_from_self w k :
  none_else_browsable browsable others w → browsable_from browsable others w k → k = self_id w.
Proof.
  intros Hnone [Hk [->|Hb]]; [done|].
  destruct (decide (k = self_id w)) as [|Hne]; [done|].
  rewrite (Hnone k Hk Hne) in Hb. done.
Qed.

Lemma browsable_searches_end_aux w fuel :
  self_id w ∈ datalayersIndex w →
  length (datalayersIndex w) ≤ fuel →
  none_else_browsable browsable others w →
  getPreviousBrowsable browsable others fuel w = Some (Some (self_id w)) ∧
  getNextBrowsable browsable others fuel w = Some (Some (self_id w)).
Proof.
  intros Hin Hfuel Hnone.
  destruct (browsable_neighbours w fuel Hin Hfuel)
    as (k1 & k2 & H1 & H2 & Hb1 & Hb2).
  rewrite H1, H2.
  by rewrite (browsable_from_self w k1), (browsable_from_self w k2).
Qed.

(** X20.  For a layer that is in the map's order of layers, both searches
    for a layer to browse end within as many rounds as the order is
    long.  Each gives a layer of the order that is this one or can be
    browsed: this one when no other can. *)
Theorem browsable_searches_end w fuel :
  self_id w ∈ datalayersIndex w →
  length (datalayersIndex w) ≤ fuel →
  ∃ k1 k2,
    getPreviousBrowsable browsable others fuel w = Some (Some k1) ∧
    getNextBrowsable browsable others fuel w = Some (Some k2) ∧
    browsable_from browsable others w k1 ∧ browsable_from browsable others w k2 ∧
    (none_else_browsable browsable others w → k1 = self_id w ∧ k2 = self_id w).
Proof.
  intros Hin Hfuel.
  destruct (browsable_neighbours w fuel Hin Hfuel)
    as (k1 & k2 & H1 & H2 & Hb1 & Hb2).
  exists k1, k2. do 4 (split; [done|]).
  intros Hnone. split; by eapply browsable_from_self.
Qed.

(** X21.  For a layer that is not in the map's order of layers, when the
    order is not empty and none of its layers can be browsed, neither
    search ends, however many rounds it is given. *)
Theorem browsable_searches_never_end w fuel :
  self_id w ∉ datalayersIndex w → datalayersIndex w ≠ [] →
  (∀ k, k ∈ datalayersIndex w →
        truthy (canBrowse browsable (others k)) = false) →
  getPreviousBrowsable browsable others fuel w = None ∧
  getNextBrowsable browsable others fuel w = None.
Proof.
  intros Hn Hne Hnone.
  assert (Hlen : 0 < length (datalayersIndex w)).
  { destruct (datalayersIndex w); [done|cbn; lia]. }
  assert (Hstep : ∀ id, (0 ≤ id < Z.of_nat (length (datalayersIndex w)))%Z →
            ∃ next, array_get (datalayersIndex w) id = Some next ∧
                    next ≠ self_id w ∧
                    truthy (canBrowse browsable (others next)) = false).
  { intros id Hid.
    destruct (array_get_in_range (datalayersIndex w) id Hid) as (x & Hx & Hl).
    exists x. split; [done|]. apply list_elem_of_lookup_2 in Hl.
    split; [by intros ->|by apply Hnone]. }
  split.
  - unfold getPreviousBrowsable. generalize (getRank w).
    induction fuel as [|fuel IH]; intros id; [done|].
    cbn [getPreviousBrowsable_loop]. cbv zeta.
    set (id' := if array_get (datalayersIndex w) (id + 1) is Some _
                then (id + 1)%Z else 0%Z).
    assert (Hid' : (0 ≤ id' < Z.of_nat (length (datalayersIndex w)))%Z).
    { unfold id'.
      destruct (array_get (datalayersIndex w) (id + 1)) eqn:E; [|lia].
      unfold array_get in E. destruct (Z.ltb_spec (id + 1) 0); [done|].
      apply lookup_lt_Some in E. lia. }
    clearbody id'. destruct (Hstep id' Hid') as (next & -> & Hns & ->).
    rewrite decide_False by done. apply IH.
  - unfold getNextBrowsable. generalize (getRank w).
    induction fuel as [|fuel IH]; intros id; [done|].
    cbn [getNextBrowsable_loop]. cbv zeta.
    set (id' := if array_get (datalayersIndex w) (id - 1) is Some _
                then (id - 1)%Z
                else (Z.of_nat (length (datalayersIndex w)) - 1)%Z).
    assert (Hid' : (0 ≤ id' < Z.of_nat (length (datalayersIndex w)))%Z).
    { unfold id'.
      destruct (array_get (datalayersIndex w) (id - 1)) eqn:E; [|lia].
      unfold array_get in E. destruct (Z.ltb_spec (id - 1) 0); [done|].
      apply lookup_lt_Some in E. lia. }
    clearbody id'. destruct (Hstep id' Hid') as (next & -> & Hns & ->).
    rewrite decide_False by done. apply IH.
Qed.

Lemma index_le_1_long (index : list positive) :
  2 ≤ length index → index_le_1 index = false.
Proof. destruct index as [|? [|? ?]]; cbn; [lia..|done]. Qed.

(** X22.  Within the order sequence of a layer, without repetitions, the
    feature after [f] is the one [getNextFeature] gives for [f], and [f]
    is the one [getPreviousFeature] gives for it: no other layer is
    looked at. *)
Theorem neighbours_in_sequence fuel f g w i :
  NoDup (_index w) →
  _index w !! i = Some (stamp f) → _index w !! S i = Some (stamp g) →
  getNextFeature browsable others fuel f w
    = Some (Normal (_features w !! stamp g)) ∧
  getPreviousFeature browsable others fuel g w
    = Some (Normal (Neighbour_of (_features w !! stamp f))).
Proof.
  intros Hnd Hf Hg. pose proof (lookup_lt_Some _ _ _ Hg) as Hlen. split.
  - unfold getNextFeature. cbv zeta. rewrite (indexOf_NoDup _ i) by done.
    unfold array_get. destruct (Z.ltb_spec (Z.of_nat i + 1) 0); [lia|].
    replace (Z.to_nat (Z.of_nat i + 1)) with (S i) by lia. by rewrite Hg.
  - unfold getPreviousFeature. rewrite index_le_1_long by lia. cbv zeta.
    rewrite (indexOf_NoDup _ (S i)) by done.
    unfold array_get. destruct (Z.ltb_spec (Z.of_nat (S i) - 1) 0); [lia|].
    replace (Z.to_nat (Z.of_nat (S i) - 1)) with i by lia. by rewrite Hf.
Qed.

(** X23.  [getPreviousFeature] answers [null] exactly when the order
    sequence is empty or consists of the id 1: a layer with one feature
    of another id is searched like any other. *)
Theorem getPreviousFeature_null_iff fuel f w :
  getPreviousFeature browsable others fuel f w = Some (Normal Neighbour_null)
  ↔ _index w = [] ∨ _index w = [1%positive].
Proof.
  unfold getPreviousFeature. split.
  - destruct (index_le_1 (_index w)) eqn:E.
    + intros _. unfold index_le_1 in E.
      destruct (_index w) as [|k [|? ?]]; [by left| |done].
      right. apply bool_decide_eq_true in E. f_equal. lia.
    + cbv zeta. destruct (array_get _ _); [done|].
      destruct (getPreviousBrowsable _ _ _ _) as [[k|]|]; [|done..].
      by destruct (getFeatureByIndex _ _).1.
  - by intros [->| ->].
Qed.

(** X24.  In a layer that is in the map's order, when no other layer can
    be browsed, the sequence is walked in a circle: after the last
    feature comes the first, and before the first the last, unless the
    sequence is empty or consists of the id 1. *)
Theorem neighbours_wrap_around w first final fuel :
  self_id w ∈ datalayersIndex w → none_else_browsable browsable others w →
  length (datalayersIndex w) ≤ fuel →
  NoDup (_index w) →
  head (_index w) = Some (stamp first) →
  last (_index w) = Some (stamp final) →
  index_le_1 (_index w) = false →
  getNextFeature browsable others fuel final w
    = Some (Normal (_features w !! stamp first)) ∧
  getPreviousFeature browsable others fuel first w
    = Some (Normal (Neighbour_of (_features w !! stamp final))).
Proof.
  intros Hin Hnone Hfuel Hnd Hfirst Hlast Hguard.
  destruct (browsable_searches_end_aux w fuel Hin Hfuel Hnone) as [Hp Hn].
  rewrite head_lookup in Hfirst. pose proof Hlast as Hlast'.
  rewrite last_lookup in Hlast.
  pose proof (lookup_lt_Some _ _ _ Hfirst) as Hlen.
  assert (Hat : layer_at others w (self_id w) = w).
  { unfold layer_at. by rewrite decide_True. }
  split.
  - unfold getNextFeature. cbv zeta.
    rewrite (indexOf_NoDup _ (Nat.pred (length (_index w)))) by done.
    rewrite array_get_out_of_range by lia.
    rewrite Hn, Hat. unfold getFeatureByIndex.
    unfold bind, get, ret. cbv beta iota zeta.
    change (0 =? -1)%Z with false. cbv iota.
    unfold array_get. change (0 <? 0)%Z with false. cbv iota.
    change (Z.to_nat 0) with 0%nat. by rewrite Hfirst.
  - unfold getPreviousFeature. rewrite Hguard. cbv zeta.
    rewrite (indexOf_NoDup _ 0) by done.
    rewrite array_get_out_of_range by lia.
    rewrite Hp, Hat. unfold getFeatureByIndex.
    unfold bind, get, ret. cbv beta iota zeta.
    change (-1 =? -1)%Z with true. cbv iota.
    by rewrite array_get_last, Hlast'.
Qed.

End Browse.

(** ** Permissions *)

Lemma Object_assign_lookup (target source : gmap string JsVal) k :
  Object_assign target source !! k =
  match source !! k with Some v => Some v | None => target !! k end.
Proof.
  unfold Object_assign. destruct (source !! k) as [v|] eqn:E.
  - by apply lookup_union_Some_l.
  - by rewrite lookup_union_r.
Qed.

Lemma Object_assign_covered (target source : gmap string JsVal) :
  dom target ⊆ dom source → Object_assign target source = source.
Proof.
  intros Hd. apply map_eq. intros k. rewrite Object_assign_lookup.
  destruct (source !! k) as [v|] eqn:E; [done|].
  apply not_elem_of_dom. apply not_elem_of_dom in E. set_solver.
Qed.

Lemma Object_assign_empty (source : gmap string JsVal) :
  Object_assign ∅ source = source.
Proof. unfold Object_assign. apply (right_id_L ∅ (∪)). Qed.

Lemma editors_ids_keys l ids :
  editors_ids l = Normal ids →
  ∀ k, k ∈ ((λ v : JsVal, ("editors", v)) <$> ids).*1 → k = "editors".
Proof.
  intros _ k. rewrite <- list_fmap_compose.
  intros (v & -> & _)%list_elem_of_fmap. done.
Qed.

Lemma MapPermissions_editors_keys p es :
  MapPermissions_editors p = Normal es →
  (∀ k, k ∈ es.*1 → k = "editors") ∧
  (MapPermissions_isAnonymousMap p = true → es = []).
Proof.
  unfold MapPermissions_editors.
  destruct (MapPermissions_isAnonymousMap p); cbn [negb andb].
  { intros [= <-]. split; [|done]. by intros k ?%elem_of_nil. }
  destruct (truthy _).
  - destruct (prop _ _) as [| | | | |l|]; try done.
    destruct (editors_ids l) as [ids|] eqn:E; [|done].
    intros [= <-]. split; [|done]. by eapply editors_ids_keys.
  - intros [= <-]. split; [|done]. by intros k ?%elem_of_nil.
Qed.

(** X25.  [save] of the map's permissions changes neither the properties
    nor the dirty flag.  It answers [true] only for dirty permissions,
    after one request, and then the map's permissions hold every property
    and keep what they had under other names; when it answers nothing the
    map's permissions are as before, and one request was sent if the
    permissions were dirty; when it fails nothing was sent. *)
Theorem MapPermissions_save_commits_on_success error p :
  let '(r, p') := MapPermissions_save error p in
  mp_properties p' = mp_properties p ∧ mp_isDirty p' = mp_isDirty p ∧
  match r with
  | Normal (Some _) =>
      mp_isDirty p = true ∧
      length (mp_sent p') = S (length (mp_sent p)) ∧
      ∀ k, map_permissions p' !! k =
           match mp_properties p !! k with
           | Some v => Some v
           | None => map_permissions p !! k
           end
  | Normal None =>
      map_permissions p' = map_permissions p ∧
      length (mp_sent p') =
        if mp_isDirty p then S (length (mp_sent p)) else length (mp_sent p)
  | Throw _ => p' = p
  end.
Proof.
  unfold MapPermissions_save. destruct (mp_isDirty p) eqn:Hd; cbn [negb].
  2:{ by rewrite Hd. }
  destruct (MapPermissions_editors p) as [es|e]; [|done]. cbv zeta.
  destruct (error _ _).
  - cbn [mp_properties mp_isDirty map_permissions mp_sent MapPermissions_log].
    rewrite length_app. cbn [length]. repeat split; first [done|lia].
  - cbn [mp_properties mp_isDirty map_permissions mp_sent MapPermissions_log
         MapPermissions_commit].
    rewrite length_app. cbn [length]. repeat split; try first [done|lia].
    intros k. rewrite Object_assign_lookup.
    by rewrite Object_assign_empty.
Qed.

(** X26.  What [save] of dirty permissions posts, by the role of the user:
    owner, team and share status only for the owner of the map, the edit
    status for the owner and on a map without owner, editors never on a
    map without owner; who is not the owner of a map that has one sends
    the editors and nothing else. *)
Theorem MapPermissions_save_form_by_role error p es :
  mp_isDirty p = true → MapPermissions_editors p = Normal es →
  ∃ body,
    mp_sent (MapPermissions_save error p).2 =
      mp_sent p ++ [{| p_url := map_update_permissions (the_map_id p);
                       p_headers := Some []; p_body := Some body |}] ∧
    (∀ k, k ∈ ["owner"; "team"; "share_status"] →
          k ∈ body.*1 ↔ MapPermissions_isOwner p = true) ∧
    ("edit_status" ∈ body.*1 ↔
       MapPermissions_isOwner p = true ∨
       MapPermissions_isAnonymousMap p = true) ∧
    ("editors" ∈ body.*1 → MapPermissions_isAnonymousMap p = false) ∧
    (MapPermissions_isOwner p = false →
     MapPermissions_isAnonymousMap p = false → body = es).
Proof.
  intros Hd He. destruct (MapPermissions_editors_keys p es He) as [Hk Ha].
  unfold MapPermissions_save. rewrite Hd, He. cbn [negb]. cbv zeta.
  eexists. split.
  { destruct (error _ _); reflexivity. }
  assert (Hes : ∀ k, k ≠ "editors" → k ∉ es.*1).
  { intros k Hne Hin. by apply Hne, Hk. }
  assert (Hmem : ∀ (k : string) l1 l2, k ∈ (l1 ++ l2 : list string) ↔ k ∈ l1 ∨ k ∈ l2).
  { intros. apply elem_of_app. }
  destruct (MapPermissions_isOwner p), (MapPermissions_isAnonymousMap p);
    cbn [orb]; rewrite ?app_nil_r; rewrite ?fmap_app;
    cbn [fmap list_fmap fst];
    try rewrite (Ha eq_refl); cbn [fmap list_fmap app];
    (split; [intros k Hin|split; [|split]]);
    rewrite ?Hmem, ?elem_of_cons, ?elem_of_nil in *;
    try (pose proof (Hes "owner"); pose proof (Hes "team");
         pose proof (Hes "share_status"); pose proof (Hes "edit_status"));
    try naive_solver.
Qed.

Lemma MapPermissions_save_accepted error p :
  mp_isDirty p = true → MapPermissions_isAnonymousMap p = true →
  (∀ n r, error n r = false) →
  ∃ request,
    MapPermissions_save error p =
    (Normal (Some true),
     MapPermissions_commit (MapPermissions_log request p)).
Proof.
  intros Hd Ha Herr. unfold MapPermissions_save, MapPermissions_editors.
  rewrite Hd, Ha. cbn [negb andb]. cbv zeta. rewrite Herr. by eexists.
Qed.

Lemma MapPermissions_attach_accepted error p :
  (∀ n r, error n r = false) →
  MapPermissions_attach error p =
  {| mp_properties := <["owner" := map_user p]> (mp_properties p);
     mp_isDirty := mp_isDirty p;
     map_permissions := map_permissions p;
     map_user := map_user p; the_map_id := the_map_id p;
     mp_sent := mp_sent p ++ [{| p_url := MapPermissions_getAttachUrl p;
                                 p_headers := None; p_body := None |}] |}.
Proof.
  intros Herr. unfold MapPermissions_attach. cbv zeta. by rewrite Herr.
Qed.

(** X27.  [attach] on a map without owner, accepted by the server, leaves
    the map without owner.  A [save] that follows, accepted as well, names
    the user as the owner if the permissions were dirty before; otherwise
    it sends nothing and the map stays without owner. *)
Theorem attach_then_save error p :
  MapPermissions_isAnonymousMap p = true → truthy (map_user p) = true →
  (∀ n r, error n r = false) →
  let p1 := MapPermissions_attach error p in
  let '(r, p2) := MapPermissions_save error p1 in
  MapPermissions_isAnonymousMap p1 = true ∧
  if mp_isDirty p
  then r = Normal (Some true) ∧
       prop (map_permissions p2) "owner" = map_user p ∧
       MapPermissions_isAnonymousMap p2 = false ∧
       length (mp_sent p2) = 2 + length (mp_sent p)
  else r = Normal None ∧ p2 = p1 ∧
       length (mp_sent p2) = 1 + length (mp_sent p).
Proof.
  intros Ha Hu Herr. cbv zeta.
  rewrite (MapPermissions_attach_accepted error p Herr).
  set (p1 := {| mp_properties := _ |}).
  assert (Ha1 : MapPermissions_isAnonymousMap p1 = true) by exact Ha.
  destruct (mp_isDirty p) eqn:Hd.
  - destruct (MapPermissions_save_accepted error p1) as [request ->];
      [reflexivity|exact Ha1|exact Herr|].
    split; [exact Ha1|]. split; [done|].
    assert (Ho : prop (map_permissions
                   (MapPermissions_commit (MapPermissions_log request p1)))
                   "owner" = map_user p).
    { unfold prop.
      cbn [map_permissions MapPermissions_commit MapPermissions_log
           mp_properties p1].
      rewrite Object_assign_lookup. by rewrite lookup_insert_eq. }
    split; [exact Ho|]. split.
    + unfold MapPermissions_isAnonymousMap. rewrite Ho. by rewrite Hu.
    + cbn [mp_sent MapPermissions_commit MapPermissions_log p1].
      rewrite !length_app. cbn [length]. lia.
  - unfold MapPermissions_save.
    change (mp_isDirty p1) with false. cbn [negb].
    split; [exact Ha1|]. split; [done|]. split; [done|].
    cbn [mp_sent p1]. rewrite length_app. cbn [length]. lia.
Qed.

(** X28.  Permissions of a map whose properties name all that the map's
    permissions name, and the five of [setProperties]: from what [commit]
    leaves in the map, a new object gets the same properties. *)
Theorem MapPermissions_commit_then_new p :
  dom (map_permissions p) ⊆ dom (mp_properties p) →
  {[ "owner"; "team"; "editors"; "share_status"; "edit_status" ]}
    ⊆ dom (mp_properties p) →
  map_permissions (MapPermissions_commit p) = mp_properties p ∧
  mp_properties
    (MapPermissions_new (the_map_id p) (map_user p)
       (map_permissions (MapPermissions_commit p))) = mp_properties p.
Proof.
  intros Hd Hk.
  assert (E : map_permissions (MapPermissions_commit p) = mp_properties p).
  { cbn. rewrite Object_assign_empty. by apply Object_assign_covered. }
  split; [exact E|]. rewrite E. cbn. unfold MapPermissions_setProperties.
  cbn [own_properties]. apply Object_assign_covered.
  rewrite !dom_insert_L, dom_singleton_L. set_solver.
Qed.

(** X29.  Dirty permissions of a layer whose properties name the edit
    status and all that the layer's option [permissions] names: after a
    [save] the server accepts, the option holds the properties, the other
    options are as before, and a new object for the layer gets the same
    properties. *)
Theorem DataLayerPermissions_save_then_new error p :
  dp_isDirty p = true →
  dom (own_properties (prop (dp_options p) "permissions"))
    ⊆ dom (dp_properties p) →
  "edit_status" ∈ dom (dp_properties p) →
  (∀ n r, error n r = false) →
  let '(r, p') := DataLayerPermissions_save error p in
  r = Some true ∧
  dp_sent p' =
    dp_sent p ++
    [{| p_url := datalayer_permissions (dp_map_id p) (prop (dp_options p) "id");
        p_headers := Some [];
        p_body := Some [("edit_status", prop (dp_properties p) "edit_status")]
     |}] ∧
  prop (dp_options p') "permissions" = JObj (dp_properties p) ∧
  (∀ k, k ≠ "permissions" → dp_options p' !! k = dp_options p !! k) ∧
  dp_properties (DataLayerPermissions_new (dp_map_id p') (dp_options p'))
    = dp_properties p.
Proof.
  intros Hdirty Hd Hk Herr. unfold DataLayerPermissions_save.
  rewrite Hdirty. cbn [negb]. cbv zeta. rewrite Herr.
  split; [done|]. split; [done|].
  assert (E : prop (dp_options (DataLayerPermissions_commit
      {| dp_properties := dp_properties p; dp_isDirty := true;
         dp_options := dp_options p; dp_map_id := dp_map_id p;
         dp_sent := dp_sent p ++
           [{| p_url := DataLayerPermissions_getUrl p; p_headers := Some [];
               p_body := Some [("edit_status",
                                prop (dp_properties p) "edit_status")] |}] |}))
      "permissions" = JObj (dp_properties p)).
  { unfold prop. cbn [dp_options DataLayerPermissions_commit dp_properties].
    rewrite lookup_insert_eq. cbn. f_equal.
    rewrite Object_assign_empty. by apply Object_assign_covered. }
  split; [exact E|]. split.
  - intros k Hne. cbn. by rewrite lookup_insert_ne.
  - unfold DataLayerPermissions_new. cbn [dp_properties]. rewrite E.
    cbn [own_properties]. apply Object_assign_covered.
    rewrite dom_singleton_L. set_solver.
Qed.

(** * The further properties on sample layers *)

Lemma synced_layer_consistent : index_consistent synced_layer.
Proof.
  split; [apply (bool_decide_unpack _); vm_compute; exact I|].
  vm_compute. reflexivity.
Defined.

Lemma synced_layer_allocated : ids_allocated synced_layer.
Proof.
  intros k Hk. change (k ∈ [1; 2]%positive) in Hk.
  apply elem_of_cons in Hk as [->|Hk]; [done|].
  apply elem_of_cons in Hk as [->|Hk]; [done|].
  by apply elem_of_nil in Hk.
Defined.

(** A read that is answered with a document without options. *)
Lemma fetchData_without_options_witness :
  let w' := (fetchData bare_server unloaded_layer).2 in
  _loading w' = true ∧ _loaded w' = false ∧
  _referenceVersion w' = Some "v3" ∧
  fetchData serving w' = (Normal tt, w').
Proof.
  destruct (fetchData_without_options_stays_in_flight bare_server
              unloaded_layer two_elements (version_response "v3")
              eq_refl eq_refl eq_refl eq_refl eq_refl)
    as (_ & Hl & Hld & Hv & _ & _ & _ & Hn).
  cbv zeta. rewrite Hl, Hld, Hv. do 3 (split; [reflexivity|]). apply Hn.
Defined.


(** [erase] of a layer that the order of layers 11, 12 does not list. *)
Lemma erase_unregistered_witness :
  datalayersIndex (erase unregistered_layer).2 = [11%positive].
Proof.
  rewrite erase_unregistered_drops_last; [reflexivity|].
  apply (bool_decide_unpack _). vm_compute. exact I.
Defined.


(** The first of the two features is removed. *)
Lemma removeFeature_present_witness :
  _index (removeFeature feature_A synced_layer).2 = [2%positive] ∧
  index_consistent (removeFeature feature_A synced_layer).2.
Proof.
  destruct (removeFeature_present_keeps_order feature_A synced_layer)
    as (Hi & _ & Hc & _).
  - exact synced_layer_consistent.
  - apply (bool_decide_unpack _). vm_compute. exact I.
  - split; [|exact Hc]. rewrite Hi. vm_compute. reflexivity.
Defined.

(** A name the index of the synced layer does not hold. *)
Lemma deindexProperty_witness :
  deindexProperty "zzz" synced_layer = (Normal tt, synced_layer) ∧
  _propertiesIndex
    (deindexProperty "zzz" (indexProperty "zzz" synced_layer).2).2
  = ["name"].
Proof.
  destruct (deindexProperty_undoes_indexProperty "zzz" synced_layer)
    as [Hn Hs].
  - apply (bool_decide_unpack _). vm_compute. exact I.
  - split; [exact Hn|]. rewrite Hs; [reflexivity|].
    repeat constructor.
Defined.

(** The remote layer shows a feature and is saved without it. *)
Lemma save_remote_layer_witness :
  ∃ fd,
    [ServerPost (saveURL remote_layer) (Some (save_headers remote_layer))
       (Some fd)] `prefix_of` requests (save accepting remote_layer).2 ∧
    payload (fd_geojson fd) = CObject (Some []) ∧
    count remote_layer = 1.
Proof.
  destruct (save_remote_layer_sends_no_features accepting remote_layer
              eq_refl eq_refl eq_refl) as (fd & Hq & Hfd).
  exists fd. split; [exact Hq|]. rewrite Hfd. split; reflexivity.
Defined.

(** A save of the layer whose order sequence names a feature that is
    gone. *)
Lemma save_dangling_id_witness :
  ∃ e, save accepting dangling_own_layer = (Throw e, dangling_own_layer).
Proof.
  apply (save_dangling_id_sends_nothing accepting dangling_own_layer);
    [reflexivity..|].
  apply (bool_decide_unpack _). vm_compute. exact I.
Defined.


(** The static remote layer after its first fetch. *)
Lemma fetchRemoteData_static_witness :
  let w' := (fetchRemoteData (remote_host true) JUndefined remote_layer).2 in
  _dataloaded w' = true ∧
  fetchRemoteData (remote_host false) JUndefined w' = (Normal tt, w').
Proof.
  destruct (fetchRemoteData_static_source_fetched_once (remote_host true)
              JUndefined remote_layer {| ok := true; text := "name;lat;lon" |}
              two_elements) as [Hd Hn].
  - apply (bool_decide_unpack _). vm_compute. exact I.
  - reflexivity.
  - reflexivity.
  - reflexivity.
  - reflexivity.
  - cbv zeta. split; [exact Hd|apply Hn].
Defined.

(** A text of two elements, one of unknown geometry, is imported into the
    synced layer. *)
Lemma importRaw_witness :
  let w' := (importRaw (remote_host true) "name;lat;lon" (JStr "csv")
               synced_layer).2 in
  isDirty w' = true ∧
  featuresToGeoJSON w' =
    (Normal [ toGeoJSON feature_A; toGeoJSON feature_B;
              {| geometry_type := JStr "Point";
                 ge_properties := [("name", JStr "Z")] |} ], w').
Proof.
  destruct (importRaw_adds_features (remote_host true) "name;lat;lon"
              (JStr "csv") two_elements synced_layer
              [toGeoJSON feature_A; toGeoJSON feature_B])
    as (_ & Hd & _ & He & _).
  - reflexivity.
  - reflexivity.
  - exact synced_layer_allocated.
  - exact synced_layer_consistent.
  - vm_compute. reflexivity.
  - cbv zeta. rewrite Hd, He. split; reflexivity.
Defined.

(** Between an empty layer and one that can be browsed: both searches
    end. *)
Lemma browsable_searches_end_witness :
  ∃ k1 k2,
    getPreviousBrowsable browsable_types three_layers 3 middle_layer
      = Some (Some k1) ∧
    getNextBrowsable browsable_types three_layers 3 middle_layer
      = Some (Some k2) ∧
    k1 ∈ [11; 10; 12]%positive ∧ k2 ∈ [11; 10; 12]%positive.
Proof.
  destruct (browsable_searches_end browsable_types three_layers
              middle_layer 3) as (k1 & k2 & H1 & H2 & [Hk1 _] & [Hk2 _] & _).
  - apply (bool_decide_unpack _). vm_compute. exact I.
  - vm_compute. lia.
  - exists k1, k2. split; [exact H1|]. split; [exact H2|].
    split; [exact Hk1|exact Hk2].
Defined.

(** A layer outside of an order of two empty layers. *)
Lemma browsable_searches_never_end_witness :
  getPreviousBrowsable browsable_types idle_layers 1000 unregistered_layer
    = None ∧
  getNextBrowsable browsable_types idle_layers 1000 unregistered_layer = None.
Proof.
  apply browsable_searches_never_end.
  - apply (bool_decide_unpack _). vm_compute. exact I.
  - discriminate.
  - intros k _. reflexivity.
Defined.

(** The two features of the synced layer are each other's neighbours. *)
Lemma neighbours_in_sequence_witness :
  getNextFeature browsable_types idle_layers 0 feature_A synced_layer
    = Some (Normal (Some feature_B)) ∧
  getPreviousFeature browsable_types idle_layers 0 feature_B synced_layer
    = Some (Normal (Neighbour_of (Some feature_A))).
Proof.
  destruct (neighbours_in_sequence browsable_types idle_layers 0
              feature_A feature_B synced_layer 0) as [Hn Hp].
  - apply (bool_decide_unpack _). vm_compute. exact I.
  - reflexivity.
  - reflexivity.
  - rewrite Hn, Hp. split; reflexivity.
Defined.

(** The synced layer, alone on its map, is walked in a circle. *)
Lemma neighbours_wrap_around_witness :
  getNextFeature browsable_types idle_layers 1 feature_B synced_layer
    = Some (Normal (Some feature_A)) ∧
  getPreviousFeature browsable_types idle_layers 1 feature_A synced_layer
    = Some (Normal (Neighbour_of (Some feature_B))).
Proof.
  destruct (neighbours_wrap_around browsable_types idle_layers synced_layer
              feature_A feature_B 1) as [Hn Hp].
  - apply (bool_decide_unpack _). vm_compute. exact I.
  - intros k Hk Hne. exfalso. apply Hne.
    change (k ∈ [10%positive]) in Hk.
    by apply list_elem_of_singleton in Hk.
  - vm_compute. lia.
  - apply (bool_decide_unpack _). vm_compute. exact I.
  - reflexivity.
  - reflexivity.
  - reflexivity.
  - rewrite Hn, Hp. split; reflexivity.
Defined.

(** Who is not the owner sends the two editors and nothing else. *)
Lemma MapPermissions_save_form_witness :
  mp_sent (MapPermissions_save accepted editor_permissions).2 =
  [{| p_url := map_update_permissions (JNum 7); p_headers := Some [];
      p_body := Some [("editors", JNum 3); ("editors", JNum 4)] |}].
Proof.
  destruct (MapPermissions_save_form_by_role accepted editor_permissions
              [("editors", JNum 3); ("editors", JNum 4)])
    as (body & Hs & _ & _ & _ & Hb).
  - reflexivity.
  - vm_compute. reflexivity.
  - rewrite Hs, (Hb eq_refl eq_refl). reflexivity.
Defined.

(** A map without owner is attached and its edited permissions saved. *)
Lemma attach_then_save_witness :
  let p2 := (MapPermissions_save accepted
               (MapPermissions_attach accepted anonymous_permissions)).2 in
  prop (map_permissions p2) "owner" = sample_user ∧
  MapPermissions_isAnonymousMap p2 = false ∧
  length (mp_sent p2) = 2.
Proof.
  pose proof (attach_then_save accepted anonymous_permissions eq_refl eq_refl
                (λ _ _, eq_refl)) as H.
  cbv zeta in H. cbv zeta.
  destruct (MapPermissions_save accepted
              (MapPermissions_attach accepted anonymous_permissions))
    as [r p2].
  destruct H as (_ & _ & Ho & Ha & Hl). cbn [snd].
  split; [exact Ho|]. split; [exact Ha|exact Hl].
Defined.

(** The editor's properties are committed and read back. *)
Lemma MapPermissions_commit_then_new_witness :
  mp_properties
    (MapPermissions_new (JNum 7) sample_user
       (map_permissions (MapPermissions_commit editor_permissions)))
  = mp_properties editor_permissions.
Proof.
  apply (MapPermissions_commit_then_new editor_permissions).
  - apply (bool_decide_unpack _). vm_compute. exact I.
  - apply (bool_decide_unpack _). vm_compute. exact I.
Defined.

(** The edit status of a layer is saved and read back. *)
Lemma DataLayerPermissions_save_witness :
  let p' := (DataLayerPermissions_save accepted layer_permissions).2 in
  prop (dp_options p') "permissions"
    = JObj {[ "edit_status" := JNum 2 ]} ∧
  dp_properties (DataLayerPermissions_new (dp_map_id p') (dp_options p'))
    = {[ "edit_status" := JNum 2 ]}.
Proof.
  pose proof (DataLayerPermissions_save_then_new accepted layer_permissions
                eq_refl) as H.
  cbv zeta.
  destruct (DataLayerPermissions_save accepted layer_permissions) as [r p'].
  destruct H as (_ & _ & Ho & _ & Hn).
  - apply (bool_decide_unpack _). vm_compute. exact I.
  - apply (bool_decide_unpack _). vm_compute. exact I.
  - intros ? ?. reflexivity.
  - cbn [snd]. split.
    + rewrite Ho. vm_compute. reflexivity.
    + rewrite Hn. vm_compute. reflexivity.
Defined.
